(** * CLIProxyAPI: usage telemetry pipeline

    A shallow embedding of the usage-telemetry code of CLIProxyAPI:

    - [internal/runtime/executor/usage_helpers.go]: the per-request
      [usageReporter], the provider token-usage parsers and the SSE usage
      filter ([FilterSSEUsageMetadata], [StripUsageMetadataFromJSON]);
    - [internal/usage] (logger plugin): [RequestStatistics], [Record],
      [Snapshot], [MergeSnapshot], [dedupKey], [normaliseDetail],
      [normaliseTokenStats], [HandleUsage] and the request log;
    - [internal/database/database.go]: [Init];
    - [internal/api/handlers/management/usage.go]: [ImportUsageStatistics]
      and the import of a snapshot into the database.

    Go's [[]byte] and [string] are both sequences of 8-bit bytes and are
    modelled by [string]; [int64] is modelled by [Z] with the wrap-around of
    the Go operators written out ([Int64.wrap]).  The libraries the code calls
    (bytes, strings, gjson, sjson) are modelled in modules of their own, each
    saying what it abstracts. *)

From Stdlib Require Import ZArith Ascii String List Lia Bool.
From stdpp Require Import base option list gmap strings pretty.

Local Open Scope Z_scope.

(** ** int64 arithmetic *)

Module Int64.

Definition modulus : Z := 2 ^ 64.
Definition min_int : Z := - 2 ^ 63.
Definition max_int : Z := 2 ^ 63 - 1.

(** The int64 that a mathematical integer wraps to. *)
Definition wrap (z : Z) : Z := (z + 2 ^ 63) mod 2 ^ 64 - 2 ^ 63.

Definition add (a b : Z) : Z := wrap (a + b).
Definition incr (a : Z) : Z := wrap (a + 1).

Definition in_range (z : Z) : Prop := min_int <= z <= max_int.

End Int64.

(** ** The [bytes] and [strings] packages *)

Module Bytes.

Definition byte_of (n : nat) : ascii := ascii_of_nat n.
Definition byteN (n : N) : ascii := ascii_of_N n.
Definition code (c : ascii) : N := N_of_ascii c.

(** [asciiSpace]: tab, newline, vertical tab, form feed, carriage return
    and space. *)
Definition isAsciiSpace (c : ascii) : bool :=
  match code c with
  | 9%N | 10%N | 11%N | 12%N | 13%N | 32%N => true
  | _ => false
  end.

(** [unicode.IsSpace] on a non-ASCII rune, read off its UTF-8 encoding:
    U+0085 and U+00A0 take two bytes; U+1680, U+2000..U+200A, U+2028,
    U+2029, U+202F, U+205F and U+3000 take three. *)
Definition isSpace2 (a b : ascii) : bool :=
  match code a, code b with
  | 194%N, 133%N | 194%N, 160%N => true
  | _, _ => false
  end.

Definition isSpace3 (a b c : ascii) : bool :=
  match code a, code b with
  | 225%N, 154%N => N.eqb (code c) 128
  | 226%N, 128%N =>
      (N.leb 128 (code c) && N.leb (code c) 138)
      || N.eqb (code c) 168 || N.eqb (code c) 169 || N.eqb (code c) 175
  | 226%N, 129%N => N.eqb (code c) 159
  | 227%N, 128%N => N.eqb (code c) 128
  | _, _ => false
  end.

(** [TrimLeftFunc s unicode.IsSpace]: drop leading white-space runes. *)
Fixpoint trimLeft (s : string) : string :=
  match s with
  | String a r =>
      if isAsciiSpace a then trimLeft r
      else match r with
           | String b r2 =>
               if isSpace2 a b then trimLeft r2
               else match r2 with
                    | String c r3 => if isSpace3 a b c then trimLeft r3 else s
                    | EmptyString => s
                    end
           | EmptyString => s
           end
  | EmptyString => s
  end.

(** The same from the right, on the reversed bytes: a rune is decoded
    backwards from its last byte, so the byte order of the multi-byte
    white-space runes is reversed too. *)
Fixpoint trimLeftRev (s : string) : string :=
  match s with
  | String a r =>
      if isAsciiSpace a then trimLeftRev r
      else match r with
           | String b r2 =>
               if isSpace2 b a then trimLeftRev r2
               else match r2 with
                    | String c r3 => if isSpace3 c b a then trimLeftRev r3 else s
                    | EmptyString => s
                    end
           | EmptyString => s
           end
  | EmptyString => s
  end.

Definition trimRight (s : string) : string :=
  String.rev (trimLeftRev (String.rev s)).

(** [bytes.TrimSpace] and [strings.TrimSpace]. *)
Definition TrimSpace (s : string) : string := trimRight (trimLeft s).

(** [bytes.HasPrefix s prefix]. *)
Definition HasPrefix (s p : string) : bool := String.prefix p s.

(** [s[n:]]. *)
Fixpoint drop (n : nat) (s : string) : string :=
  match n, s with
  | O, _ => s
  | S n, String _ r => drop n r
  | S _, EmptyString => EmptyString
  end.

(** [s[:n]]. *)
Fixpoint take (n : nat) (s : string) : string :=
  match n, s with
  | O, _ => EmptyString
  | S n, String c r => String c (take n r)
  | S _, EmptyString => EmptyString
  end.

(** [bytes.Index s sep]; [None] stands for Go's -1. *)
Fixpoint Index (s sep : string) : option nat :=
  if String.prefix sep s then Some O
  else match s with
       | String _ r => S <$> Index r sep
       | EmptyString => None
       end.

Definition newline : ascii := byte_of 10.

(** [bytes.Split s "\n"]: one more piece than there are newlines. *)
Fixpoint Split (s : string) : list string :=
  match s with
  | EmptyString => [EmptyString]
  | String c r =>
      if Ascii.eqb c newline then EmptyString :: Split r
      else match Split r with
           | piece :: pieces => String c piece :: pieces
           | [] => [String c EmptyString]
           end
  end.

(** [bytes.Join lines "\n"]. *)
Fixpoint Join (lines : list string) : string :=
  match lines with
  | [] => EmptyString
  | [l] => l
  | l :: rest => l +:+ String newline (Join rest)
  end.

End Bytes.

(** ** gjson: reading JSON

    gjson scans the bytes lazily.  On a document that [gjson.ValidBytes]
    accepts, a lookup is determined by the document's structure, which is what
    the model keeps: the parsed value, with every number and string still in
    its source text.  gjson promises nothing on a document that is not valid;
    the model answers "no result" there, and the code below asks for validity
    before it uses a result wherever the theorems depend on one. *)

Module gjson.

#[warning="-register-all"]
Inductive json : Type :=
| JNull
| JTrue
| JFalse
| JNumber (raw : string)
| JString (raw : string)
| JArray (items : list json)
| JObject (members : list (string * json)).

Import Bytes.

(** The double quote. *)
Definition dquote : ascii := byte_of 34.

(** A string's text between its quotes. *)
Definition quoted (raw : string) : string :=
  String dquote (raw +:+ String dquote EmptyString).

(** JSON text written with an apostrophe for every double quote, to keep
    the documents of the examples readable. *)
Fixpoint q (s : string) : string :=
  match s with
  | EmptyString => EmptyString
  | String c r => String (if Ascii.eqb c "'" then dquote else c) (q r)
  end.

Definition is_digit (c : ascii) : bool :=
  N.leb 48 (code c) && N.leb (code c) 57.

Definition is_hex (c : ascii) : bool :=
  is_digit c
  || (N.leb 97 (code c) && N.leb (code c) 102)
  || (N.leb 65 (code c) && N.leb (code c) 70).

(** White space between JSON tokens: space, tab, newline, carriage return. *)
Definition is_ws (c : ascii) : bool :=
  match code c with
  | 32%N | 9%N | 10%N | 13%N => true
  | _ => false
  end.

Fixpoint skip_ws (s : string) : string :=
  match s with
  | String c r => if is_ws c then skip_ws r else s
  | EmptyString => s
  end.

(** The characters that may follow a backslash (besides [u]). *)
Definition is_escape (c : ascii) : bool :=
  Ascii.eqb c dquote ||
  match c with
  | "\"%char | "/"%char | "b"%char | "f"%char
  | "n"%char | "r"%char | "t"%char => true
  | _ => false
  end.

(** [validstring]: from just after the opening quote, the text of the
    string (escapes kept as written) and what follows the closing quote. *)
Fixpoint scan_string (s : string) : option (string * string) :=
  match s with
  | EmptyString => None
  | String c r =>
      if Ascii.eqb c dquote then Some (EmptyString, r)
      else if N.ltb (code c) 32 then None
      else if Ascii.eqb c "\" then
        match r with
        | String e r1 =>
            if is_escape e then
              '(body, rest) ← scan_string r1;
              Some (String c (String e body), rest)
            else if Ascii.eqb e "u" then
              match r1 with
              | String h1 (String h2 (String h3 (String h4 r2))) =>
                  if is_hex h1 && is_hex h2 && is_hex h3 && is_hex h4 then
                    '(body, rest) ← scan_string r2;
                    Some (String c (String e (String h1 (String h2
                           (String h3 (String h4 body))))), rest)
                  else None
              | _ => None
              end
            else None
        | EmptyString => None
        end
      else
        '(body, rest) ← scan_string r;
        Some (String c body, rest)
  end.

(** The longest run of digits at the head of the input. *)
Fixpoint span_digits (s : string) : string * string :=
  match s with
  | String c r =>
      if is_digit c then
        let '(ds, rest) := span_digits r in (String c ds, rest)
      else (EmptyString, s)
  | EmptyString => (EmptyString, s)
  end.

Definition starts_with_digit (s : string) : bool :=
  match s with
  | String c _ => is_digit c
  | EmptyString => false
  end.

(** [validnumber]: sign, integer part, fraction, exponent. *)
Definition scan_int (s : string) : option (string * string) :=
  match s with
  | String c r =>
      if Ascii.eqb c "0" then Some (String c EmptyString, r)
      else if is_digit c then Some (span_digits s)
      else None
  | EmptyString => None
  end.

Definition scan_frac (s : string) : option (string * string) :=
  match s with
  | String c r =>
      if Ascii.eqb c "." then
        if starts_with_digit r then
          let '(ds, rest) := span_digits r in Some (String c ds, rest)
        else None
      else Some (EmptyString, s)
  | EmptyString => Some (EmptyString, s)
  end.

Definition scan_exp (s : string) : option (string * string) :=
  match s with
  | String c r =>
      if Ascii.eqb c "e" || Ascii.eqb c "E" then
        match r with
        | String sg r1 =>
            if Ascii.eqb sg "+" || Ascii.eqb sg "-" then
              if starts_with_digit r1 then
                let '(ds, rest) := span_digits r1 in
                Some (String c (String sg ds), rest)
              else None
            else if is_digit sg then
              let '(ds, rest) := span_digits r in Some (String c ds, rest)
            else None
        | EmptyString => None
        end
      else Some (EmptyString, s)
  | EmptyString => Some (EmptyString, s)
  end.

Definition scan_number (s : string) : option (string * string) :=
  let '(sign, s1) :=
    match s with
    | String c r => if Ascii.eqb c "-" then (String c EmptyString, r)
                    else (EmptyString, s)
    | EmptyString => (EmptyString, s)
    end in
  '(int, s2) ← scan_int s1;
  '(frac, s3) ← scan_frac s2;
  '(exp, s4) ← scan_exp s3;
  Some (sign +:+ int +:+ frac +:+ exp, s4).

(** [validany], [validobject] and [validarray].  The fuel bounds the
    number of nested calls; [parse] supplies more than the input is long,
    which is always enough ([parser_props.parse_value_fuel]). *)
Fixpoint parse_value (fuel : nat) (s : string) : option (json * string) :=
  match fuel with
  | O => None
  | S fuel =>
      match skip_ws s with
      | EmptyString => None
      | String c r =>
          if Ascii.eqb c "{" then
            match skip_ws r with
            | String c1 r1 =>
                if Ascii.eqb c1 "}" then Some (JObject [], r1)
                else
                  '(ms, rest) ← parse_members fuel (String c1 r1);
                  Some (JObject ms, rest)
            | EmptyString => None
            end
          else if Ascii.eqb c "[" then
            match skip_ws r with
            | String c1 r1 =>
                if Ascii.eqb c1 "]" then Some (JArray [], r1)
                else
                  '(vs, rest) ← parse_elements fuel (String c1 r1);
                  Some (JArray vs, rest)
            | EmptyString => None
            end
          else if Ascii.eqb c dquote then
            '(body, rest) ← scan_string r;
            Some (JString body, rest)
          else if Ascii.eqb c "-" || is_digit c then
            '(num, rest) ← scan_number (String c r);
            Some (JNumber num, rest)
          else if String.prefix "true" (String c r) then
            Some (JTrue, drop 4 (String c r))
          else if String.prefix "false" (String c r) then
            Some (JFalse, drop 5 (String c r))
          else if String.prefix "null" (String c r) then
            Some (JNull, drop 4 (String c r))
          else None
      end
  end
with parse_members (fuel : nat) (s : string)
    : option (list (string * json) * string) :=
  match fuel with
  | O => None
  | S fuel =>
      match skip_ws s with
      | String q r =>
          if Ascii.eqb q dquote then
            '(key, r1) ← scan_string r;
            match skip_ws r1 with
            | String colon r2 =>
                if Ascii.eqb colon ":" then
                  '(v, r3) ← parse_value fuel r2;
                  match skip_ws r3 with
                  | String d r4 =>
                      if Ascii.eqb d "}" then Some ([(key, v)], r4)
                      else if Ascii.eqb d "," then
                        '(ms, rest) ← parse_members fuel r4;
                        Some ((key, v) :: ms, rest)
                      else None
                  | EmptyString => None
                  end
                else None
            | EmptyString => None
            end
          else None
      | EmptyString => None
      end
  end
with parse_elements (fuel : nat) (s : string)
    : option (list json * string) :=
  match fuel with
  | O => None
  | S fuel =>
      '(v, r1) ← parse_value fuel s;
      match skip_ws r1 with
      | String d r2 =>
          if Ascii.eqb d "]" then Some ([v], r2)
          else if Ascii.eqb d "," then
            '(vs, rest) ← parse_elements fuel r2;
            Some (v :: vs, rest)
          else None
      | EmptyString => None
      end
  end.

(** What it is for fuel to be enough: a parse that succeeds with fuel [n]
    consumes input, and succeeds again, with the same result, with any fuel
    that is at least the number of bytes it consumed. *)
Definition fuel_enough {A : Type} (f : nat -> string -> option (A * string))
    (n : nat) : Prop :=
  forall s v rest, f n s = Some (v, rest) ->
    (String.length rest < String.length s)%nat /\
    forall m, (String.length s - String.length rest <= m)%nat ->
              f m s = Some (v, rest).

(** [validpayload]: one value, white space around it, nothing else. *)
Definition parse (data : string) : option json :=
  '(v, rest) ← parse_value (S (String.length data)) data;
  match skip_ws rest with
  | EmptyString => Some v
  | String _ _ => None
  end.

(** [gjson.ValidBytes]. *)
Definition ValidBytes (data : string) : bool := bool_decide (is_Some (parse data)).


(** *** Strings: [unescape] *)

Definition hex_val (c : ascii) : N :=
  let n := code c in
  if is_digit c then (n - 48)%N
  else if N.leb 97 n && N.leb n 102 then (n - 87)%N
  else if N.leb 65 n && N.leb n 70 then (n - 55)%N
  else 0%N.

(** [runeit]: the code unit written by four hex digits. *)
Definition runeit (h1 h2 h3 h4 : ascii) : N :=
  if is_hex h1 && is_hex h2 && is_hex h3 && is_hex h4 then
    (((hex_val h1 * 16 + hex_val h2) * 16 + hex_val h3) * 16 + hex_val h4)%N
  else 0%N.

Definition isSurrogate (r : N) : bool := N.leb 55296 r && N.ltb r 57344.

(** [utf16.DecodeRune]; U+FFFD for an ill-formed pair. *)
Definition decodeSurrogates (r1 r2 : N) : N :=
  if N.leb 55296 r1 && N.ltb r1 56320 && N.leb 56320 r2 && N.ltb r2 57344
  then (((r1 - 55296) * 1024 + (r2 - 56320)) + 65536)%N
  else 65533%N.

(** [utf8.EncodeRune]. *)
Definition encodeRune (r : N) : string :=
  if N.leb r 127 then String (byteN r) EmptyString
  else if N.leb r 2047 then
    String (byteN (192 + r / 64)) (String (byteN (128 + r mod 64)) EmptyString)
  else if isSurrogate r || N.ltb 1114111 r then
    String (byteN 239) (String (byteN 191) (String (byteN 189) EmptyString))
  else if N.leb r 65535 then
    String (byteN (224 + r / 4096))
      (String (byteN (128 + (r / 64) mod 64))
         (String (byteN (128 + r mod 64)) EmptyString))
  else
    String (byteN (240 + r / 262144))
      (String (byteN (128 + (r / 4096) mod 64))
         (String (byteN (128 + (r / 64) mod 64))
            (String (byteN (128 + r mod 64)) EmptyString))).

Definition unescape_char (e : ascii) : option ascii :=
  if Ascii.eqb e dquote then Some dquote else
  match e with
  | "\"%char => Some "\"%char
  | "/"%char => Some "/"%char
  | "b"%char => Some (byte_of 8)
  | "f"%char => Some (byte_of 12)
  | "n"%char => Some (byte_of 10)
  | "r"%char => Some (byte_of 13)
  | "t"%char => Some (byte_of 9)
  | _ => None
  end.

(** [unescape]: the bytes a string's source text stands for.  It stops at
    the first byte it cannot read, which a valid document does not have. *)
Fixpoint unescape (s : string) : string :=
  match s with
  | EmptyString => EmptyString
  | String c r =>
      if N.ltb (code c) 32 then EmptyString
      else if Ascii.eqb c "\" then
        match r with
        | EmptyString => EmptyString
        | String e r1 =>
            if Ascii.eqb e "u" then
              match r1 with
              | String h1 (String h2 (String h3 (String h4 r2))) =>
                  let u := runeit h1 h2 h3 h4 in
                  if isSurrogate u then
                    match r2 with
                    | String b (String e2 (String g1 (String g2
                        (String g3 (String g4 r3))))) =>
                        if Ascii.eqb b "\" && Ascii.eqb e2 "u" then
                          encodeRune (decodeSurrogates u (runeit g1 g2 g3 g4))
                            +:+ unescape r3
                        else encodeRune u +:+ unescape r2
                    | _ => encodeRune u +:+ unescape r2
                    end
                  else encodeRune u +:+ unescape r2
              | _ => EmptyString
              end
            else
              match unescape_char e with
              | Some d => String d (unescape r1)
              | None => EmptyString
              end
        end
      else String c (unescape r)
  end.

(** *** Paths *)

(** A dotted path as the code writes it, cut at the dots.  The paths of
    this code base use none of gjson's other path syntax. *)
Fixpoint path_parts (path : string) : list string :=
  match path with
  | EmptyString => [EmptyString]
  | String c r =>
      if Ascii.eqb c "." then EmptyString :: path_parts r
      else match path_parts r with
           | p :: ps => String c p :: ps
           | [] => [String c EmptyString]
           end
  end.

Fixpoint digits_value (acc : Z) (s : string) : option Z :=
  match s with
  | EmptyString => Some acc
  | String c r =>
      if is_digit c then digits_value (acc * 10 + Z.of_N (code c - 48)) r
      else None
  end.

(** [parseUint], then the conversion to [int]: the index a path part
    names in an array, if it names one. *)
Definition parse_index (part : string) : option nat :=
  match part with
  | EmptyString => None
  | _ =>
      n ← digits_value 0 part;
      let i := n mod 2 ^ 64 in
      if i <? 2 ^ 63 then Some (Z.to_nat i) else None
  end.

(** A member's name matches a path part when its text, unescaped, is the
    part. *)
Definition key_matches (key part : string) : bool :=
  bool_decide (unescape key = part).

(** How many members of an object a path part names. *)
Fixpoint count_key (part : string) (ms : list (string * json)) : nat :=
  match ms with
  | [] => O
  | (k, _) :: ms' =>
      ((if key_matches k part then 1 else 0) + count_key part ms')%nat
  end.

(** The member of an object a one-part path finds: the first whose name
    matches. *)
Fixpoint lookup_key (part : string) (ms : list (string * json)) : option json :=
  match ms with
  | [] => None
  | (k, x) :: ms' => if key_matches k part then Some x else lookup_key part ms'
  end.

(** The scan of an object for a path part: [below] looks up the rest of
    the path in a member's value.  The scan goes on to later members of the
    same name when the rest of the path finds nothing below one. *)
Fixpoint scan_members (below : json -> option json) (part : string)
    (ms : list (string * json)) : option json :=
  match ms with
  | [] => None
  | (k, x) :: ms' =>
      if key_matches k part then
        match below x with
        | Some r => Some r
        | None => scan_members below part ms'
        end
      else scan_members below part ms'
  end.

(** [gjson.Get] along the parts of a path. *)
Fixpoint get_parts (parts : list string) (v : json) {struct parts} : option json :=
  match parts with
  | [] => Some v
  | p :: rest =>
      match v with
      | JObject ms => scan_members (get_parts rest) p ms
      | JArray vs =>
          i ← parse_index p;
          x ← vs !! i;
          get_parts rest x
      | _ => None
      end
  end.

(** *** Results *)

(** A [gjson.Result]: the value found, or nothing. *)
Definition Result : Type := option json.

Definition Get (v : json) (path : string) : Result := get_parts (path_parts path) v.

(** [gjson.ParseBytes]. *)
Definition ParseBytes (data : string) : Result := parse data.

(** [Result.Get]. *)
Definition rGet (r : Result) (path : string) : Result := v ← r; Get v path.

(** [gjson.GetBytes]. *)
Definition GetBytes (data : string) (path : string) : Result := rGet (ParseBytes data) path.

Definition Exists (r : Result) : bool := bool_decide (is_Some r).

Definition IsArray (r : Result) : bool :=
  match r with
  | Some (JArray _) => true
  | _ => false
  end.

(** The elements [Result.ForEach] visits on an array. *)
Definition arrayItems (r : Result) : list json :=
  match r with
  | Some (JArray vs) => vs
  | _ => []
  end.

(** [Result.Raw], up to the white space between tokens. *)
Fixpoint render (v : json) : string :=
  match v with
  | JNull => "null"
  | JTrue => "true"
  | JFalse => "false"
  | JNumber raw => raw
  | JString raw => quoted raw
  | JArray vs =>
      "[" +:+
      (fix items (vs : list json) : string :=
         match vs with
         | [] => EmptyString
         | [x] => render x
         | x :: r => render x +:+ "," +:+ items r
         end) vs +:+ "]"
  | JObject ms =>
      "{" +:+
      (fix members (ms : list (string * json)) : string :=
         match ms with
         | [] => EmptyString
         | [(k, x)] => quoted k +:+ ":" +:+ render x
         | (k, x) :: r => quoted k +:+ ":" +:+ render x +:+ "," +:+ members r
         end) ms +:+ "}"
  end.

(** The lists inside [render]. *)
Definition render_items : list json -> string :=
  fix items (vs : list json) : string :=
    match vs with
    | [] => EmptyString
    | [x] => render x
    | x :: r => render x +:+ "," +:+ items r
    end.

Definition render_members : list (string * json) -> string :=
  fix members (ms : list (string * json)) : string :=
    match ms with
    | [] => EmptyString
    | [(k, x)] => quoted k +:+ ":" +:+ render x
    | (k, x) :: r => quoted k +:+ ":" +:+ render x +:+ "," +:+ members r
    end.

(** *** Well-formed values

    What the parser builds, said of the value alone: every string and
    member name is text that [scan_string] reads up to its closing quote, and
    every number is text that [scan_number] reads whole when a delimiter or
    the end of the input follows. *)

(** The text starts with no character of the class [p]. *)
Definition stops (p : ascii -> bool) (rest : string) : Prop :=
  match rest with
  | String c _ => p c = false
  | EmptyString => True
  end.

Definition delimiter (c : ascii) : bool :=
  Ascii.eqb c "," || Ascii.eqb c "}" || Ascii.eqb c "]".

(** What may follow a value that [render] printed: the end of the input, a
    comma or a closing bracket. *)
Definition delimited (rest : string) : Prop :=
  match rest with
  | String c _ => delimiter c = true
  | EmptyString => True
  end.

(** The characters that go on a number, and those that go on its integer
    part and fraction. *)
Definition number_char (c : ascii) : bool :=
  is_digit c || Ascii.eqb c "." || Ascii.eqb c "e" || Ascii.eqb c "E".

Definition frac_char (c : ascii) : bool := is_digit c || Ascii.eqb c ".".

Definition string_text (raw : string) : Prop :=
  forall rest, scan_string (raw +:+ String dquote rest) = Some (raw, rest).

Definition number_text (raw : string) : Prop :=
  forall rest, delimited rest -> scan_number (raw +:+ rest) = Some (raw, rest).

#[warning="-register-all"]
Inductive well_formed : json -> Prop :=
| wf_null : well_formed JNull
| wf_true : well_formed JTrue
| wf_false : well_formed JFalse
| wf_number raw : number_text raw ->
    (exists c r, raw = String c r /\ (Ascii.eqb c "-" || is_digit c) = true) ->
    well_formed (JNumber raw)
| wf_string raw : string_text raw -> well_formed (JString raw)
| wf_array vs : Forall well_formed vs -> well_formed (JArray vs)
| wf_object ms :
    Forall (fun m => string_text m.1 /\ well_formed m.2) ms ->
    well_formed (JObject ms).

Definition member_ok (m : string * json) : Prop :=
  string_text m.1 /\ well_formed m.2.

(** A character that starts a token, and is no closing bracket. *)
Definition token_start (c : ascii) : Prop :=
  is_ws c = false /\ Ascii.eqb c "]" = false /\ Ascii.eqb c "}" = false.

(** What the round trip says of one value: printed, and followed by the
    end of the input or by a delimiter, it is parsed back, by any fuel that
    is at least the length of what was printed. *)
Definition reparsed (v : json) : Prop :=
  forall rest m, delimited rest -> (String.length (render v) <= m)%nat ->
    parse_value m (render v +:+ rest) = Some (v, rest).

(** [parseInt]: an optional minus sign and decimal digits, accumulated in
    an int64. *)
Definition parseInt (s : string) : option Z :=
  match s with
  | EmptyString => None
  | String c r =>
      if Ascii.eqb c "-" then
        match r with
        | EmptyString => None
        | _ => n ← digits_value 0 r; Some (Int64.wrap (- n))
        end
      else n ← digits_value 0 s; Some (Int64.wrap n)
  end.

(** What gjson computes through float64, which the development does not
    model: for a number that is not written as a plain integer,
    [float_Int raw] is [int64(f)] and [float_String raw] is
    [strconv.FormatFloat(f, 'f', -1, 64)], [f] being the float64 that
    [strconv.ParseFloat] reads from [raw]. *)
Class Float64 : Type := {
  float_Int : string -> Z;
  float_String : string -> string
}.

Section Results.
Context `{F : Float64}.

(** [Result.Int].  A number written as a plain integer reaches the same
    int64 through [safeInt] (up to 2^53 - 1) and through [parseInt]
    (beyond). *)
Definition Int (r : Result) : Z :=
  match r with
  | Some JTrue => 1
  | Some (JString raw) => default 0 (parseInt (unescape raw))
  | Some (JNumber raw) =>
      match parseInt raw with
      | Some n => n
      | None => float_Int raw
      end
  | _ => 0
  end.

(** [Result.String]. *)
Definition String_ (r : Result) : string :=
  match r with
  | Some JFalse => "false"
  | Some JTrue => "true"
  | Some (JNumber raw) =>
      match parseInt raw with
      | Some _ => raw
      | None => float_String raw
      end
  | Some (JString raw) => unescape raw
  | Some (JArray vs) => render (JArray vs)
  | Some (JObject ms) => render (JObject ms)
  | Some JNull | None => EmptyString
  end.

End Results.

End gjson.

(** ** sjson: editing JSON

    sjson splices the bytes in place, so every byte it does not touch stays.
    The model edits the parsed document and prints the result compactly
    ([gjson.render]); the two agree up to the white space between tokens.  The
    code passes sjson the paths [cpaUsageMetadata], [usageMetadata] and the
    same two below [response]: member names only, which is what is modelled
    (no array indices). *)

Module sjson.

Import gjson.

(** Replace the value of the first member whose name matches. *)
Fixpoint replace_member (part : string) (x' : json) (ms : list (string * json))
    : list (string * json) :=
  match ms with
  | [] => []
  | (k, x) :: ms' =>
      if key_matches k part then (k, x') :: ms'
      else (k, x) :: replace_member part x' ms'
  end.

(** Remove the first member whose name matches. *)
Fixpoint remove_member (part : string) (ms : list (string * json))
    : list (string * json) :=
  match ms with
  | [] => []
  | (k, x) :: ms' =>
      if key_matches k part then ms' else (k, x) :: remove_member part ms'
  end.

(** The member an object finds for a path part ([gjson.Get] with one
    part); nothing in an array (the part is a name) or a scalar. *)
Definition member (part : string) (v : json) : option json :=
  match v with
  | JObject ms => lookup_key part ms
  | _ => None
  end.

(** [appendBuild]: the nested objects for a path that is not there yet. *)
Fixpoint build (parts : list string) (raw : json) : json :=
  match parts with
  | [] => raw
  | p :: rest => JObject [(p, build rest raw)]
  end.

(** [appendRawPaths] when setting: [None] is sjson's error, on which the
    caller keeps the document it had. *)
Fixpoint set_parts (parts : list string) (raw : json) (v : json) {struct parts}
    : option json :=
  match parts with
  | [] => None
  | p :: rest =>
      match v with
      | JObject ms =>
          match lookup_key p ms with
          | Some x =>
              match rest with
              | [] => Some (JObject (replace_member p raw ms))
              | _ :: _ =>
                  x' ← set_parts rest raw x;
                  Some (JObject (replace_member p x' ms))
              end
          | None => Some (JObject (ms ++ [(p, build rest raw)]))
          end
      | JArray _ => None
      | _ => Some (JObject [(p, build rest raw)])
      end
  end.

(** [appendRawPaths] when deleting: a path that finds nothing leaves the
    document as it is. *)
Fixpoint delete_parts (parts : list string) (v : json) {struct parts} : json :=
  match parts with
  | [] => v
  | p :: rest =>
      match v with
      | JObject ms =>
          match lookup_key p ms with
          | Some x =>
              match rest with
              | [] => JObject (remove_member p ms)
              | _ :: _ => JObject (replace_member p (delete_parts rest x) ms)
              end
          | None => v
          end
      | _ => v
      end
  end.

(** [sjson.SetRawBytes], the error dropped as the callers drop it. *)
Definition SetRaw (doc : json) (path : string) (raw : json) : json :=
  default doc (set_parts (path_parts path) raw doc).

(** [sjson.DeleteBytes]. *)
Definition Delete (doc : json) (path : string) : json :=
  delete_parts (path_parts path) doc.

(** *** The rename, as the statements below speak of it *)

Definition usageKey : string := "usageMetadata".
Definition shadowKey : string := "cpaUsageMetadata".

(** The rename inside one object: the usage node goes under the shadow
    key, which takes its value if the object has that member and is added
    last if not, and the member [usageMetadata] is removed. *)
Definition shadowRename (u : json) (ms : list (string * json))
    : list (string * json) :=
  remove_member usageKey
    (match lookup_key shadowKey ms with
     | Some _ => replace_member shadowKey u ms
     | None => ms ++ [(shadowKey, u)]
     end).

(** Every member whose name is not among [except] is found as before, and
    as many members bear that name as before. *)
Definition kept (except : list string) (ms ms' : list (string * json)) : Prop :=
  forall part, part ∉ except ->
    lookup_key part ms' = lookup_key part ms /\
    count_key part ms' = count_key part ms.

(** The node [u] is under the shadow key, and one member named
    [usageMetadata] is gone. *)
Definition moved (u : json) (ms ms' : list (string * json)) : Prop :=
  lookup_key shadowKey ms' = Some u /\
  (count_key usageKey ms' + 1 = count_key usageKey ms)%nat.

(** What a rename does to an object. *)
Definition renamed (u : json) (ms ms' : list (string * json)) : Prop :=
  lookup_key shadowKey ms' = Some u /\
  (count_key usageKey ms' + 1 = count_key usageKey ms)%nat /\
  forall part, part <> usageKey -> part <> shadowKey ->
    lookup_key part ms' = lookup_key part ms /\
    count_key part ms' = count_key part ms.

(** The usage node under the response wrapper, if there is one. *)
Definition wrappedUsage (ms : list (string * json)) : option json :=
  match lookup_key "response" ms with
  | Some (JObject rs) => lookup_key usageKey rs
  | _ => None
  end.

End sjson.

(** ** Time

    [time.Time] and what the code observes of it. *)

Class TimeOps : Type := {
  Time : Type;
  (** [t.IsZero()] *)
  IsZero : Time -> bool;
  (** [t.UTC().Format(time.RFC3339Nano)] *)
  formatUTC : Time -> string;
  (** [t.Format("2006-01-02")] *)
  formatDay : Time -> string;
  (** [t.Hour()] *)
  Hour : Time -> Z
}.

(** ** sdk/cliproxy/usage: the records handed down the pipeline *)

Module coreusage.

Record Detail : Type := {
  InputTokens : Z;
  OutputTokens : Z;
  ReasoningTokens : Z;
  CachedTokens : Z;
  TotalTokens : Z
}.

(** [usage.Detail{}] *)
Definition zero : Detail :=
  {| InputTokens := 0; OutputTokens := 0; ReasoningTokens := 0;
     CachedTokens := 0; TotalTokens := 0 |}.

Record Record_ `{TimeOps} : Type := {
  Provider : string;
  Model : string;
  Source : string;
  APIKey : string;
  AuthID : string;
  AuthIndex : string;
  RequestedAt : Time;
  Failed : bool;
  Detail_ : Detail
}.

End coreusage.

(** ** internal/runtime/executor: usage_helpers.go *)

Module executor.

Import Bytes gjson coreusage.

(** [len(b) == 0] *)
Definition is_empty (b : string) : bool :=
  match b with
  | EmptyString => true
  | String _ _ => false
  end.

Section Executor.
Context `{F : Float64} `{T : TimeOps}.

(** *** The reporter *)

(** [once] is the state of the [sync.Once] latch: whether it has fired.
    The mutex has no sequential content. *)
Record usageReporter : Type := {
  provider : string;
  model : string;
  authID : string;
  authIndex : string;
  apiKey : string;
  source : string;
  requestedAt : Time;
  inputPayload : string;
  outputPayload : string;
  respID : string;
  finishReasons : list string;
  once : bool
}.

Definition set_inputPayload (r : usageReporter) (b : string) : usageReporter :=
  {| provider := provider r; model := model r; authID := authID r;
     authIndex := authIndex r; apiKey := apiKey r; source := source r;
     requestedAt := requestedAt r; inputPayload := b;
     outputPayload := outputPayload r; respID := respID r;
     finishReasons := finishReasons r; once := once r |}.

Definition set_outputPayload (r : usageReporter) (b : string) : usageReporter :=
  {| provider := provider r; model := model r; authID := authID r;
     authIndex := authIndex r; apiKey := apiKey r; source := source r;
     requestedAt := requestedAt r; inputPayload := inputPayload r;
     outputPayload := b; respID := respID r;
     finishReasons := finishReasons r; once := once r |}.

Definition set_respID (r : usageReporter) (id : string) : usageReporter :=
  {| provider := provider r; model := model r; authID := authID r;
     authIndex := authIndex r; apiKey := apiKey r; source := source r;
     requestedAt := requestedAt r; inputPayload := inputPayload r;
     outputPayload := outputPayload r; respID := id;
     finishReasons := finishReasons r; once := once r |}.

Definition set_finishReasons (r : usageReporter) (l : list string) : usageReporter :=
  {| provider := provider r; model := model r; authID := authID r;
     authIndex := authIndex r; apiKey := apiKey r; source := source r;
     requestedAt := requestedAt r; inputPayload := inputPayload r;
     outputPayload := outputPayload r; respID := respID r;
     finishReasons := l; once := once r |}.

Definition set_once (r : usageReporter) (b : bool) : usageReporter :=
  {| provider := provider r; model := model r; authID := authID r;
     authIndex := authIndex r; apiKey := apiKey r; source := source r;
     requestedAt := requestedAt r; inputPayload := inputPayload r;
     outputPayload := outputPayload r; respID := respID r;
     finishReasons := finishReasons r; once := b |}.

(** The methods have a pointer receiver that may be nil: [None].  Each
    returns the reporter as the call leaves it. *)

Definition SetInput (r : option usageReporter) (payload : string)
    : option usageReporter :=
  match r with
  | None => None
  | Some rep =>
      if is_empty payload then Some rep
      else Some (set_inputPayload rep payload)
  end.

Definition SetOutput (r : option usageReporter) (payload : string)
    : option usageReporter :=
  match r with
  | None => None
  | Some rep =>
      if is_empty payload then Some rep
      else Some (set_outputPayload rep payload)
  end.

Definition AppendOutput (r : option usageReporter) (chunk : string)
    : option usageReporter :=
  match r with
  | None => None
  | Some rep =>
      if is_empty chunk then Some rep
      else Some (set_outputPayload rep (outputPayload rep +:+ chunk))
  end.

(** The [choices.ForEach] loop of [CaptureStreamChunk]. *)
Definition captureFinishReasons (rep : usageReporter) (choices : Result)
    : usageReporter :=
  if IsArray choices then
    foldl (fun rep choice =>
             let reason := String_ (Get choice "finish_reason") in
             if is_empty reason then rep
             else set_finishReasons rep (finishReasons rep ++ [reason]))
          rep (arrayItems choices)
  else rep.

Definition CaptureStreamChunk (r : option usageReporter) (chunk : string)
    : option usageReporter :=
  match r with
  | None => None
  | Some rep =>
      if is_empty chunk then Some rep
      else
        let trimmed := TrimSpace chunk in
        let trimmed :=
          if HasPrefix trimmed "data:" then TrimSpace (drop 5 trimmed)
          else trimmed in
        if is_empty trimmed || negb (ValidBytes trimmed) then Some rep
        else
          let id := String_ (GetBytes trimmed "id") in
          let rep := if is_empty id then rep else set_respID rep id in
          let rep := captureFinishReasons rep (GetBytes trimmed "choices") in
          let content := String_ (GetBytes trimmed "choices.0.delta.content") in
          if negb (is_empty content) then
            Some (set_outputPayload rep (outputPayload rep +:+ content))
          else
            let content :=
              String_ (GetBytes trimmed "candidates.0.content.parts.0.text") in
            if negb (is_empty content) then
              Some (set_outputPayload rep (outputPayload rep +:+ content))
            else
              let content := String_ (GetBytes trimmed "delta.text") in
              let content :=
                if is_empty content
                then String_ (GetBytes trimmed "content_block.text")
                else content in
              if negb (is_empty content) then
                Some (set_outputPayload rep (outputPayload rep +:+ content))
              else Some rep
  end.

(** *** Publishing *)

(** What [publishWithOutcome] reads of its [context.Context]: whether
    the span it carries is valid.  A nil context is [None]. *)
Record Ctx : Type := { spanValid : bool }.

(** What the reporter does to the rest of the process: the records
    handed to [usage.PublishRecord], oldest first, and the calls of
    [span.SetAttributes].  The attribute list is computed from the
    reporter's captured state and the detail (it reads request
    parameters as floats); a call is recorded by the two. *)
Record World : Type := {
  published : list Record_;
  attributed : list (usageReporter * Detail)
}.

Definition set_TotalTokens (d : Detail) (total : Z) : Detail :=
  {| InputTokens := InputTokens d; OutputTokens := OutputTokens d;
     ReasoningTokens := ReasoningTokens d; CachedTokens := CachedTokens d;
     TotalTokens := total |}.

(** The record [publishWithOutcome] builds. *)
Definition recordOf (rep : usageReporter) (detail : Detail) (failed : bool)
    : Record_ :=
  {| Provider := provider rep; Model := model rep; Source := source rep;
     APIKey := apiKey rep; AuthID := authID rep; AuthIndex := authIndex rep;
     RequestedAt := requestedAt rep; Failed := failed; Detail_ := detail |}.

(** The first lines of [publishWithOutcome]: the total, when the detail
    brings none. *)
Definition deriveTotal (detail : Detail) : Detail :=
  if TotalTokens detail =? 0 then
    let total :=
      Int64.add (Int64.add (InputTokens detail) (OutputTokens detail))
                (ReasoningTokens detail) in
    if total >? 0 then set_TotalTokens detail total else detail
  else detail.

Definition publishWithOutcome (r : option usageReporter) (ctx : option Ctx)
    (detail : Detail) (failed : bool) (w : World)
    : option usageReporter * World :=
  match r with
  | None => (None, w)
  | Some rep =>
      let detail := deriveTotal detail in
      if once rep then (Some rep, w)
      else
        let attributed' :=
          match ctx with
          | Some c =>
              if spanValid c then attributed w ++ [(rep, detail)]
              else attributed w
          | None => attributed w
          end in
        (Some (set_once rep true),
         {| published := published w ++ [recordOf rep detail failed];
            attributed := attributed' |})
  end.

Definition publish (r : option usageReporter) (ctx : option Ctx)
    (detail : Detail) (w : World) : option usageReporter * World :=
  publishWithOutcome r ctx detail false w.

Definition publishFailure (r : option usageReporter) (ctx : option Ctx)
    (w : World) : option usageReporter * World :=
  publishWithOutcome r ctx zero true w.

Definition ensurePublished (r : option usageReporter) (ctx : option Ctx)
    (w : World) : option usageReporter * World :=
  match r with
  | None => (None, w)
  | Some _ => publishWithOutcome r ctx zero false w
  end.

(** A completion signal and the context it is fired with. *)
Inductive completion : Type :=
| Publish (ctx : option Ctx) (detail : Detail)
| PublishFailure (ctx : option Ctx)
| EnsurePublished (ctx : option Ctx).

Definition fire (c : completion) (st : option usageReporter * World)
    : option usageReporter * World :=
  match c with
  | Publish ctx detail => publish st.1 ctx detail st.2
  | PublishFailure ctx => publishFailure st.1 ctx st.2
  | EnsurePublished ctx => ensurePublished st.1 ctx st.2
  end.

(** The signals of one request, fired in order. *)
Definition fireAll (cs : list completion) (st : option usageReporter * World)
    : option usageReporter * World :=
  foldl (fun st c => fire c st) st cs.

(** *** The token-usage parsers *)

Definition jsonPayload (line : string) : string :=
  let trimmed := TrimSpace line in
  if is_empty trimmed then EmptyString
  else if bool_decide (trimmed = "[DONE]") then EmptyString
  else if HasPrefix trimmed "event:" then EmptyString
  else
    let trimmed :=
      if HasPrefix trimmed "data:" then TrimSpace (drop 5 trimmed)
      else trimmed in
    match trimmed with
    | String c _ => if Ascii.eqb c "{" then trimmed else EmptyString
    | EmptyString => EmptyString
    end.

Definition parseOpenAIUsage (data : string) : Detail :=
  let usageNode := rGet (ParseBytes data) "usage" in
  if negb (Exists usageNode) then zero
  else
    let inputNode := rGet usageNode "prompt_tokens" in
    let inputNode :=
      if negb (Exists inputNode) then rGet usageNode "input_tokens"
      else inputNode in
    let outputNode := rGet usageNode "completion_tokens" in
    let outputNode :=
      if negb (Exists outputNode) then rGet usageNode "output_tokens"
      else outputNode in
    let cached := rGet usageNode "prompt_tokens_details.cached_tokens" in
    let cached :=
      if negb (Exists cached)
      then rGet usageNode "input_tokens_details.cached_tokens"
      else cached in
    let reasoning := rGet usageNode "completion_tokens_details.reasoning_tokens" in
    let reasoning :=
      if negb (Exists reasoning)
      then rGet usageNode "output_tokens_details.reasoning_tokens"
      else reasoning in
    {| InputTokens := Int inputNode;
       OutputTokens := Int outputNode;
       ReasoningTokens := if Exists reasoning then Int reasoning else 0;
       CachedTokens := if Exists cached then Int cached else 0;
       TotalTokens := Int (rGet usageNode "total_tokens") |}.

(** The body the two Claude parsers share, from the usage node on. *)
Definition claudeDetail (usageNode : Result) : Detail :=
  let input := Int (rGet usageNode "input_tokens") in
  let output := Int (rGet usageNode "output_tokens") in
  let cached := Int (rGet usageNode "cache_read_input_tokens") in
  let cached :=
    if cached =? 0 then Int (rGet usageNode "cache_creation_input_tokens")
    else cached in
  {| InputTokens := input;
     OutputTokens := output;
     ReasoningTokens := 0;
     CachedTokens := cached;
     TotalTokens := Int64.add input output |}.

Definition parseClaudeUsage (data : string) : Detail :=
  let usageNode := rGet (ParseBytes data) "usage" in
  if negb (Exists usageNode) then zero
  else claudeDetail usageNode.

Definition parseClaudeStreamUsage (line : string) : Detail * bool :=
  let payload := jsonPayload line in
  if is_empty payload || negb (ValidBytes payload) then (zero, false)
  else
    let usageNode := GetBytes payload "usage" in
    if negb (Exists usageNode) then (zero, false)
    else (claudeDetail usageNode, true).

(** [usageNode.Get(path)] read as a count when it is there, else zero: the
    fields a parser sets only under [if node.Exists()]. *)
Definition countIfExists (node : Result) : Z :=
  if Exists node then Int node else 0.

Definition parseCodexUsage (data : string) : Detail * bool :=
  let usageNode := rGet (ParseBytes data) "response.usage" in
  if negb (Exists usageNode) then (zero, false)
  else
    ({| InputTokens := Int (rGet usageNode "input_tokens");
        OutputTokens := Int (rGet usageNode "output_tokens");
        ReasoningTokens :=
          countIfExists (rGet usageNode "output_tokens_details.reasoning_tokens");
        CachedTokens :=
          countIfExists (rGet usageNode "input_tokens_details.cached_tokens");
        TotalTokens := Int (rGet usageNode "total_tokens") |}, true).

Definition parseOpenAIStreamUsage (line : string) : Detail * bool :=
  let payload := jsonPayload line in
  if is_empty payload || negb (ValidBytes payload) then (zero, false)
  else
    let usageNode := GetBytes payload "usage" in
    if negb (Exists usageNode) then (zero, false)
    else
      ({| InputTokens := Int (rGet usageNode "prompt_tokens");
          OutputTokens := Int (rGet usageNode "completion_tokens");
          ReasoningTokens :=
            countIfExists
              (rGet usageNode "completion_tokens_details.reasoning_tokens");
          CachedTokens :=
            countIfExists (rGet usageNode "prompt_tokens_details.cached_tokens");
          TotalTokens := Int (rGet usageNode "total_tokens") |}, true).

Definition parseGeminiFamilyUsageDetail (node : Result) : Detail :=
  let detail :=
    {| InputTokens := Int (rGet node "promptTokenCount");
       OutputTokens := Int (rGet node "candidatesTokenCount");
       ReasoningTokens := Int (rGet node "thoughtsTokenCount");
       CachedTokens := Int (rGet node "cachedContentTokenCount");
       TotalTokens := Int (rGet node "totalTokenCount") |} in
  if TotalTokens detail =? 0 then
    set_TotalTokens detail
      (Int64.add (Int64.add (InputTokens detail) (OutputTokens detail))
                 (ReasoningTokens detail))
  else detail.

(** [node = a; if !node.Exists() { node = b }] *)
Definition orElse (a b : Result) : Result :=
  if negb (Exists a) then b else a.

Definition parseGeminiCLIUsage (data : string) : Detail :=
  let usageNode := ParseBytes data in
  let node :=
    orElse (rGet usageNode "response.usageMetadata")
           (rGet usageNode "response.usage_metadata") in
  if negb (Exists node) then zero else parseGeminiFamilyUsageDetail node.

Definition parseGeminiUsage (data : string) : Detail :=
  let usageNode := ParseBytes data in
  let node :=
    orElse (rGet usageNode "usageMetadata") (rGet usageNode "usage_metadata") in
  if negb (Exists node) then zero else parseGeminiFamilyUsageDetail node.

Definition parseGeminiStreamUsage (line : string) : Detail * bool :=
  let payload := jsonPayload line in
  if is_empty payload || negb (ValidBytes payload) then (zero, false)
  else
    let node :=
      orElse (GetBytes payload "usageMetadata")
             (GetBytes payload "usage_metadata") in
    if negb (Exists node) then (zero, false)
    else (parseGeminiFamilyUsageDetail node, true).

Definition parseGeminiCLIStreamUsage (line : string) : Detail * bool :=
  let payload := jsonPayload line in
  if is_empty payload || negb (ValidBytes payload) then (zero, false)
  else
    let node :=
      orElse (GetBytes payload "response.usageMetadata")
             (GetBytes payload "usage_metadata") in
    if negb (Exists node) then (zero, false)
    else (parseGeminiFamilyUsageDetail node, true).

Definition parseAntigravityUsage (data : string) : Detail :=
  let usageNode := ParseBytes data in
  let node :=
    orElse (orElse (rGet usageNode "response.usageMetadata")
                   (rGet usageNode "usageMetadata"))
           (rGet usageNode "usage_metadata") in
  if negb (Exists node) then zero else parseGeminiFamilyUsageDetail node.

Definition parseAntigravityStreamUsage (line : string) : Detail * bool :=
  let payload := jsonPayload line in
  if is_empty payload || negb (ValidBytes payload) then (zero, false)
  else
    let node :=
      orElse (orElse (GetBytes payload "response.usageMetadata")
                     (GetBytes payload "usageMetadata"))
             (GetBytes payload "usage_metadata") in
    if negb (Exists node) then (zero, false)
    else (parseGeminiFamilyUsageDetail node, true).

(** [trackFailure]: [errPtr] is nil ([None]), or points to an error that
    is nil ([Some None]) or not. *)
Definition trackFailure (r : option usageReporter) (ctx : option Ctx)
    (errPtr : option (option string)) (w : World)
    : option usageReporter * World :=
  match r, errPtr with
  | Some _, Some (Some _) => publishFailure r ctx w
  | _, _ => (r, w)
  end.

(** *** The streaming usage filter *)

(** [stopChunkWithoutUsage]: the correlation memory, a set of trace ids.
    The timer that [rememberStopWithoutUsage] starts removes the id ten
    minutes later ([expireStopWithoutUsage]); no timer is modelled as firing
    while one call of the filter runs. *)
Definition rememberStopWithoutUsage (mem : gset string) (traceID : string)
    : gset string :=
  {[traceID]} ∪ mem.

Definition expireStopWithoutUsage (mem : gset string) (traceID : string)
    : gset string :=
  mem ∖ {[traceID]}.

Definition hasUsageMetadata (jsonBytes : string) : bool :=
  if is_empty jsonBytes || negb (ValidBytes jsonBytes) then false
  else if Exists (GetBytes jsonBytes "usageMetadata") then true
  else if Exists (GetBytes jsonBytes "response.usageMetadata") then true
  else false.

Definition isStopChunkWithoutUsage (jsonBytes : string) : bool :=
  if is_empty jsonBytes || negb (ValidBytes jsonBytes) then false
  else
    let finishReason := GetBytes jsonBytes "candidates.0.finishReason" in
    let finishReason :=
      if negb (Exists finishReason)
      then GetBytes jsonBytes "response.candidates.0.finishReason"
      else finishReason in
    let trimmed := TrimSpace (String_ finishReason) in
    if negb (Exists finishReason) || is_empty trimmed then false
    else negb (hasUsageMetadata jsonBytes).

(** [terminalReason] of [StripUsageMetadataFromJSON]. *)
Definition terminalReason (jsonBytes : string) : bool :=
  let finishReason := GetBytes jsonBytes "candidates.0.finishReason" in
  let finishReason :=
    if negb (Exists finishReason)
    then GetBytes jsonBytes "response.candidates.0.finishReason"
    else finishReason in
  Exists finishReason && negb (is_empty (TrimSpace (String_ finishReason))).

(** The two renames at the end of [StripUsageMetadataFromJSON], on the
    parsed document ([cleaned]); [changed] comes with it. *)
Definition renameUsage (doc : json) : json * bool :=
  let '(cleaned, changed) :=
    match Get doc "usageMetadata" with
    | Some usageMetadata =>
        (sjson.Delete (sjson.SetRaw doc "cpaUsageMetadata" usageMetadata)
                      "usageMetadata", true)
    | None => (doc, false)
    end in
  match Get cleaned "response.usageMetadata" with
  | Some usageMetadata =>
      (sjson.Delete
         (sjson.SetRaw cleaned "response.cpaUsageMetadata" usageMetadata)
         "response.usageMetadata", true)
  | None => (cleaned, changed)
  end.

Definition StripUsageMetadataFromJSON (rawJSON : string) : string * bool :=
  let jsonBytes := TrimSpace rawJSON in
  if is_empty jsonBytes || negb (ValidBytes jsonBytes) then (rawJSON, false)
  else
    let usageMetadata := GetBytes jsonBytes "usageMetadata" in
    let usageMetadata :=
      if negb (Exists usageMetadata)
      then GetBytes jsonBytes "response.usageMetadata"
      else usageMetadata in
    if terminalReason jsonBytes then (rawJSON, false)
    else if negb (Exists usageMetadata) then (rawJSON, false)
    else
      match parse jsonBytes with
      | Some doc =>
          let '(cleaned, changed) := renameUsage doc in
          (render cleaned, changed)
      | None => (rawJSON, false)
      end.

(** One turn of the loop of [FilterSSEUsageMetadata]: the memory and the
    line as the turn leaves them, and what the turn does to the two flags. *)
Record lineStep : Type := {
  memory : gset string;
  output : string;
  modified : bool;
  foundData : bool
}.

(** The turn on a data line, from the JSON after [data:] on. *)
Definition filterData (mem : gset string) (line : string) (dataIdx : nat)
    (rawJSON : string) : lineStep :=
  let traceID := String_ (GetBytes rawJSON "traceId") in
  if isStopChunkWithoutUsage rawJSON && negb (is_empty traceID) then
    {| memory := rememberStopWithoutUsage mem traceID; output := line;
       modified := false; foundData := true |}
  else if negb (is_empty traceID) && bool_decide (traceID ∈ mem)
          && hasUsageMetadata rawJSON then
    {| memory := mem ∖ {[traceID]}; output := line;
       modified := false; foundData := true |}
  else
    let '(cleaned, changed) := StripUsageMetadataFromJSON rawJSON in
    if negb changed then
      {| memory := mem; output := line; modified := false; foundData := true |}
    else
      let rebuilt :=
        take dataIdx line +:+ "data:" +:+
        (if is_empty cleaned then EmptyString else " " +:+ cleaned) in
      {| memory := mem; output := rebuilt; modified := true;
         foundData := true |}.

Definition filterLine (mem : gset string) (line : string) : lineStep :=
  let trimmed := TrimSpace line in
  if is_empty trimmed || negb (HasPrefix trimmed "data:") then
    {| memory := mem; output := line; modified := false; foundData := false |}
  else
    match Index line "data:" with
    | None =>
        {| memory := mem; output := line; modified := false; foundData := true |}
    | Some dataIdx =>
        filterData mem line dataIdx (TrimSpace (drop (dataIdx + 5) line))
    end.

(** What the loop takes from a data line: where [data:] starts, and the
    JSON after it. *)
Definition dataJSON (line : string) : option (nat * string) :=
  let trimmed := TrimSpace line in
  if is_empty trimmed || negb (HasPrefix trimmed "data:") then None
  else
    dataIdx ← Index line "data:";
    Some (dataIdx, TrimSpace (drop (dataIdx + 5) line)).

(** The trace id the loop reads from a chunk. *)
Definition traceIDOf (rawJSON : string) : string :=
  String_ (GetBytes rawJSON "traceId").

(** The loop over the lines, first to last. *)
Fixpoint filterLines (mem : gset string) (lines : list string)
    : gset string * list string * bool * bool :=
  match lines with
  | [] => (mem, [], false, false)
  | line :: rest =>
      let step := filterLine mem line in
      let '(mem', rest', modified', foundData') :=
        filterLines (memory step) rest in
      (mem', output step :: rest',
       modified step || modified', foundData step || foundData')
  end.

(** [FilterSSEUsageMetadata], with the correlation memory it reads and
    writes passed in and out. *)
Definition FilterSSEUsageMetadata (mem : gset string) (payload : string)
    : gset string * string :=
  if is_empty payload then (mem, payload)
  else
    let '(mem', lines, modified, foundData) := filterLines mem (Split payload) in
    if negb modified then
      if negb foundData then
        let trimmed := TrimSpace payload in
        let '(cleaned, changed) := StripUsageMetadataFromJSON trimmed in
        if negb changed then (mem', payload) else (mem', cleaned)
      else (mem', payload)
    else (mem', Join lines).

(** Two states of a reporter that agree on whom the request belongs to
    and on the latch. *)
Definition sameIdentity (a b : usageReporter) : Prop :=
  provider a = provider b /\ model a = model b /\ authID a = authID b /\
  authIndex a = authIndex b /\ apiKey a = apiKey b /\ source a = source b /\
  requestedAt a = requestedAt b /\ once a = once b.

(** What the loop of [FilterSSEUsageMetadata] may leave in the place of a
    line: the line, or, for a data line whose JSON
    [StripUsageMetadataFromJSON] changes, what came before [data:], then
    [data: ] and the JSON as changed. *)
Definition filtered (line out : string) : Prop :=
  out = line \/
  exists dataIdx rawJSON cleaned,
    dataJSON line = Some (dataIdx, rawJSON) /\
    StripUsageMetadataFromJSON rawJSON = (cleaned, true) /\
    out = take dataIdx line +:+ "data: " +:+ cleaned.

End Executor.

(** *** The wire shapes the parsers read *)

(** The usage objects of the wire shapes, with given values for the
    counts. *)
Definition chatUsage (i o t c r : json) : json :=
  JObject [("prompt_tokens", i); ("completion_tokens", o); ("total_tokens", t);
           ("prompt_tokens_details", JObject [("cached_tokens", c)]);
           ("completion_tokens_details", JObject [("reasoning_tokens", r)])].

Definition responsesUsage (i o t c r : json) : json :=
  JObject [("input_tokens", i); ("output_tokens", o); ("total_tokens", t);
           ("input_tokens_details", JObject [("cached_tokens", c)]);
           ("output_tokens_details", JObject [("reasoning_tokens", r)])].

Definition geminiUsage (i o t c r : json) : json :=
  JObject [("promptTokenCount", i); ("candidatesTokenCount", o);
           ("thoughtsTokenCount", r); ("cachedContentTokenCount", c);
           ("totalTokenCount", t)].

Definition claudeUsage (i o c : json) : json :=
  JObject [("input_tokens", i); ("output_tokens", o);
           ("cache_read_input_tokens", c)].

(** A count as JSON prints it. *)
Definition numberOf (z : Z) : json := JNumber (pretty z).

Definition usageOf (shape : json -> json -> json -> json -> json -> json)
    (d : Detail) : json :=
  shape (numberOf (InputTokens d)) (numberOf (OutputTokens d)) (numberOf (TotalTokens d))
        (numberOf (CachedTokens d)) (numberOf (ReasoningTokens d)).

(** The documents: an answer of Chat Completions, of the Responses API, a
    [response.completed] event of Codex, and the answers of Gemini, of the
    Gemini CLI and of Claude. *)
Definition chatDoc (d : Detail) : json :=
  JObject [("id", JString "chatcmpl-1"); ("usage", usageOf chatUsage d)].
Definition responsesDoc (d : Detail) : json :=
  JObject [("id", JString "resp_1"); ("usage", usageOf responsesUsage d)].
Definition codexDoc (d : Detail) : json :=
  JObject [("type", JString "response.completed");
           ("response", JObject [("usage", usageOf responsesUsage d)])].
Definition geminiDoc (d : Detail) : json :=
  JObject [("candidates", JArray []); ("usageMetadata", usageOf geminiUsage d)].
Definition geminiCLIDoc (d : Detail) : json :=
  JObject [("response", JObject [("usageMetadata", usageOf geminiUsage d)])].
Definition claudeDoc (d : Detail) : json :=
  JObject [("type", JString "message");
           ("usage", claudeUsage (numberOf (InputTokens d)) (numberOf (OutputTokens d))
                                 (numberOf (CachedTokens d)))].

(** A detail whose counts are int64 values. *)
Definition InRange (d : Detail) : Prop :=
  Int64.in_range (InputTokens d) /\ Int64.in_range (OutputTokens d) /\
  Int64.in_range (ReasoningTokens d) /\ Int64.in_range (CachedTokens d) /\
  Int64.in_range (TotalTokens d).

End executor.

(** ** internal/usage: the statistics aggregator *)

Module statistics.

Import Bytes.

(** [TokenStats] *)
Record TokenStats : Type := {
  InputTokens : Z;
  OutputTokens : Z;
  ReasoningTokens : Z;
  CachedTokens : Z;
  TotalTokens : Z
}.

Definition set_TotalTokens (t : TokenStats) (total : Z) : TokenStats :=
  {| InputTokens := InputTokens t; OutputTokens := OutputTokens t;
     ReasoningTokens := ReasoningTokens t; CachedTokens := CachedTokens t;
     TotalTokens := total |}.

Definition normaliseDetail (detail : coreusage.Detail) : TokenStats :=
  let tokens :=
    {| InputTokens := coreusage.InputTokens detail;
       OutputTokens := coreusage.OutputTokens detail;
       ReasoningTokens := coreusage.ReasoningTokens detail;
       CachedTokens := coreusage.CachedTokens detail;
       TotalTokens := coreusage.TotalTokens detail |} in
  let tokens :=
    if TotalTokens tokens =? 0 then
      set_TotalTokens tokens
        (Int64.add (Int64.add (coreusage.InputTokens detail)
                              (coreusage.OutputTokens detail))
                   (coreusage.ReasoningTokens detail))
    else tokens in
  if TotalTokens tokens =? 0 then
    set_TotalTokens tokens
      (Int64.add (Int64.add (Int64.add (coreusage.InputTokens detail)
                                       (coreusage.OutputTokens detail))
                            (coreusage.ReasoningTokens detail))
                 (coreusage.CachedTokens detail))
  else tokens.


Definition normaliseTokenStats (tokens : TokenStats) : TokenStats :=
  let tokens :=
    if TotalTokens tokens =? 0 then
      set_TotalTokens tokens
        (Int64.add (Int64.add (InputTokens tokens) (OutputTokens tokens))
                   (ReasoningTokens tokens))
    else tokens in
  if TotalTokens tokens =? 0 then
    set_TotalTokens tokens
      (Int64.add (Int64.add (Int64.add (InputTokens tokens) (OutputTokens tokens))
                            (ReasoningTokens tokens))
                 (CachedTokens tokens))
  else tokens.

Section Statistics.
Context `{T : TimeOps}.

(** [RequestDetail] *)
Record RequestDetail : Type := {
  Timestamp : Time;
  Source : string;
  AuthIndex : string;
  Tokens : TokenStats;
  Failed : bool
}.

Definition set_Tokens (d : RequestDetail) (t : TokenStats) : RequestDetail :=
  {| Timestamp := Timestamp d; Source := Source d; AuthIndex := AuthIndex d;
     Tokens := t; Failed := Failed d |}.

Definition set_Timestamp (d : RequestDetail) (t : Time) : RequestDetail :=
  {| Timestamp := t; Source := Source d; AuthIndex := AuthIndex d;
     Tokens := Tokens d; Failed := Failed d |}.

(** [modelStats] *)
Record modelStats : Type := {
  mTotalRequests : Z;
  mTotalTokens : Z;
  mDetails : list RequestDetail
}.

(** [apiStats]; the map holds the model rollups themselves, the pointers of
    the source never being nil in a store built by its own methods. *)
Record apiStats : Type := {
  aTotalRequests : Z;
  aTotalTokens : Z;
  aModels : gmap string modelStats
}.

(** [RequestStatistics], without its lock. *)
Record RequestStatistics : Type := {
  totalRequests : Z;
  successCount : Z;
  failureCount : Z;
  totalTokens : Z;
  apis : gmap string apiStats;
  requestsByDay : gmap string Z;
  requestsByHour : gmap Z Z;
  tokensByDay : gmap string Z;
  tokensByHour : gmap Z Z
}.

(** [NewRequestStatistics] *)
Definition NewRequestStatistics : RequestStatistics :=
  {| totalRequests := 0; successCount := 0; failureCount := 0; totalTokens := 0;
     apis := ∅; requestsByDay := ∅; requestsByHour := ∅;
     tokensByDay := ∅; tokensByHour := ∅ |}.

(** [ModelSnapshot], [APISnapshot] and [StatisticsSnapshot].  A map that
    the code ranges over is the list of its entries in the order the range
    visits them, which Go leaves open. *)
Record ModelSnapshot : Type := {
  msTotalRequests : Z;
  msTotalTokens : Z;
  Details : list RequestDetail
}.

Record APISnapshot : Type := {
  asTotalRequests : Z;
  asTotalTokens : Z;
  Models : list (string * ModelSnapshot)
}.

Record StatisticsSnapshot : Type := {
  snTotalRequests : Z;
  snSuccessCount : Z;
  snFailureCount : Z;
  snTotalTokens : Z;
  APIs : list (string * APISnapshot);
  RequestsByDay : gmap string Z;
  RequestsByHour : gmap string Z;
  TokensByDay : gmap string Z;
  TokensByHour : gmap string Z
}.

(** [MergeResult] *)
Record MergeResult : Type := {
  Added : Z;
  Skipped : Z
}.

(** [%t] and [%d] of [fmt.Sprintf]. *)
Definition fmt_bool (b : bool) : string := if b then "true" else "false".
Definition fmt_int (z : Z) : string := pretty z.

Definition dedupKey (apiName modelName : string) (detail : RequestDetail)
    : string :=
  let timestamp := formatUTC (Timestamp detail) in
  let tokens := normaliseTokenStats (Tokens detail) in
  apiName +:+ "|" +:+ modelName +:+ "|" +:+ timestamp +:+ "|" +:+
  Source detail +:+ "|" +:+ AuthIndex detail +:+ "|" +:+
  fmt_bool (Failed detail) +:+ "|" +:+
  fmt_int (InputTokens tokens) +:+ "|" +:+
  fmt_int (OutputTokens tokens) +:+ "|" +:+
  fmt_int (ReasoningTokens tokens) +:+ "|" +:+
  fmt_int (CachedTokens tokens) +:+ "|" +:+
  fmt_int (TotalTokens tokens).

(** [m[k]++] and [m[k] += n] on a map of counters. *)
Definition bump `{Countable K} (k : K) (n : Z) (m : gmap K Z) : gmap K Z :=
  <[k := Int64.add (default 0 (m !! k)) n]> m.

Definition updateAPIStats (stats : apiStats) (model : string)
    (detail : RequestDetail) : apiStats :=
  let modelStatsValue :=
    default {| mTotalRequests := 0; mTotalTokens := 0; mDetails := [] |}
            (aModels stats !! model) in
  let modelStatsValue :=
    {| mTotalRequests := Int64.incr (mTotalRequests modelStatsValue);
       mTotalTokens :=
         Int64.add (mTotalTokens modelStatsValue) (TotalTokens (Tokens detail));
       mDetails := mDetails modelStatsValue ++ [detail] |} in
  {| aTotalRequests := Int64.incr (aTotalRequests stats);
     aTotalTokens := Int64.add (aTotalTokens stats) (TotalTokens (Tokens detail));
     aModels := <[model := modelStatsValue]> (aModels stats) |}.

(** [apiStats{Models: make(map[string]*modelStats)}] *)
Definition newAPIStats : apiStats :=
  {| aTotalRequests := 0; aTotalTokens := 0; aModels := ∅ |}.

(** [recordImported].  Its [stats] argument points to the entry of
    [s.apis] under [apiName]; the update is written back there. *)
Definition recordImported (s : RequestStatistics) (apiName modelName : string)
    (detail : RequestDetail) : RequestStatistics :=
  let totalTokens_ := TotalTokens (Tokens detail) in
  let totalTokens_ := if totalTokens_ <? 0 then 0 else totalTokens_ in
  let stats := default newAPIStats (apis s !! apiName) in
  let dayKey := formatDay (Timestamp detail) in
  let hourKey := Hour (Timestamp detail) in
  {| totalRequests := Int64.incr (totalRequests s);
     successCount :=
       if Failed detail then successCount s else Int64.incr (successCount s);
     failureCount :=
       if Failed detail then Int64.incr (failureCount s) else failureCount s;
     totalTokens := Int64.add (totalTokens s) totalTokens_;
     apis := <[apiName := updateAPIStats stats modelName detail]> (apis s);
     requestsByDay := bump dayKey 1 (requestsByDay s);
     requestsByHour := bump hourKey 1 (requestsByHour s);
     tokensByDay := bump dayKey totalTokens_ (tokensByDay s);
     tokensByHour := bump hourKey totalTokens_ (tokensByHour s) |}.

(** The keys of the rows a store holds: the first loop of [MergeSnapshot],
    which fills [seen]. *)
Definition storeKeys (s : RequestStatistics) : gset string :=
  list_to_set
    ('(apiName, stats) ← map_to_list (apis s);
     '(modelName, modelStatsValue) ← map_to_list (aModels stats);
     dedupKey apiName modelName <$> mDetails modelStatsValue).

(** The state of the second loop of [MergeSnapshot]; [ticks] counts the
    readings of the clock taken so far. *)
Record mergeState : Type := {
  store : RequestStatistics;
  seen : gset string;
  result : MergeResult;
  ticks : nat
}.

Section Merge.
(** [now n] is what the [n]-th call of [time.Now] returns. *)
Variable now : nat -> Time.

(** The body of the loop over the details of a model. *)
Definition mergeDetail (apiName modelName : string) (st : mergeState)
    (detail : RequestDetail) : mergeState :=
  let detail := set_Tokens detail (normaliseTokenStats (Tokens detail)) in
  let '(detail, ticks') :=
    if IsZero (Timestamp detail)
    then (set_Timestamp detail (now (ticks st)), S (ticks st))
    else (detail, ticks st) in
  let key := dedupKey apiName modelName detail in
  if bool_decide (key ∈ seen st) then
    {| store := store st; seen := seen st;
       result := {| Added := Added (result st);
                    Skipped := Int64.incr (Skipped (result st)) |};
       ticks := ticks' |}
  else
    {| store := recordImported (store st) apiName modelName detail;
       seen := {[key]} ∪ seen st;
       result := {| Added := Int64.incr (Added (result st));
                    Skipped := Skipped (result st) |};
       ticks := ticks' |}.

(** The body of the loop over the models of an API. *)
Definition mergeModel (apiName : string) (st : mergeState)
    (entry : string * ModelSnapshot) : mergeState :=
  let modelName := TrimSpace entry.1 in
  let modelName :=
    if bool_decide (modelName = EmptyString) then "unknown" else modelName in
  foldl (mergeDetail apiName modelName) st (Details entry.2).

(** The body of the loop over the APIs of the snapshot. *)
Definition mergeAPI (st : mergeState) (entry : string * APISnapshot)
    : mergeState :=
  let apiName := TrimSpace entry.1 in
  if bool_decide (apiName = EmptyString) then st
  else
    let s := store st in
    let s :=
      match apis s !! apiName with
      | Some _ => s
      | None =>
          {| totalRequests := totalRequests s; successCount := successCount s;
             failureCount := failureCount s; totalTokens := totalTokens s;
             apis := <[apiName := newAPIStats]> (apis s);
             requestsByDay := requestsByDay s;
             requestsByHour := requestsByHour s;
             tokensByDay := tokensByDay s; tokensByHour := tokensByHour s |}
      end in
    foldl (mergeModel apiName)
          {| store := s; seen := seen st; result := result st;
             ticks := ticks st |}
          (Models entry.2).

(** [MergeSnapshot] on a store (a nil receiver returns the empty result
    at once): the store as the merge leaves it, and the result. *)
Definition MergeSnapshot (s : RequestStatistics) (snapshot : StatisticsSnapshot)
    : RequestStatistics * MergeResult :=
  let st :=
    foldl mergeAPI
          {| store := s; seen := storeKeys s;
             result := {| Added := 0; Skipped := 0 |}; ticks := O |}
          (APIs snapshot) in
  (store st, result st).

End Merge.

(** *** Recording, snapshots and the request log *)

(** [coreusage.Record] as the aggregator reads it: the fields
    [publishWithOutcome] sets ([base]) and the request fields, which a
    record built by the reporter leaves at their zero values
    ([ofReporter]). *)
Record UsageRecord : Type := {
  base : coreusage.Record_;
  Method : string;
  Path : string;
  ClientIP : string;
  StatusCode : Z;
  LatencyMs : Z
}.

Definition ofReporter (r : coreusage.Record_) : UsageRecord :=
  {| base := r; Method := EmptyString; Path := EmptyString;
     ClientIP := EmptyString; StatusCode := 0; LatencyMs := 0 |}.

(** The name [Record] files a record under: the API key, else method and
    path, else the provider, else [unknown]. *)
Definition statsKeyOf (record : UsageRecord) : string :=
  let statsKey := coreusage.APIKey (base record) in
  if bool_decide (statsKey = EmptyString) then
    if bool_decide (Method record <> EmptyString)
       && bool_decide (Path record <> EmptyString)
    then Method record +:+ " " +:+ Path record
    else if bool_decide (coreusage.Provider (base record) <> EmptyString)
    then coreusage.Provider (base record)
    else "unknown"
  else statsKey.

Definition modelNameOf (record : UsageRecord) : string :=
  let modelName := coreusage.Model (base record) in
  if bool_decide (modelName = EmptyString) then "unknown" else modelName.

(** The detail [Record] stores; [now] is the reading of the clock it takes
    when the record has no time. *)
Definition detailOf (now : Time) (record : UsageRecord) : RequestDetail :=
  let timestamp := coreusage.RequestedAt (base record) in
  let timestamp := if IsZero timestamp then now else timestamp in
  {| Timestamp := timestamp;
     Source := coreusage.Source (base record);
     AuthIndex := coreusage.AuthIndex (base record);
     Tokens := normaliseDetail (coreusage.Detail_ (base record));
     Failed := coreusage.Failed (base record) |}.

(** [Record]; [enabled] is what [statisticsEnabled] holds, and a nil
    receiver is [None]. *)
Definition Record (s : option RequestStatistics) (enabled : bool) (now : Time)
    (record : UsageRecord) : option RequestStatistics :=
  match s with
  | None => None
  | Some st =>
      if negb enabled then Some st
      else
        let detail := detailOf now record in
        let totalTokens_ := TotalTokens (Tokens detail) in
        let statsKey := statsKeyOf record in
        let failed := coreusage.Failed (base record) in
        let modelName := modelNameOf record in
        let dayKey := formatDay (Timestamp detail) in
        let hourKey := Hour (Timestamp detail) in
        let stats := default newAPIStats (apis st !! statsKey) in
        Some
          {| totalRequests := Int64.incr (totalRequests st);
             successCount :=
               if failed then successCount st else Int64.incr (successCount st);
             failureCount :=
               if failed then Int64.incr (failureCount st) else failureCount st;
             totalTokens := Int64.add (totalTokens st) totalTokens_;
             apis := <[statsKey := updateAPIStats stats modelName detail]> (apis st);
             requestsByDay := bump dayKey 1 (requestsByDay st);
             requestsByHour := bump hourKey 1 (requestsByHour st);
             tokensByDay := bump dayKey totalTokens_ (tokensByDay st);
             tokensByHour := bump hourKey totalTokens_ (tokensByHour st) |}
  end.

(** [%02d] *)
Definition fmt_02d (z : Z) : string :=
  let digits := pretty z in
  if (String.length digits <? 2)%nat then "0" +:+ digits else digits.

(** [formatHour]; Go's [%] truncates, as [Z.rem] does. *)
Definition formatHour (hour : Z) : string :=
  let hour := if hour <? 0 then 0 else hour in
  let hour := Z.rem hour 24 in
  fmt_02d hour.

(** [copyMap]: the entries written one by one into a new map. *)
Definition copyMap (m : gmap string Z) : gmap string Z :=
  map_fold (fun k v out => <[k := v]> out) ∅ m.

(** [formatHourMap] on the entries of its argument in the order the range
    visits them, which Go leaves open. *)
Definition formatHourMap (visited : list (Z * Z)) : gmap string Z :=
  foldl (fun out e => <[formatHour e.1 := e.2]> out) ∅ visited.

(** [StatisticsSnapshot{}] *)
Definition emptySnapshot : StatisticsSnapshot :=
  {| snTotalRequests := 0; snSuccessCount := 0; snFailureCount := 0;
     snTotalTokens := 0; APIs := [];
     RequestsByDay := ∅; RequestsByHour := ∅;
     TokensByDay := ∅; TokensByHour := ∅ |}.

Definition snapshotModel (ms : modelStats) : ModelSnapshot :=
  {| msTotalRequests := mTotalRequests ms; msTotalTokens := mTotalTokens ms;
     Details := mDetails ms |}.

Definition snapshotAPI (stats : apiStats) : APISnapshot :=
  {| asTotalRequests := aTotalRequests stats;
     asTotalTokens := aTotalTokens stats;
     Models := prod_map id snapshotModel <$> map_to_list (aModels stats) |}.

(** The branch of [Snapshot] that reads the store.  The maps it builds are
    given as the lists of their entries, one entry a key, in the order of
    [map_to_list]; Go leaves the order open in which a later range visits
    them. *)
Definition snapshotOfStore (s : RequestStatistics) : StatisticsSnapshot :=
  {| snTotalRequests := totalRequests s;
     snSuccessCount := successCount s;
     snFailureCount := failureCount s;
     snTotalTokens := totalTokens s;
     APIs := prod_map id snapshotAPI <$> map_to_list (apis s);
     RequestsByDay := copyMap (requestsByDay s);
     RequestsByHour := formatHourMap (map_to_list (requestsByHour s));
     TokensByDay := copyMap (tokensByDay s);
     TokensByHour := formatHourMap (map_to_list (tokensByHour s)) |}.

Section Snapshot.
(** The database handle, when there is one, and [snapshotFromDB], which
    aggregates from its tables. *)
Variable DBHandle : Type.
Variable snapshotFromDB : DBHandle -> StatisticsSnapshot.

Definition Snapshot (DB : option DBHandle) (s : option RequestStatistics)
    : StatisticsSnapshot :=
  match DB with
  | Some db => snapshotFromDB db
  | None =>
      match s with
      | None => emptySnapshot
      | Some st => snapshotOfStore st
      end
  end.

End Snapshot.

(** [database.RequestLog] *)
Record RequestLog : Type := {
  ID : Z;
  RequestID : string;
  lTimestamp : Time;
  lMethod : string;
  lPath : string;
  lStatusCode : Z;
  lLatencyMs : Z;
  lClientIP : string;
  lModel : string;
  lProvider : string;
  lInputTokens : Z;
  lOutputTokens : Z;
  lTotalTokens : Z;
  IsError : bool;
  ErrorMessage : string;
  lAuthIndex : string
}.

Section Logging.
(** [t.UnixNano()], and the first eight bytes of the SHA-256 of a string
    in hexadecimal. *)
Variable UnixNano : Time -> Z.
Variable hashPrefix : string -> string.

(** The row [logToDatabase] builds. *)
Definition requestLogOf (now : Time) (record : UsageRecord) : RequestLog :=
  let detail := normaliseDetail (coreusage.Detail_ (base record)) in
  let timestamp := coreusage.RequestedAt (base record) in
  let timestamp := if IsZero timestamp then now else timestamp in
  let failed := coreusage.Failed (base record) in
  let errStr := if failed then "Request failed" else EmptyString in
  let identifier := coreusage.APIKey (base record) in
  let identifier :=
    if bool_decide (identifier = EmptyString)
    then coreusage.AuthIndex (base record) else identifier in
  let identifier :=
    if bool_decide (identifier = EmptyString)
    then ClientIP record else identifier in
  let requestID := fmt_int (UnixNano timestamp) +:+ "-" +:+ hashPrefix identifier in
  {| ID := 0; RequestID := requestID; lTimestamp := timestamp;
     lMethod := Method record; lPath := Path record;
     lStatusCode := StatusCode record; lLatencyMs := LatencyMs record;
     lClientIP := ClientIP record;
     lModel := coreusage.Model (base record);
     lProvider := coreusage.Provider (base record);
     lInputTokens := InputTokens detail;
     lOutputTokens := OutputTokens detail;
     lTotalTokens := TotalTokens detail;
     IsError := failed; ErrorMessage := errStr;
     lAuthIndex := coreusage.AuthIndex (base record) |}.

(** [logToDatabase]: the database is nil ([None]) or holds the rows handed
    to [Create] so far; an error of [Create] is dropped. *)
Definition logToDatabase (DB : option (list RequestLog)) (now : Time)
    (record : UsageRecord) : option (list RequestLog) :=
  match DB with
  | None => None
  | Some rows => Some (rows ++ [requestLogOf now record])
  end.

(** [HandleUsage]: the plugin is nil, or holds a store that may be nil;
    [now] and [now'] are the readings of the clock that [Record] and
    [logToDatabase] take. *)
Definition HandleUsage (p : option (option RequestStatistics))
    (statisticsEnabled requestLogEnabled : bool)
    (DB : option (list RequestLog)) (now now' : Time) (record : UsageRecord)
    : option (option RequestStatistics) * option (list RequestLog) :=
  if negb statisticsEnabled then (p, DB)
  else
    match p with
    | None | Some None => (p, DB)
    | Some (Some st) =>
        (Some (Record (Some st) statisticsEnabled now record),
         if requestLogEnabled then logToDatabase DB now' record else DB)
    end.

End Logging.

(** *** The merge, as the statements below speak of it *)

(** The rows a store holds for a model of an API. *)
Definition rows (s : RequestStatistics) (api model : string) : list RequestDetail :=
  match apis s !! api with
  | Some stats =>
      match aModels stats !! model with
      | Some ms => mDetails ms
      | None => []
      end
  | None => []
  end.

(** The model name a snapshot's model is filed under. *)
Definition modelKey (name : string) : string :=
  if bool_decide (TrimSpace name = EmptyString) then "unknown" else TrimSpace name.

(** A detail as [mergeDetail] keys and stores it when its timestamp is set. *)
Definition prepared (d : RequestDetail) : RequestDetail :=
  set_Tokens d (normaliseTokenStats (Tokens d)).

(** The details a merge looks at under one API of the snapshot, with the
    names they are filed under: none when the API name is blank. *)
Definition apiEntries (a : string * APISnapshot)
    : list (string * string * RequestDetail) :=
  if bool_decide (TrimSpace a.1 = EmptyString) then []
  else
    m ← Models a.2;
    (fun d => (TrimSpace a.1, modelKey m.1, d)) <$> Details m.2.

(** The details a merge looks at. *)
Definition entries (snap : StatisticsSnapshot)
    : list (string * string * RequestDetail) :=
  a ← APIs snap; apiEntries a.

(** The API names a merge files under. *)
Definition apiNames (snap : StatisticsSnapshot) : list string :=
  a ← APIs snap;
  if bool_decide (TrimSpace a.1 = EmptyString) then [] else [TrimSpace a.1].

(** All the details of a snapshot. *)
Definition allDetails (snap : StatisticsSnapshot) : list RequestDetail :=
  a ← APIs snap; m ← Models a.2; Details m.2.

(** The loop invariant of [MergeSnapshot]: [seen] holds the keys of the
    rows of the store. *)
Definition Inv (st : mergeState) : Prop := seen st = storeKeys (store st).

(** What a turn of the loop may do to [seen] and to the APIs of the store:
    add. *)
Definition grows (st st' : mergeState) : Prop :=
  seen st ⊆ seen st' /\
  forall a, is_Some (apis (store st) !! a) -> is_Some (apis (store st') !! a).

(** What the first merge establishes for a detail, for a model and for an
    API of the snapshot. *)
Definition detailDone (api model : string) (d : RequestDetail) (st : mergeState)
    : Prop :=
  IsZero (Timestamp d) = false -> dedupKey api model (prepared d) ∈ seen st.

Definition modelDone (api : string) (m : string * ModelSnapshot) (st : mergeState)
    : Prop :=
  Forall (fun d => detailDone api (modelKey m.1) d st) (Details m.2).

Definition apiDone (a : string * APISnapshot) (st : mergeState) : Prop :=
  TrimSpace a.1 <> EmptyString ->
  is_Some (apis (store st) !! TrimSpace a.1) /\
  Forall (fun m => modelDone (TrimSpace a.1) m st) (Models a.2).

(** The state after [n] details were skipped. *)
Definition skipped (n : nat) (st : mergeState) : mergeState :=
  {| store := store st; seen := seen st;
     result := {| Added := Added (result st);
                  Skipped := Nat.iter n Int64.incr (Skipped (result st)) |};
     ticks := ticks st |}.

(** *** Counters and rows, as the statements below speak of them *)

(** The sum of [f] over the values of a map. *)
Definition msum {V} (f : V -> Z) (m : gmap string V) : Z :=
  map_fold (fun _ v n => f v + n) 0 m.

(** The sum of a weight over rows; over the rows of all the models of an
    API; over all the rows of a store. *)
Definition sumOver (w : RequestDetail -> Z) (ds : list RequestDetail) : Z :=
  foldr (fun d n => w d + n) 0 ds.

Definition tally (w : RequestDetail -> Z) (models : gmap string modelStats) : Z :=
  msum (fun ms => sumOver w (mDetails ms)) models.

Definition storeTally (w : RequestDetail -> Z) (s : RequestStatistics) : Z :=
  msum (fun stats => tally w (aModels stats)) (apis s).

(** The weights: every row, the failed ones, the others, and the tokens of
    a row. *)
Definition each (_ : RequestDetail) : Z := 1.
Definition whenFailed (d : RequestDetail) : Z := if Failed d then 1 else 0.
Definition whenSucceeded (d : RequestDetail) : Z := if Failed d then 0 else 1.
Definition itsTokens (d : RequestDetail) : Z := TotalTokens (Tokens d).

(** A store whose counters count its rows. *)
Definition Counted (s : RequestStatistics) : Prop :=
  totalRequests s = Int64.wrap (storeTally each s) /\
  successCount s = Int64.wrap (storeTally whenSucceeded s) /\
  failureCount s = Int64.wrap (storeTally whenFailed s) /\
  forall api stats, apis s !! api = Some stats ->
    aTotalRequests stats = Int64.wrap (tally each (aModels stats)) /\
    aTotalTokens stats = Int64.wrap (tally itsTokens (aModels stats)) /\
    forall model ms, aModels stats !! model = Some ms ->
      mTotalRequests ms = Int64.wrap (Z.of_nat (length (mDetails ms))) /\
      mTotalTokens ms = Int64.wrap (sumOver itsTokens (mDetails ms)).

(** What a stretch of the merge that looked at [n] details has done. *)
Definition accounted (st0 st : mergeState) (n : nat) : Prop :=
  (forall api model,
     rows (store st0) api model `prefix_of` rows (store st) api model) /\
  (Counted (store st0) -> Counted (store st)) /\
  exists added skipped : nat,
    (added + skipped)%nat = n /\
    Added (result st) = Nat.iter added Int64.incr (Added (result st0)) /\
    Skipped (result st) = Nat.iter skipped Int64.incr (Skipped (result st0)) /\
    storeTally each (store st) = storeTally each (store st0) + Z.of_nat added /\
    totalRequests (store st)
    = Nat.iter added Int64.incr (totalRequests (store st0)).

(** A store that an export and import brings back: its names are trimmed
    and not blank, and its rows carry a time. *)
Definition Exportable (s : RequestStatistics) : Prop :=
  forall api stats, apis s !! api = Some stats ->
    TrimSpace api = api /\ api <> EmptyString /\
    forall model ms, aModels stats !! model = Some ms ->
      TrimSpace model = model /\ model <> EmptyString /\
      Forall (fun d => IsZero (Timestamp d) = false) (mDetails ms).

(** The dedup key of a detail a merge looks at, when its timestamp is set. *)
Definition entryKey (e : string * string * RequestDetail) : string :=
  dedupKey e.1.1 e.1.2 (prepared e.2).

(** The rows that the details filed under an API and a model make, in
    order. *)
Definition picked (api model : string)
    (es : list (string * string * RequestDetail)) : list RequestDetail :=
  (fun e => prepared e.2) <$> filter (fun e => e.1 = (api, model)) es.

(** What a stretch of the merge has done that added every detail it looked
    at. *)
Definition filed (st st' : mergeState)
    (es : list (string * string * RequestDetail)) : Prop :=
  seen st' = list_to_set (entryKey <$> es) ∪ seen st /\
  (forall api model,
     rows (store st') api model = rows (store st) api model ++ picked api model es) /\
  Added (result st') = Nat.iter (length es) Int64.incr (Added (result st)) /\
  Skipped (result st') = Skipped (result st).

(** Details that a merge adds, all of them: they carry a time, and their
    keys differ from each other and from the keys seen. *)
Definition unseen (es : list (string * string * RequestDetail))
    (keys : gset string) : Prop :=
  Forall (fun e => IsZero (Timestamp e.2) = false) es /\
  NoDup (entryKey <$> es) /\
  forall e, e ∈ es -> entryKey e ∉ keys.

(** Text with no bar in it; names and a detail whose text fields, and
    whose time as the key prints it, have none. *)
Fixpoint barFree (s : string) : bool :=
  match s with
  | EmptyString => true
  | String c r => negb (Ascii.eqb c "|") && barFree r
  end.

Definition plain (apiName modelName : string) (d : RequestDetail) : Prop :=
  barFree apiName = true /\ barFree modelName = true /\
  barFree (formatUTC (Timestamp d)) = true /\
  barFree (Source d) = true /\ barFree (AuthIndex d) = true.

End Statistics.

End statistics.

(** ** internal/database: database.go *)

Module database.

(** [Config] *)
Record Config : Type := {
  Driver : string;
  DSN : string;
  LogDir : string
}.

(** The dialector [Init] opens: [mysql.Open dsn] or [sqlite.Open path]. *)
Inductive Dialector : Type :=
| MySQL (dsn : string)
| SQLite (dbPath : string).

(** The package state and what [Init] does outside it: [DB], the [once]
    latch, the directories [os.MkdirAll] was asked for and the lines
    logged. *)
Record State : Type := {
  DB : option Dialector;
  once : bool;
  madeDirs : list string;
  logged : list string
}.

Definition initial : State :=
  {| DB := None; once := false; madeDirs := []; logged := [] |}.

Section Init.
(** [strings.ToLower] and [filepath.Join]; [gorm.Open] and [AutoMigrate],
    which give the error they fail with, if they fail; [os.MkdirAll]
    likewise. *)
Variable ToLower : string -> string.
Variable Join : string -> string -> string.
Variable gormOpen : Dialector -> option string.
Variable AutoMigrate : Dialector -> option string.
Variable MkdirAll : string -> option string.

(** The path logic the [sqlite] case and the [default] case share, but for
    the log line of the first: the path, the directory made and the line
    logged. *)
Definition sqlitePath (cfg : Config) (logMkdir : bool)
    : string * list string * list string :=
  if bool_decide (DSN cfg = EmptyString) then
    if bool_decide (LogDir cfg = EmptyString) then ("cliproxy.db", [], [])
    else
      (Join (LogDir cfg) "cliproxy.db", [LogDir cfg],
       match MkdirAll (LogDir cfg) with
       | Some e =>
           if logMkdir then ["Failed to create log directory: " +:+ e] else []
       | None => []
       end)
  else (DSN cfg, [], []).

(** The [switch] of [Init]. *)
Definition selectDialector (cfg : Config)
    : Dialector * list string * list string :=
  let driver := ToLower (Driver cfg) in
  if bool_decide (driver = "mysql") then (MySQL (DSN cfg), [], [])
  else if bool_decide (driver = "sqlite") || bool_decide (driver = "sqlite3") then
    let '(dbPath, dirs, logs) := sqlitePath cfg true in
    (SQLite dbPath, dirs, logs)
  else
    let '(dbPath, dirs, logs) := sqlitePath cfg false in
    (SQLite dbPath, dirs, logs).

(** [Init]: the state it leaves and the error it returns.  A migration that
    fails is logged; the database stays open and no error is returned. *)
Definition Init (cfg : Config) (st : State) : State * option string :=
  if once st then (st, None)
  else
    let '(dialector, dirs, logs) := selectDialector cfg in
    match gormOpen dialector with
    | Some openErr =>
        ({| DB := DB st; once := true; madeDirs := madeDirs st ++ dirs;
            logged := logged st ++ logs |},
         Some ("failed to connect to database: " +:+ openErr))
    | None =>
        let logs' :=
          match AutoMigrate dialector with
          | Some migrateErr =>
              ["Failed to auto-migrate database: " +:+ migrateErr]
          | None => []
          end in
        ({| DB := Some dialector; once := true;
            madeDirs := madeDirs st ++ dirs;
            logged := logged st ++ logs ++ logs' |},
         None)
    end.

End Init.

(** [strings.ToLower] on ASCII text. *)
Fixpoint asciiLower (s : string) : string :=
  match s with
  | EmptyString => EmptyString
  | String c r =>
      let n := Bytes.code c in
      String (if N.leb 65 n && N.leb n 90 then Bytes.byteN (n + 32) else c)
             (asciiLower r)
  end.

End database.

(** ** internal/api/handlers/management: usage.go *)

Module management.

Import Bytes statistics.

(** [firstNonEmpty] *)
Fixpoint firstNonEmpty (values : list string) : string :=
  match values with
  | [] => EmptyString
  | v :: values =>
      if bool_decide (v <> EmptyString) then v else firstNonEmpty values
  end.

Section Management.
Context `{T : TimeOps}.

(** [utcNow n] is what the [n]-th call of [time.Now().UTC()] returns;
    [createInBatches] is the transaction that writes the rows, and gives the
    error it fails with, if it fails. *)
Variable utcNow : nat -> Time.
Variable createInBatches : list RequestLog -> option string.

(** The body of the innermost loop of [importUsageSnapshotToDB]: the rows
    gathered so far and the readings of the clock taken. *)
Definition importDetail (apiName modelName : string)
    (acc : list RequestLog * nat) (detail : RequestDetail)
    : list RequestLog * nat :=
  let '(ts, ticks) :=
    if IsZero (Timestamp detail) then (utcNow acc.2, S acc.2)
    else (Timestamp detail, acc.2) in
  (acc.1 ++
   [{| ID := 0; RequestID := EmptyString; lTimestamp := ts;
       lMethod := EmptyString; lPath := EmptyString;
       lStatusCode := 0; lLatencyMs := 0; lClientIP := EmptyString;
       lModel := modelName; lProvider := Source detail;
       lInputTokens := InputTokens (Tokens detail);
       lOutputTokens := OutputTokens (Tokens detail);
       lTotalTokens := TotalTokens (Tokens detail);
       IsError := Failed detail; ErrorMessage := EmptyString;
       lAuthIndex := firstNonEmpty [AuthIndex detail; apiName] |}],
   ticks).

Definition importModel (apiName : string) (acc : list RequestLog * nat)
    (entry : string * ModelSnapshot) : list RequestLog * nat :=
  foldl (importDetail apiName entry.1) acc (Details entry.2).

Definition importAPI (acc : list RequestLog * nat)
    (entry : string * APISnapshot) : list RequestLog * nat :=
  foldl (importModel entry.1) acc (Models entry.2).

(** The rows [importUsageSnapshotToDB] gathers from a snapshot. *)
Definition importedLogs (snapshot : StatisticsSnapshot) : list RequestLog :=
  (foldl importAPI ([], O) (APIs snapshot)).1.

(** [importUsageSnapshotToDB]: the database is nil ([None]) or holds its
    rows; the rows it holds afterwards, the count returned and the error. *)
Definition importUsageSnapshotToDB (DB : option (list RequestLog))
    (snapshot : StatisticsSnapshot)
    : option (list RequestLog) * Z * option string :=
  match DB with
  | None => (None, 0, None)
  | Some rows =>
      let logs := importedLogs snapshot in
      if (length logs =? 0)%nat then (Some rows, 0, None)
      else
        match createInBatches logs with
        | Some err => (Some rows, 0, Some err)
        | None => (Some (rows ++ logs), Z.of_nat (length logs), None)
        end
  end.

(** All the details of a snapshot with the names they are listed under, as
    they stand. *)
Definition listed (snap : StatisticsSnapshot)
    : list (string * string * RequestDetail) :=
  a ← APIs snap; m ← Models a.2; (fun d => (a.1, m.1, d)) <$> Details m.2.

(** The row of the database that stands for a listed detail. *)
Definition imports (row : RequestLog) (e : string * string * RequestDetail)
    : Prop :=
  lModel row = e.1.2 /\
  lAuthIndex row
  = (if bool_decide (AuthIndex e.2 = EmptyString) then e.1.1 else AuthIndex e.2) /\
  lProvider row = Source e.2 /\
  lInputTokens row = InputTokens (Tokens e.2) /\
  lOutputTokens row = OutputTokens (Tokens e.2) /\
  lTotalTokens row = TotalTokens (Tokens e.2) /\
  IsError row = Failed e.2 /\
  (IsZero (Timestamp e.2) = false -> lTimestamp row = Timestamp e.2).

(** [usageImportPayload] *)
Record usageImportPayload : Type := {
  Version : Z;
  Usage : StatisticsSnapshot
}.

(** What a handler answers: the status, and the error or the fields of the
    body. *)
Inductive Response : Type :=
| BadRequest (error : string)
| InternalServerError (error : string)
| StatusOK (added skipped total_requests failed_requests : Z).

(** [snapshotFromDB] on the rows of the database, and the clock of the
    merge. *)
Variable snapshotFromDB : list RequestLog -> StatisticsSnapshot.
Variable now : nat -> Time.

(** [ImportUsageStatistics].  The handler is nil, or holds a store that may
    be nil; [body] is what decoding the request gives, if it decodes.  The
    store and the database as the call leaves them, and the answer. *)
Definition ImportUsageStatistics (h : option (option RequestStatistics))
    (body : option usageImportPayload) (DB : option (list RequestLog))
    : option (option RequestStatistics) * option (list RequestLog) * Response :=
  match h with
  | None | Some None => (h, DB, BadRequest "usage statistics unavailable")
  | Some (Some usageStats) =>
      match body with
      | None => (h, DB, BadRequest "invalid json or unsupported version")
      | Some payload =>
          match DB with
          | Some _ =>
              let '(DB', added, err) :=
                importUsageSnapshotToDB DB (Usage payload) in
              match err with
              | Some _ => (h, DB', InternalServerError "failed to import usage")
              | None =>
                  let snapshot :=
                    Snapshot (list RequestLog) snapshotFromDB DB' (Some usageStats) in
                  (h, DB',
                   StatusOK added 0 (snTotalRequests snapshot)
                            (snFailureCount snapshot))
              end
          | None =>
              let '(usageStats', result) :=
                MergeSnapshot now usageStats (Usage payload) in
              let snapshot :=
                Snapshot (list RequestLog) snapshotFromDB None (Some usageStats') in
              (Some (Some usageStats'), None,
               StatusOK (Added result) (Skipped result) (snTotalRequests snapshot)
                        (snFailureCount snapshot))
          end
      end
  end.

End Management.

End management.

(** ** Sample data

    The instances and values at which the theorems below are exercised. *)

Module examples.

(** A stand-in for the float64 route of gjson, which no example takes: the
    numbers of the examples are plain integers. *)
Definition exampleFloat : gjson.Float64 :=
  {| gjson.float_Int := fun _ => 0; gjson.float_String := fun raw => raw |}.

(** Time as seconds since the epoch, printed in decimal. *)
Definition exampleTime : TimeOps :=
  {| Time := Z;
     IsZero := fun t => t =? 0;
     formatUTC := fun t => pretty t;
     formatDay := fun t => pretty (t / 86400);
     Hour := fun t => (t / 3600) mod 24 |}.

Definition exampleReporter : @executor.usageReporter exampleTime :=
  {| executor.provider := "openai"; executor.model := "gpt";
     executor.authID := "auth"; executor.authIndex := "0";
     executor.apiKey := "key"; executor.source := "src";
     executor.requestedAt := (1700000000 : @Time exampleTime);
     executor.inputPayload := "in"; executor.outputPayload := "out";
     executor.respID := EmptyString; executor.finishReasons := [];
     executor.once := false |}.

Definition emptyWorld : @executor.World exampleTime :=
  {| executor.published := []; executor.attributed := [] |}.

Definition exampleDetail : coreusage.Detail :=
  {| coreusage.InputTokens := 1; coreusage.OutputTokens := 2;
     coreusage.ReasoningTokens := 0; coreusage.CachedTokens := 0;
     coreusage.TotalTokens := 0 |}.

(** [filepath.Join] on two clean relative or absolute components. *)
Definition exampleJoin (dir file : string) : string := dir +:+ "/" +:+ file.

(** A database that opens and migrates without error, and a file system
    that makes every directory. *)
Definition opens (_ : database.Dialector) : option string := None.
Definition migrates (_ : database.Dialector) : option string := None.
Definition mkdirs (_ : string) : option string := None.

Definition postgresConfig : database.Config :=
  {| database.Driver := "postgres"; database.DSN := EmptyString;
     database.LogDir := EmptyString |}.

(** A Claude message and a Claude stream line. *)
Definition claudeMessage : string :=
  gjson.q "{'usage':{'input_tokens':10,'output_tokens':5,'cache_read_input_tokens':0,'cache_creation_input_tokens':7,'total_tokens':99}}".

Definition claudeLine : string :=
  gjson.q "data: {'type':'message_delta','usage':{'input_tokens':10,'output_tokens':5,'cache_read_input_tokens':3}}".

(** SSE lines: a stop chunk without usage, and the usage chunk of the same
    trace that follows it. *)
Definition stopLine : string :=
  gjson.q "data: {'candidates':[{'finishReason':'STOP'}],'traceId':'abc'}".

Definition usageLine : string :=
  gjson.q "data: {'usageMetadata':{'totalTokenCount':7},'traceId':'abc'}".

Definition twoLinePayload : string :=
  stopLine +:+ String Bytes.newline usageLine.

(** A payload of terminal chunks, with an event line and a blank line. *)
Definition terminalLine : string :=
  gjson.q "data: {'candidates':[{'finishReason':'STOP'}],'usageMetadata':{'totalTokenCount':7}}".

Definition terminalPayload : string :=
  "event: message" +:+ String Bytes.newline
    (terminalLine +:+ String Bytes.newline EmptyString).

(** A chunk that is not terminal and carries usage at the top level and
    under the response wrapper. *)
Definition usageChunk : string :=
  gjson.q " {'usageMetadata':{'totalTokenCount':7},'traceId':'t','response':{'model':'m','usageMetadata':{'promptTokenCount':3}}} ".

Definition usageChunkMembers : list (string * gjson.json) :=
  Eval vm_compute in
    match gjson.parse (Bytes.TrimSpace usageChunk) with
    | Some (gjson.JObject ms) => ms
    | _ => []
    end.

(** The clock of the examples, and a snapshot with two details under the
    API [k1] and one under a blank API name. *)
Definition exampleNow (n : nat) : @Time exampleTime := 1700000000 + Z.of_nat n.

Definition exampleTokens (i o : Z) : statistics.TokenStats :=
  {| statistics.InputTokens := i; statistics.OutputTokens := o;
     statistics.ReasoningTokens := 0; statistics.CachedTokens := 0;
     statistics.TotalTokens := 0 |}.

Definition detailA : @statistics.RequestDetail exampleTime :=
  {| statistics.Timestamp := (1700000100 : @Time exampleTime);
     statistics.Source := "alice"; statistics.AuthIndex := "0";
     statistics.Tokens := exampleTokens 1 2; statistics.Failed := false |}.

Definition detailB : @statistics.RequestDetail exampleTime :=
  {| statistics.Timestamp := (1700000200 : @Time exampleTime);
     statistics.Source := "alice"; statistics.AuthIndex := "0";
     statistics.Tokens := exampleTokens 3 4; statistics.Failed := true |}.

Definition modelOf (ds : list (@statistics.RequestDetail exampleTime))
    : @statistics.ModelSnapshot exampleTime :=
  {| statistics.msTotalRequests := Z.of_nat (length ds);
     statistics.msTotalTokens := 0; statistics.Details := ds |}.

Definition apiOf (ms : list (string * @statistics.ModelSnapshot exampleTime))
    : @statistics.APISnapshot exampleTime :=
  {| statistics.asTotalRequests := 0; statistics.asTotalTokens := 0;
     statistics.Models := ms |}.

Definition snapshotOf (l : list (string * @statistics.APISnapshot exampleTime))
    : @statistics.StatisticsSnapshot exampleTime :=
  {| statistics.snTotalRequests := 0; statistics.snSuccessCount := 0;
     statistics.snFailureCount := 0; statistics.snTotalTokens := 0;
     statistics.APIs := l;
     statistics.RequestsByDay := ∅; statistics.RequestsByHour := ∅;
     statistics.TokensByDay := ∅; statistics.TokensByHour := ∅ |}.

Definition namedSnapshot : @statistics.StatisticsSnapshot exampleTime :=
  snapshotOf [("k1", apiOf [("gemini", modelOf [detailA; detailB])])].


(** Stream lines of the Gemini and OpenAI shapes, and the usage line of
    above as the filter rewrites it. *)
Definition geminiLine : string :=
  gjson.q "data: {'usageMetadata':{'promptTokenCount':3,'candidatesTokenCount':4,'thoughtsTokenCount':2}}".

Definition openaiLine : string :=
  gjson.q "data: {'usage':{'prompt_tokens':1,'completion_tokens':2}}".

Definition renamedLine : string :=
  gjson.q "data: {'traceId':'abc','cpaUsageMetadata':{'totalTokenCount':7}}".

(** A store that holds the two details of [namedSnapshot] under [k1] and
    [gemini], a map of hourly counts, and a MySQL configuration. *)
Definition exampleStore : @statistics.RequestStatistics exampleTime :=
  {| statistics.totalRequests := 2; statistics.successCount := 1;
     statistics.failureCount := 1; statistics.totalTokens := 10;
     statistics.apis :=
       {["k1" :=
           {| statistics.aTotalRequests := 2; statistics.aTotalTokens := 10;
              statistics.aModels :=
                {["gemini" :=
                    {| statistics.mTotalRequests := 2;
                       statistics.mTotalTokens := 10;
                       statistics.mDetails := [detailA; detailB] |}]} |}]};
     statistics.requestsByDay := ∅; statistics.requestsByHour := ∅;
     statistics.tokensByDay := ∅; statistics.tokensByHour := ∅ |}.

Definition exampleHours : gmap Z Z := <[3 := 5]> (<[14 := 2]> ∅).

Definition mysqlConfig : database.Config :=
  {| database.Driver := "MySQL"; database.DSN := "user@tcp(db)/usage";
     database.LogDir := "logs" |}.

(** A chunk of raw JSON, not an SSE payload, that carries usage, and a
    detail with a value for every count. *)
Definition rawPayload : string :=
  gjson.q " {'usageMetadata':{'totalTokenCount':7}} ".

Definition fullDetail : coreusage.Detail :=
  {| coreusage.InputTokens := 10; coreusage.OutputTokens := 20;
     coreusage.ReasoningTokens := 9; coreusage.CachedTokens := 7;
     coreusage.TotalTokens := 30 |}.

(** The detail [detailA] with its total declared. *)
Definition detailA' : @statistics.RequestDetail exampleTime :=
  {| statistics.Timestamp := (1700000100 : @Time exampleTime);
     statistics.Source := "alice"; statistics.AuthIndex := "0";
     statistics.Tokens :=
       {| statistics.InputTokens := 1; statistics.OutputTokens := 2;
          statistics.ReasoningTokens := 0; statistics.CachedTokens := 0;
          statistics.TotalTokens := 3 |};
     statistics.Failed := false |}.

End examples.

(** * Properties *)

(** ** int64 *)

Module Int64Facts.

Import Int64.

Lemma wrap_in_range z : in_range (wrap z).
Proof.
unfold in_range, wrap, min_int, max_int.
pose proof (Z.mod_pos_bound (z + 2 ^ 63) (2 ^ 64) ltac:(lia)). lia.
Qed.

Lemma wrap_small z : in_range z -> wrap z = z.
Proof.
unfold in_range, wrap, min_int, max_int. intros Hz.
rewrite Z.mod_small; lia.
Qed.

Lemma wrap_wrap z : wrap (wrap z) = wrap z.
Proof. apply wrap_small, wrap_in_range. Qed.

Lemma add_0_r a : in_range a -> add a 0 = a.
Proof. intros Ha. unfold add. rewrite Z.add_0_r. by apply wrap_small. Qed.

Lemma wrap_add_l a b : wrap (wrap a + b) = wrap (a + b).
Proof.
unfold wrap. f_equal.
replace (a + 2 ^ 63 + b) with ((a + b) + 2 ^ 63) by lia.
replace ((a + 2 ^ 63) mod 2 ^ 64 - 2 ^ 63 + b + 2 ^ 63)
  with ((a + 2 ^ 63) mod 2 ^ 64 + b) by lia.
rewrite Zplus_mod_idemp_l. f_equal. lia.
Qed.

End Int64Facts.

(** ** bytes *)

Module BytesFacts.

Import Bytes.

Lemma Split_nonempty s : Split s <> [].
Proof.
destruct s as [|c r]; simpl; [done|].
destruct (Ascii.eqb c newline); [done|]. by destruct (Split r).
Qed.

Lemma Join_Split s : Join (Split s) = s.
Proof.
induction s as [|c r IH]; simpl; [done|].
destruct (Ascii.eqb c newline) eqn:Hc.
- apply Ascii.eqb_eq in Hc. subst c.
  pose proof (Split_nonempty r) as Hne.
  destruct (Split r) as [|p ps]; [done|]. simpl in *. by rewrite IH.
- destruct (Split r) as [|p ps] eqn:Hs; [by destruct (Split_nonempty r)|].
  simpl in *. destruct ps; simpl in *; by rewrite <- IH.
Qed.

Lemma rev_app_append (a b c : string) :
  String.rev_app (a +:+ b) c = String.rev_app b (String.rev_app a c).
Proof. revert c. induction a as [|x a IH]; intros c; simpl; [done|]. apply IH. Qed.

Lemma rev_app_rev_app (a b c : string) :
  String.rev_app (String.rev_app a b) c = String.rev_app b (a +:+ c).
Proof.
  revert b c. induction a as [|x a IH]; intros b c; simpl; [done|].
  rewrite IH. done.
Qed.

Lemma append_empty_r (a : string) : a +:+ EmptyString = a.
Proof. induction a as [|x a IH]; simpl; [done|]. unfold String.app in *. simpl. by rewrite IH. Qed.

Lemma rev_involutive (s : string) : String.rev (String.rev s) = s.
Proof. unfold String.rev. rewrite rev_app_rev_app. simpl. apply append_empty_r. Qed.

Lemma string_length_ind (P : string -> Prop) :
  (forall s, (forall t, (String.length t < String.length s)%nat -> P t) -> P s) ->
  forall s, P s.
Proof.
  intros H s. remember (String.length s) as n eqn:Hn. revert s Hn.
  induction n as [n IH] using lt_wf_ind. intros s ->.
  apply H. intros t Ht. by apply (IH (String.length t)).
Qed.

(** A string is trimmed on the left when [trimLeft] leaves it. *)
Lemma trimLeft_idem (s : string) : trimLeft (trimLeft s) = trimLeft s.
Proof.
  induction s as [s IH] using string_length_ind.
  destruct s as [|a r]; [done|].
  simpl. destruct (isAsciiSpace a) eqn:Ha.
  { apply IH. simpl. lia. }
  destruct r as [|b r2].
  { simpl. by rewrite Ha. }
  destruct (isSpace2 a b) eqn:Hab.
  { apply IH. simpl. lia. }
  destruct r2 as [|c r3].
  { simpl. by rewrite Ha, Hab. }
  destruct (isSpace3 a b c) eqn:Habc.
  { apply IH. simpl. lia. }
  simpl. by rewrite Ha, Hab, Habc.
Qed.

Lemma trimLeftRev_idem (s : string) : trimLeftRev (trimLeftRev s) = trimLeftRev s.
Proof.
  induction s as [s IH] using string_length_ind.
  destruct s as [|a r]; [done|].
  simpl. destruct (isAsciiSpace a) eqn:Ha.
  { apply IH. simpl. lia. }
  destruct r as [|b r2].
  { simpl. by rewrite Ha. }
  destruct (isSpace2 b a) eqn:Hab.
  { apply IH. simpl. lia. }
  destruct r2 as [|c r3].
  { simpl. by rewrite Ha, Hab. }
  destruct (isSpace3 c b a) eqn:Habc.
  { apply IH. simpl. lia. }
  simpl. by rewrite Ha, Hab, Habc.
Qed.

Lemma trimRight_idem (s : string) : trimRight (trimRight s) = trimRight s.
Proof. unfold trimRight. by rewrite rev_involutive, trimLeftRev_idem. Qed.

(** [trimLeftRev] drops a prefix. *)
Lemma trimLeftRev_suffix (s : string) : exists p, s = p +:+ trimLeftRev s.
Proof.
  induction s as [s IH] using string_length_ind.
  destruct s as [|a r]; [by exists EmptyString|].
  simpl. destruct (isAsciiSpace a) eqn:Ha.
  { destruct (IH r) as [p Hp]; [simpl; lia|]. exists (String a p). simpl.
    unfold String.app. simpl. by f_equal. }
  destruct r as [|b r2]; [by exists EmptyString|].
  destruct (isSpace2 b a) eqn:Hab.
  { destruct (IH r2) as [p Hp]; [simpl; lia|]. exists (String a (String b p)).
    unfold String.app. simpl. by do 2 f_equal. }
  destruct r2 as [|c r3]; [by exists EmptyString|].
  destruct (isSpace3 c b a) eqn:Habc; [|by exists EmptyString].
  destruct (IH r3) as [p Hp]; [simpl; lia|].
  exists (String a (String b (String c p))).
  unfold String.app. simpl. by do 3 f_equal.
Qed.

Lemma rev_append (a b : string) : String.rev (a +:+ b) = String.rev b +:+ String.rev a.
Proof.
  unfold String.rev. rewrite rev_app_append.
  generalize (String.rev_app a EmptyString) as x. 
  assert (H : forall b x y, String.rev_app b (x +:+ y) = String.rev_app b x +:+ y).
  { clear. induction b as [|c b IH]; intros x y; simpl; [done|].
    apply (IH (String c x) y). }
  intros x. apply (H b EmptyString x).
Qed.

(** [trimRight] keeps a prefix. *)
Lemma trimRight_prefix (s : string) : exists q, s = trimRight s +:+ q.
Proof.
  unfold trimRight. destruct (trimLeftRev_suffix (String.rev s)) as [p Hp].
  exists (String.rev p).
  rewrite <- rev_append, <- Hp. by rewrite rev_involutive.
Qed.

(** A prefix of a string that is trimmed on the left is trimmed on the
    left. *)
Lemma trimLeft_fixed_prefix (s q : string) :
  trimLeft (s +:+ q) = s +:+ q -> trimLeft s = s.
Proof.
  destruct s as [|a r]; [done|].
  assert (Hlen : forall x, (String.length (trimLeft x) <= String.length x)%nat).
  { intros x. induction x as [x IH] using string_length_ind.
    destruct x as [|a' r']; [done|]. simpl.
    destruct (isAsciiSpace a').
    { pose proof (IH r' ltac:(simpl; lia)). lia. }
    destruct r' as [|b' r2']; [done|].
    destruct (isSpace2 a' b').
    { pose proof (IH r2' ltac:(simpl; lia)). simpl. lia. }
    destruct r2' as [|c' r3']; [done|].
    destruct (isSpace3 a' b' c'); [|done].
    pose proof (IH r3' ltac:(simpl; lia)). simpl. lia. }
  assert (Hcons : forall c x y, String c x +:+ y = String c (x +:+ y)) by done.
  rewrite Hcons. cbn [trimLeft].
  destruct (isAsciiSpace a) eqn:Ha.
  { intros H. pose proof (Hlen (r +:+ q)) as Hl. rewrite H in Hl.
    simpl in Hl. lia. }
  destruct r as [|b r2]; [done|]. rewrite Hcons.
  destruct (isSpace2 a b) eqn:Hab.
  { intros H. pose proof (Hlen (r2 +:+ q)) as Hl. rewrite H in Hl.
    simpl in Hl. lia. }
  destruct r2 as [|c r3]; [done|]. rewrite Hcons.
  destruct (isSpace3 a b c) eqn:Habc; [|done].
  intros H. pose proof (Hlen (r3 +:+ q)) as Hl. rewrite H in Hl.
  simpl in Hl. lia.
Qed.

Lemma TrimSpace_idem (s : string) : TrimSpace (TrimSpace s) = TrimSpace s.
Proof.
  unfold TrimSpace.
  destruct (trimRight_prefix (trimLeft s)) as [q Hq].
  assert (H : trimLeft (trimRight (trimLeft s)) = trimRight (trimLeft s)).
  { apply (trimLeft_fixed_prefix _ q). rewrite <- Hq. apply trimLeft_idem. }
  by rewrite H, trimRight_idem.
Qed.

Lemma append_cons (c : ascii) (x y : string) :
  String c x +:+ y = String c (x +:+ y).
Proof. done. Qed.

Lemma append_nil_l (y : string) : EmptyString +:+ y = y.
Proof. done. Qed.

Lemma append_assoc (a b c : string) : (a +:+ b) +:+ c = a +:+ (b +:+ c).
Proof. induction a as [|x a IH]; [done|]. rewrite !append_cons. by f_equal. Qed.

Lemma length_append (a b : string) :
  (String.length (a +:+ b) = String.length a + String.length b)%nat.
Proof.
  induction a as [|x a IH]; [done|]. rewrite append_cons. simpl. by rewrite IH.
Qed.

(** Push the constructors of a literal prefix out of an append. *)
Ltac push_append := rewrite ?append_cons, ?append_nil_l.
Ltac push_append_in H := rewrite ?append_cons, ?append_nil_l in H.

(** [trimLeft] drops a prefix. *)
Lemma trimLeft_suffix (s : string) : exists p, s = p +:+ trimLeft s.
Proof.
  induction s as [s IH] using string_length_ind.
  destruct s as [|a r]; [by exists EmptyString|].
  cbn [trimLeft]. destruct (isAsciiSpace a).
  { destruct (IH r ltac:(simpl; lia)) as [p Hp].
    exists (String a p). rewrite append_cons. by f_equal. }
  destruct r as [|b r2]; [by exists EmptyString|].
  destruct (isSpace2 a b).
  { destruct (IH r2 ltac:(simpl; lia)) as [p Hp].
    exists (String a (String b p)). rewrite !append_cons. by do 2 f_equal. }
  destruct r2 as [|c r3]; [by exists EmptyString|].
  destruct (isSpace3 a b c); [|by exists EmptyString].
  destruct (IH r3 ltac:(simpl; lia)) as [p Hp].
  exists (String a (String b (String c p))). rewrite !append_cons. by do 3 f_equal.
Qed.

Lemma prefix_append (p s : string) :
  String.prefix p s = true <-> exists x, s = p +:+ x.
Proof.
  revert s. induction p as [|a p IH]; intros s.
  - split; [intros _; by exists s|intros _; by destruct s].
  - destruct s as [|b s]; [split; [done|by intros [x Hx]]|].
    simpl. destruct (ascii_dec a b) as [->|Hne].
    + rewrite IH. split; intros [x Hx]; exists x.
      * rewrite append_cons. by f_equal.
      * rewrite append_cons in Hx. by injection Hx.
    + split; [done|]. intros [x Hx]. rewrite append_cons in Hx. by injection Hx.
Qed.

Lemma Index_unfold (s sep : string) :
  Index s sep
  = if String.prefix sep s then Some O
    else match s with
         | String _ r => S <$> Index r sep
         | EmptyString => None
         end.
Proof. by destruct s. Qed.

(** [Index] finds a separator that is there. *)
Lemma Index_found (a sep b : string) : is_Some (Index (a +:+ sep +:+ b) sep).
Proof.
  induction a as [|c a IH]; rewrite Index_unfold.
  - rewrite append_nil_l.
    assert (H : String.prefix sep (sep +:+ b) = true) by (apply prefix_append; eauto).
    rewrite H. eauto.
  - rewrite append_cons.
    destruct (String.prefix sep (String c (a +:+ sep +:+ b))); [eauto|].
    destruct IH as [i ->]. simpl. eauto.
Qed.

(** A prefix of the trimmed line is found in the line. *)
Lemma TrimSpace_prefix_Index (s p : string) :
  HasPrefix (TrimSpace s) p = true -> is_Some (Index s p).
Proof.
  unfold HasPrefix, TrimSpace. intros [x Hx]%prefix_append.
  destruct (trimRight_prefix (trimLeft s)) as [q Hq].
  destruct (trimLeft_suffix s) as [l Hl].
  rewrite Hl, Hq, Hx, !append_assoc. apply Index_found.
Qed.

End BytesFacts.


(** ** The reporter *)

Module reporter_props.

Import Bytes gjson coreusage executor.

Section Reporter.
Context `{F : Float64} `{T : TimeOps}.

(** C9.  Every capture method ([SetInput], [SetOutput], [AppendOutput],
    [CaptureStreamChunk]) is a no-op when the receiver is nil or the payload
    is empty: the reporter is returned as it was (nil stays nil, and no field
    of a reporter changes). *)
Theorem capture_noop_nil_or_empty (r : option usageReporter) (payload : string) :
  r = None \/ payload = EmptyString ->
  SetInput r payload = r /\ SetOutput r payload = r /\
  AppendOutput r payload = r /\ CaptureStreamChunk r payload = r.
Proof.
  intros [-> | ->]; [done|].
  destruct r as [rep|]; done.
Qed.

(** Once the latch has fired, a completion signal changes neither the
    reporter nor the world. *)
Lemma fire_after_once (c : completion) (rep : usageReporter) (w : World) :
  once rep = true -> fire c (Some rep, w) = (Some rep, w).
Proof.
  intros Hon. destruct c; simpl;
    unfold publish, publishFailure, ensurePublished, publishWithOutcome;
    rewrite Hon; by repeat case_match.
Qed.

Lemma fireAll_after_once (cs : list completion) (rep : usageReporter) (w : World) :
  once rep = true -> fireAll cs (Some rep, w) = (Some rep, w).
Proof.
  intros Hon. induction cs as [|c cs IH]; [done|].
  unfold fireAll in *. simpl. rewrite (fire_after_once c rep w Hon). exact IH.
Qed.

(** The first signal on a fresh reporter publishes one record and fires the
    latch. *)
Lemma fire_fresh (c : completion) (rep : usageReporter) (w : World) :
  once rep = false ->
  exists rep' w' rec,
    fire c (Some rep, w) = (Some rep', w') /\ once rep' = true /\
    published w' = published w ++ [rec] /\
    Failed rec = match c with PublishFailure _ => true | _ => false end.
Proof.
  intros Hoff. destruct c; simpl;
    unfold publish, publishFailure, ensurePublished, publishWithOutcome;
    rewrite Hoff; eauto 10.
Qed.

(** C1.  On a reporter whose latch has not fired, any sequence of two or
    more completion signals (publish with a detail, publishFailure,
    ensurePublished, in any order) hands exactly one record to
    [usage.PublishRecord]: the first signal publishes it, and every later
    one is a no-op, so the whole sequence leaves the reporter and the world
    as the first signal alone leaves them. *)
Theorem publish_exactly_once (rep : usageReporter) (w : World)
    (c1 c2 : completion) (cs : list completion) :
  once rep = false ->
  fireAll (c1 :: c2 :: cs) (Some rep, w) = fire c1 (Some rep, w) /\
  exists rec,
    published (fireAll (c1 :: c2 :: cs) (Some rep, w)).2 = published w ++ [rec] /\
    Failed rec = match c1 with PublishFailure _ => true | _ => false end.
Proof.
  intros Hoff.
  destruct (fire_fresh c1 rep w Hoff) as (rep' & w' & rec & Hfire & Hon & Hpub & Hf).
  assert (Hall : fireAll (c1 :: c2 :: cs) (Some rep, w) = fire c1 (Some rep, w)).
  { change (fireAll (c1 :: c2 :: cs) (Some rep, w))
      with (fireAll (c2 :: cs) (fire c1 (Some rep, w))).
    rewrite Hfire. by apply fireAll_after_once. }
  split; [exact Hall|].
  exists rec. rewrite Hall, Hfire. done.
Qed.

(** What publishing does on a fresh reporter. *)
Lemma publish_fresh (rep : usageReporter) (ctx : option Ctx) (d : Detail)
    (failed : bool) (w : World) :
  once rep = false ->
  published (publishWithOutcome (Some rep) ctx d failed w).2
  = published w ++ [recordOf rep (deriveTotal d) failed].
Proof. intros Hoff. unfold publishWithOutcome. by rewrite Hoff. Qed.

(** C5.  Parsing [{"usage":{"prompt_tokens":1,"completion_tokens":2}}] with
    the OpenAI parser and publishing the result hands on a record whose
    detail has InputTokens 1, OutputTokens 2 and TotalTokens 3: no
    [total_tokens] is declared, so the total is Input+Output+Reasoning. *)
Theorem openai_parse_then_publish (rep : usageReporter) (ctx : option Ctx)
    (w : World) :
  once rep = false ->
  let detail :=
    parseOpenAIUsage (q "{'usage':{'prompt_tokens':1,'completion_tokens':2}}") in
  TotalTokens detail = 0 /\
  exists rec,
    published (publish (Some rep) ctx detail w).2 = published w ++ [rec] /\
    InputTokens (Detail_ rec) = 1 /\ OutputTokens (Detail_ rec) = 2 /\
    TotalTokens (Detail_ rec) = 3 /\
    ReasoningTokens (Detail_ rec) = 0 /\ CachedTokens (Detail_ rec) = 0.
Proof.
  intros Hoff detail.
  assert (Hd : detail =
    {| InputTokens := 1; OutputTokens := 2; ReasoningTokens := 0;
       CachedTokens := 0; TotalTokens := 0 |}) by (vm_compute; reflexivity).
  split; [by rewrite Hd|].
  eexists. unfold publish. rewrite (publish_fresh _ _ _ _ _ Hoff).
  split; [reflexivity|]. rewrite Hd. vm_compute. repeat split; reflexivity.
Qed.

(** C10.  When the usage node exists, the Claude parsers take InputTokens
    from [input_tokens], OutputTokens from [output_tokens], CachedTokens from
    [cache_read_input_tokens] or, when that count is zero, from
    [cache_creation_input_tokens], and set TotalTokens to InputTokens +
    OutputTokens (int64 addition): no declared total is read, and neither
    cached nor reasoning tokens enter the total.  The streaming parser
    reports found. *)
Theorem claude_total_is_input_plus_output (data line : string) :
  Exists (rGet (ParseBytes data) "usage") = true ->
  Exists (GetBytes (jsonPayload line) "usage") = true ->
  let expected (usageNode : Result) :=
    let cacheRead := Int (rGet usageNode "cache_read_input_tokens") in
    {| InputTokens := Int (rGet usageNode "input_tokens");
       OutputTokens := Int (rGet usageNode "output_tokens");
       ReasoningTokens := 0;
       CachedTokens :=
         if cacheRead =? 0
         then Int (rGet usageNode "cache_creation_input_tokens")
         else cacheRead;
       TotalTokens :=
         Int64.add (Int (rGet usageNode "input_tokens"))
                   (Int (rGet usageNode "output_tokens")) |} in
  parseClaudeUsage data = expected (rGet (ParseBytes data) "usage") /\
  parseClaudeStreamUsage line
  = (expected (GetBytes (jsonPayload line) "usage"), true) /\
  TotalTokens (parseClaudeUsage data)
  = Int64.add (InputTokens (parseClaudeUsage data))
              (OutputTokens (parseClaudeUsage data)) /\
  TotalTokens (parseClaudeStreamUsage line).1
  = Int64.add (InputTokens (parseClaudeStreamUsage line).1)
              (OutputTokens (parseClaudeStreamUsage line).1).
Proof.
  intros Hdata Hline expected.
  assert (H1 : parseClaudeUsage data = expected (rGet (ParseBytes data) "usage")).
  { unfold parseClaudeUsage. by rewrite Hdata. }
  assert (H2 : parseClaudeStreamUsage line
               = (expected (GetBytes (jsonPayload line) "usage"), true)).
  { unfold parseClaudeStreamUsage.
    destruct (is_empty (jsonPayload line) || negb (ValidBytes (jsonPayload line)))
      eqn:Hbad.
    - exfalso. unfold GetBytes, ParseBytes, ValidBytes in *.
      destruct (jsonPayload line) as [|c r] eqn:Hp; simpl in Hbad.
      + by vm_compute in Hline.
      + destruct (parse (String c r)) eqn:Hparse; [|done].
        rewrite bool_decide_eq_true_2 in Hbad; [done|by eexists].
    - by rewrite Hline. }
  rewrite H1, H2. done.
Qed.

End Reporter.

(** C9 at the sample reporter with an empty payload. *)
Lemma capture_noop_witness :
  @SetInput examples.exampleTime (Some examples.exampleReporter) EmptyString
    = Some examples.exampleReporter /\
  @SetOutput examples.exampleTime (Some examples.exampleReporter) EmptyString
    = Some examples.exampleReporter /\
  @AppendOutput examples.exampleTime (Some examples.exampleReporter) EmptyString
    = Some examples.exampleReporter /\
  @CaptureStreamChunk examples.exampleFloat examples.exampleTime
    (Some examples.exampleReporter) EmptyString
    = Some examples.exampleReporter.
Proof.
  apply (@capture_noop_nil_or_empty examples.exampleFloat examples.exampleTime
           (Some examples.exampleReporter) EmptyString).
  right. reflexivity.
Defined.

(** C1 at the sample reporter: a success, then a late failure signal and
    the idle finalizer. *)
Lemma publish_exactly_once_witness :
  @executor.once examples.exampleTime examples.exampleReporter = false /\
  (fireAll [Publish None examples.exampleDetail; PublishFailure None;
            EnsurePublished None]
           (Some examples.exampleReporter, examples.emptyWorld)
   = fire (Publish None examples.exampleDetail)
          (Some examples.exampleReporter, examples.emptyWorld) /\
   exists rec,
     published
       (fireAll [Publish None examples.exampleDetail; PublishFailure None;
                 EnsurePublished None]
                (Some examples.exampleReporter, examples.emptyWorld)).2
     = published examples.emptyWorld ++ [rec] /\
     Failed rec = false).
Proof.
  split; [reflexivity|].
  apply (@publish_exactly_once examples.exampleTime examples.exampleReporter
           examples.emptyWorld (Publish None examples.exampleDetail)
           (PublishFailure None) [EnsurePublished None]).
  reflexivity.
Defined.

(** C5 at the sample reporter. *)
Lemma openai_parse_then_publish_witness :
  @executor.once examples.exampleTime examples.exampleReporter = false /\
  exists rec,
    published
      (publish (Some examples.exampleReporter) None
         (@parseOpenAIUsage examples.exampleFloat
            (q "{'usage':{'prompt_tokens':1,'completion_tokens':2}}"))
         examples.emptyWorld).2
    = published examples.emptyWorld ++ [rec] /\
    InputTokens (Detail_ rec) = 1 /\ OutputTokens (Detail_ rec) = 2 /\
    TotalTokens (Detail_ rec) = 3 /\
    ReasoningTokens (Detail_ rec) = 0 /\ CachedTokens (Detail_ rec) = 0.
Proof.
  split; [reflexivity|].
  apply (@openai_parse_then_publish examples.exampleFloat examples.exampleTime
           examples.exampleReporter None examples.emptyWorld).
  reflexivity.
Defined.

(** C10 on a message that declares a total of 99 besides 10 input and 5
    output tokens, and no cache reads but 7 cache creations: the total is
    15 and the cached count 7. *)
Lemma claude_total_witness :
  TotalTokens
    (@parseClaudeUsage examples.exampleFloat examples.claudeMessage) = 15 /\
  CachedTokens
    (@parseClaudeUsage examples.exampleFloat examples.claudeMessage) = 7 /\
  TotalTokens
    (@parseClaudeStreamUsage examples.exampleFloat examples.claudeLine).1 = 15.
Proof.
  pose proof (@claude_total_is_input_plus_output examples.exampleFloat
                examples.claudeMessage examples.claudeLine
                ltac:(vm_compute; reflexivity) ltac:(vm_compute; reflexivity))
    as (H1 & H2 & _).
  cbv zeta in H1, H2. rewrite H1, H2. vm_compute. repeat split; reflexivity.
Defined.

End reporter_props.

(** ** Token totals *)

Module totals_props.

Import statistics.


Lemma normaliseTokenStats_total (t : TokenStats) :
  TotalTokens (normaliseTokenStats t)
  = (if TotalTokens t =? 0
     then if Int64.add (Int64.add (InputTokens t) (OutputTokens t))
                       (ReasoningTokens t) =? 0
          then Int64.add (Int64.add (Int64.add (InputTokens t) (OutputTokens t))
                                    (ReasoningTokens t)) (CachedTokens t)
          else Int64.add (Int64.add (InputTokens t) (OutputTokens t))
                         (ReasoningTokens t)
     else TotalTokens t).
Proof.
  unfold normaliseTokenStats.
  destruct (Z.eqb_spec (TotalTokens t) 0) as [E|E].
  - cbn [set_TotalTokens TotalTokens InputTokens OutputTokens ReasoningTokens
         CachedTokens].
    by destruct (Z.eqb_spec (Int64.add (Int64.add (InputTokens t) (OutputTokens t))
                                       (ReasoningTokens t)) 0).
  - by rewrite (proj2 (Z.eqb_neq _ _) E).
Qed.

Lemma normaliseTokenStats_fields (t : TokenStats) :
  InputTokens (normaliseTokenStats t) = InputTokens t /\
  OutputTokens (normaliseTokenStats t) = OutputTokens t /\
  ReasoningTokens (normaliseTokenStats t) = ReasoningTokens t /\
  CachedTokens (normaliseTokenStats t) = CachedTokens t.
Proof. unfold normaliseTokenStats. by repeat case_match. Qed.

Lemma TokenStats_eq (a b : TokenStats) :
  InputTokens a = InputTokens b -> OutputTokens a = OutputTokens b ->
  ReasoningTokens a = ReasoningTokens b -> CachedTokens a = CachedTokens b ->
  TotalTokens a = TotalTokens b -> a = b.
Proof. destruct a, b; simpl; congruence. Qed.

(** Normalising is idempotent. *)
Lemma normaliseTokenStats_idem (t : TokenStats) :
  normaliseTokenStats (normaliseTokenStats t) = normaliseTokenStats t.
Proof.
  destruct (normaliseTokenStats_fields t) as (Hi & Ho & Hr & Hc).
  destruct (normaliseTokenStats_fields (normaliseTokenStats t))
    as (Hi' & Ho' & Hr' & Hc').
  apply TokenStats_eq; try congruence.
  rewrite (normaliseTokenStats_total (normaliseTokenStats t)).
  rewrite Hi, Ho, Hr, Hc, (normaliseTokenStats_total t).
  repeat match goal with
         | |- context [?a =? ?b] => destruct (Z.eqb_spec a b)
         end; congruence.
Qed.



End totals_props.

(** ** Database initialisation *)

Module database_props.

Import database.

Section InitProps.
Variable ToLower : string -> string.
Variable Join : string -> string -> string.
Variable gormOpen : Dialector -> option string.
Variable AutoMigrate : Dialector -> option string.
Variable MkdirAll : string -> option string.

(** C8, as the code has it.  A driver name that is none of [mysql],
    [sqlite] and [sqlite3] (after lower-casing) takes the [default] case:
    [Init] opens SQLite at the path the [sqlite] case would use (the DSN if
    there is one, else [cliproxy.db], under LogDir if there is one), and
    returns an error only when opening that database fails. *)
Theorem init_unrecognized_driver_opens_sqlite (cfg : Config) (st : State) :
  once st = false ->
  ToLower (Driver cfg) <> "mysql" ->
  ToLower (Driver cfg) <> "sqlite" ->
  ToLower (Driver cfg) <> "sqlite3" ->
  let dbPath := (sqlitePath Join MkdirAll cfg true).1.1 in
  let after := Init ToLower Join gormOpen AutoMigrate MkdirAll cfg st in
  (selectDialector ToLower Join MkdirAll cfg).1.1 = SQLite dbPath /\
  match gormOpen (SQLite dbPath) with
  | None => DB after.1 = Some (SQLite dbPath) /\ after.2 = None
  | Some e =>
      DB after.1 = DB st /\
      after.2 = Some ("failed to connect to database: " +:+ e)
  end.
Proof.
  intros Hoff H1 H2 H3 dbPath after.
  assert (Hsel : (selectDialector ToLower Join MkdirAll cfg).1.1 = SQLite dbPath).
  { unfold selectDialector, dbPath.
    rewrite (bool_decide_eq_false_2 _ H1), (bool_decide_eq_false_2 _ H2),
      (bool_decide_eq_false_2 _ H3). simpl.
    unfold sqlitePath.
    destruct (bool_decide (DSN cfg = EmptyString)); [|done].
    by destruct (bool_decide (LogDir cfg = EmptyString)). }
  split; [exact Hsel|].
  unfold after, Init. rewrite Hoff.
  destruct (selectDialector ToLower Join MkdirAll cfg) as [[dia dirs] logs].
  simpl in Hsel. subst dia.
  by destruct (gormOpen (SQLite dbPath)).
Qed.

End InitProps.

(** C8 as stated fails: with the driver name [postgres] and a database
    that opens, [Init] returns no error and has opened SQLite at
    [cliproxy.db]. *)
Lemma init_postgres_opens_sqlite_silently :
  Init asciiLower examples.exampleJoin examples.opens examples.migrates
       examples.mkdirs examples.postgresConfig initial
  = ({| DB := Some (SQLite "cliproxy.db"); once := true; madeDirs := [];
        logged := [] |}, None).
Proof. vm_compute. reflexivity. Qed.

(** The amended C8 at the driver name [PostgreSQL] with a DSN. *)
Lemma init_unrecognized_driver_witness :
  DB (Init asciiLower examples.exampleJoin examples.opens examples.migrates
           examples.mkdirs
           {| Driver := "PostgreSQL"; DSN := "/var/db/usage.db";
              LogDir := "logs" |} initial).1
  = Some (SQLite "/var/db/usage.db").
Proof.
  pose proof (init_unrecognized_driver_opens_sqlite asciiLower
                examples.exampleJoin examples.opens examples.migrates
                examples.mkdirs
                {| Driver := "PostgreSQL"; DSN := "/var/db/usage.db";
                   LogDir := "logs" |} initial
                ltac:(reflexivity) ltac:(vm_compute; discriminate)
                ltac:(vm_compute; discriminate) ltac:(vm_compute; discriminate))
    as [_ H].
  cbv zeta in H. exact (proj1 H).
Defined.

End database_props.

(** ** The JSON parser *)

Module parser_props.

Import Bytes gjson BytesFacts.

Local Open Scope nat_scope.

(** *** Fuel

    A parse that succeeds needs no more fuel than the number of bytes it
    consumes, so the fuel [parse] supplies never runs out. *)

Lemma skip_ws_length (s : string) : String.length (skip_ws s) <= String.length s.
Proof. induction s as [|c r IH]; simpl; [lia|]. destruct (is_ws c); simpl; lia. Qed.

Lemma scan_string_length (s body rest : string) :
  scan_string s = Some (body, rest) -> String.length rest < String.length s.
Proof.
  revert body rest. induction s as [s IH] using BytesFacts.string_length_ind.
  intros body rest H. destruct s as [|c r]; [done|]. simpl in H.
  destruct (Ascii.eqb c dquote); [injection H as _ <-; simpl; lia|].
  destruct (N.ltb (code c) 32); [done|].
  destruct (Ascii.eqb c "\").
  - destruct r as [|e r1]; [done|].
    destruct (is_escape e).
    + destruct (scan_string r1) as [[b t]|] eqn:E; [|done].
      injection H as _ <-. apply IH in E; simpl in *; lia.
    + destruct (Ascii.eqb e "u"); [|done].
      destruct r1 as [|h1 [|h2 [|h3 [|h4 r2]]]]; try done.
      destruct (is_hex h1 && is_hex h2 && is_hex h3 && is_hex h4); [|done].
      destruct (scan_string r2) as [[b t]|] eqn:E; [|done].
      injection H as _ <-. apply IH in E; simpl in *; lia.
  - destruct (scan_string r) as [[b t]|] eqn:E; [|done].
    injection H as _ <-. apply IH in E; simpl in *; lia.
Qed.

Lemma span_digits_length (s ds rest : string) :
  span_digits s = (ds, rest) -> String.length rest <= String.length s.
Proof.
  revert ds rest. induction s as [|c r IH]; intros ds rest H; simpl in H.
  - injection H as _ <-. done.
  - destruct (is_digit c).
    + destruct (span_digits r) as [d t] eqn:E. injection H as _ <-.
      specialize (IH _ _ eq_refl). simpl. lia.
    + injection H as _ <-. done.
Qed.

Lemma scan_number_length (s num rest : string) :
  scan_number s = Some (num, rest) -> String.length rest < String.length s.
Proof.
  unfold scan_number. intros H.
  set (p := match s with
            | String c r => if Ascii.eqb c "-" then (String c EmptyString, r)
                            else (EmptyString, s)
            | EmptyString => (EmptyString, s)
            end) in H.
  assert (Hp : String.length p.2 <= String.length s).
  { unfold p. destruct s as [|c r]; [done|]. destruct (Ascii.eqb c "-"); simpl; lia. }
  destruct p as [sign s1]. simpl in Hp.
  destruct (scan_int s1) as [[i s2]|] eqn:Ei; [|done]. simpl in H.
  destruct (scan_frac s2) as [[f s3]|] eqn:Ef; [|done]. simpl in H.
  destruct (scan_exp s3) as [[e s4]|] eqn:Ee; [|done]. simpl in H.
  injection H as _ <-.
  assert (String.length s2 < String.length s1).
  { unfold scan_int in Ei. destruct s1 as [|c r]; [done|].
    destruct (Ascii.eqb c "0"); [injection Ei as _ <-; simpl; lia|].
    destruct (is_digit c) eqn:Hd; [|done].
    injection Ei as Ei. simpl in Ei. rewrite Hd in Ei.
    destruct (span_digits r) as [d t] eqn:E. injection Ei as _ <-.
    apply span_digits_length in E. simpl. lia. }
  assert (String.length s3 <= String.length s2).
  { unfold scan_frac in Ef. destruct s2 as [|c r]; [by injection Ef as _ <-|].
    destruct (Ascii.eqb c "."); [|by injection Ef as _ <-].
    destruct (starts_with_digit r); [|done].
    destruct (span_digits r) as [d t] eqn:E. injection Ef as _ <-.
    apply span_digits_length in E. simpl. lia. }
  assert (String.length s4 <= String.length s3).
  { unfold scan_exp in Ee. destruct s3 as [|c r]; [by injection Ee as _ <-|].
    destruct (Ascii.eqb c "e" || Ascii.eqb c "E"); [|by injection Ee as _ <-].
    destruct r as [|sg r1]; [done|].
    destruct (Ascii.eqb sg "+" || Ascii.eqb sg "-").
    - destruct (starts_with_digit r1); [|done].
      destruct (span_digits r1) as [d t] eqn:E. injection Ee as _ <-.
      apply span_digits_length in E. simpl. lia.
    - destruct (is_digit sg) eqn:Hd; [|done].
      destruct (span_digits (String sg r1)) as [d t] eqn:E. injection Ee as _ <-.
      apply span_digits_length in E. simpl in *. lia. }
  lia.
Qed.

Lemma prefix_drop_length (p s : string) :
  String.prefix p s = true ->
  String.length (drop (String.length p) s) + String.length p = String.length s.
Proof.
  revert s. induction p as [|a p IH]; intros s H; simpl; [lia|].
  destruct s as [|b s]; [done|]. simpl in H.
  destruct (ascii_dec a b); [|done]. specialize (IH _ H). simpl. lia.
Qed.

Ltac parse_step :=
  cbn [parse_value parse_members parse_elements mbind option_bind].
Ltac parse_step_in H :=
  cbn [parse_value parse_members parse_elements mbind option_bind] in H.

Lemma parse_enough (n : nat) :
  fuel_enough parse_value n /\ fuel_enough parse_members n /\
  fuel_enough parse_elements n.
Proof.
  induction n as [|n (IHv & IHm & IHe)]; [split; [|split]; by intros s v rest H|].
  split; [|split]; intros s v rest H; parse_step_in H.
  - pose proof (skip_ws_length s) as Hs.
    destruct (skip_ws s) as [|c r] eqn:Es; [done|]. simpl in Hs.
    destruct (Ascii.eqb c "{") eqn:Eo.
    { pose proof (skip_ws_length r) as Hr.
      destruct (skip_ws r) as [|c1 r1] eqn:Er; [done|]. simpl in Hr.
      destruct (Ascii.eqb c1 "}") eqn:Ec.
      - injection H as <- <-. split; [lia|]. intros [|m] Hm; [lia|].
        parse_step. by rewrite Es, Eo, Er, Ec.
      - destruct (parse_members n (String c1 r1)) as [[ms t]|] eqn:E; [|done].
        injection H as <- <-. destruct (IHm _ _ _ E) as [Hl Hfuel].
        simpl in Hl. split; [lia|]. intros [|m] Hm; [lia|].
        parse_step. rewrite Es, Eo, Er, Ec, Hfuel; [done|simpl; lia]. }
    destruct (Ascii.eqb c "[") eqn:Ea.
    { pose proof (skip_ws_length r) as Hr.
      destruct (skip_ws r) as [|c1 r1] eqn:Er; [done|]. simpl in Hr.
      destruct (Ascii.eqb c1 "]") eqn:Ec.
      - injection H as <- <-. split; [lia|]. intros [|m] Hm; [lia|].
        parse_step. by rewrite Es, Eo, Ea, Er, Ec.
      - destruct (parse_elements n (String c1 r1)) as [[vs t]|] eqn:E; [|done].
        injection H as <- <-. destruct (IHe _ _ _ E) as [Hl Hfuel].
        simpl in Hl. split; [lia|]. intros [|m] Hm; [lia|].
        parse_step. rewrite Es, Eo, Ea, Er, Ec, Hfuel; [done|simpl; lia]. }
    assert (Hscalar : String.length rest < String.length (String c r)).
    { destruct (Ascii.eqb c dquote).
      { destruct (scan_string r) as [[b t]|] eqn:E; [|done].
        parse_step_in H. injection H as _ <-.
        apply scan_string_length in E. simpl. lia. }
      destruct (Ascii.eqb c "-" || is_digit c).
      { destruct (scan_number (String c r)) as [[b t]|] eqn:E; [|done].
        parse_step_in H. injection H as _ <-. by apply scan_number_length in E. }
      destruct (String.prefix "true" (String c r)) eqn:E1.
      { injection H as _ <-. apply prefix_drop_length in E1. simpl in *. lia. }
      destruct (String.prefix "false" (String c r)) eqn:E2.
      { injection H as _ <-. apply prefix_drop_length in E2. simpl in *. lia. }
      destruct (String.prefix "null" (String c r)) eqn:E3; [|done].
      injection H as _ <-. apply prefix_drop_length in E3. simpl in *. lia. }
    simpl in Hscalar. split; [lia|]. intros [|m] Hm; [lia|].
    parse_step. by rewrite Es, Eo, Ea.
  - pose proof (skip_ws_length s) as Hs.
    destruct (skip_ws s) as [|q r] eqn:Es; [done|]. simpl in Hs.
    destruct (Ascii.eqb q dquote) eqn:Eq; [|done].
    destruct (scan_string r) as [[key r1]|] eqn:Ek; [|done]. parse_step_in H.
    pose proof (scan_string_length _ _ _ Ek) as Hk.
    pose proof (skip_ws_length r1) as Hr1.
    destruct (skip_ws r1) as [|colon r2] eqn:Er1; [done|]. simpl in Hr1.
    destruct (Ascii.eqb colon ":") eqn:Ecolon; [|done].
    destruct (parse_value n r2) as [[x r3]|] eqn:Ev; [|done]. parse_step_in H.
    destruct (IHv _ _ _ Ev) as [Hlv Hfv].
    pose proof (skip_ws_length r3) as Hr3.
    destruct (skip_ws r3) as [|d r4] eqn:Er3; [done|]. simpl in Hr3.
    destruct (Ascii.eqb d "}") eqn:Ed.
    + injection H as <- <-. split; [lia|]. intros [|m] Hm; [lia|].
      parse_step. rewrite Es, Eq, Ek. parse_step.
      rewrite Er1, Ecolon, Hfv by lia.
      parse_step. by rewrite Er3, Ed.
    + destruct (Ascii.eqb d ",") eqn:Ecomma; [|done].
      destruct (parse_members n r4) as [[ms t]|] eqn:E; [|done].
      injection H as <- <-. destruct (IHm _ _ _ E) as [Hl Hfm].
      split; [lia|]. intros [|m] Hm; [lia|].
      parse_step. rewrite Es, Eq, Ek. parse_step.
      rewrite Er1, Ecolon, Hfv by lia.
      parse_step. rewrite Er3, Ed, Ecomma, Hfm by lia. done.
  - destruct (parse_value n s) as [[x r1]|] eqn:Ev; [|done]. parse_step_in H.
    destruct (IHv _ _ _ Ev) as [Hlv Hfv].
    pose proof (skip_ws_length r1) as Hr1.
    destruct (skip_ws r1) as [|d r2] eqn:Er1; [done|]. simpl in Hr1.
    destruct (Ascii.eqb d "]") eqn:Ed.
    + injection H as <- <-. split; [lia|]. intros [|m] Hm; [lia|].
      parse_step. rewrite Hfv by lia. parse_step. by rewrite Er1, Ed.
    + destruct (Ascii.eqb d ",") eqn:Ecomma; [|done].
      destruct (parse_elements n r2) as [[vs t]|] eqn:E; [|done].
      injection H as <- <-. destruct (IHe _ _ _ E) as [Hl Hfe].
      split; [lia|]. intros [|m] Hm; [lia|].
      parse_step. rewrite Hfv by lia. parse_step.
      rewrite Er1, Ed, Ecomma, Hfe by lia. done.
Qed.

(** The fuel [parse] supplies is enough: a document that some fuel parses,
    [parse] parses. *)
Lemma parse_value_fuel (n : nat) (data : string) (v : json) (rest : string) :
  parse_value n data = Some (v, rest) ->
  parse_value (S (String.length data)) data = Some (v, rest).
Proof.
  intros H. destruct (parse_enough n) as [Hv _].
  destruct (Hv _ _ _ H) as [_ Hfuel]. apply Hfuel. lia.
Qed.

Lemma parse_any_fuel (n : nat) (data : string) (v : json) (rest : string) :
  parse_value n data = Some (v, rest) -> skip_ws rest = EmptyString ->
  parse data = Some v.
Proof.
  intros H Hrest. unfold parse. rewrite (parse_value_fuel _ _ _ _ H). simpl.
  by rewrite Hrest.
Qed.

(** *** The text of strings and numbers

    What a scanner read, it reads again from the text it returned, whole,
    whatever follows a string's closing quote and when no character that
    goes on a number follows a number. *)

Lemma scan_string_text (s body rest : string) :
  scan_string s = Some (body, rest) -> string_text body.
Proof.
  revert body rest. induction s as [s IH] using BytesFacts.string_length_ind.
  intros body rest H t. destruct s as [|c r]; [done|]. simpl in H.
  destruct (Ascii.eqb c dquote) eqn:Eq.
  { injection H as <- _. by push_append. }
  destruct (N.ltb (code c) 32) eqn:El; [done|].
  destruct (Ascii.eqb c "\") eqn:Eb.
  - destruct r as [|e r1]; [done|].
    destruct (is_escape e) eqn:Ee.
    + destruct (scan_string r1) as [[b u]|] eqn:E; [|done].
      injection H as <- _. push_append. simpl. rewrite Eq, El, Eb, Ee.
      rewrite (IH r1 ltac:(simpl; lia) _ _ E t). done.
    + destruct (Ascii.eqb e "u") eqn:Eu; [|done].
      destruct r1 as [|h1 [|h2 [|h3 [|h4 r2]]]]; try done.
      destruct (is_hex h1 && is_hex h2 && is_hex h3 && is_hex h4) eqn:Eh; [|done].
      destruct (scan_string r2) as [[b u]|] eqn:E; [|done].
      injection H as <- _. push_append. simpl. rewrite Eq, El, Eb, Ee, Eu, Eh.
      rewrite (IH r2 ltac:(simpl; lia) _ _ E t). done.
  - destruct (scan_string r) as [[b u]|] eqn:E; [|done].
    injection H as <- _. push_append. simpl. rewrite Eq, El, Eb.
    rewrite (IH r ltac:(simpl; lia) _ _ E t). done.
Qed.

Lemma span_digits_text (s ds t rest : string) :
  span_digits s = (ds, t) -> stops is_digit rest ->
  span_digits (ds +:+ rest) = (ds, rest).
Proof.
  revert ds t. induction s as [|c r IH]; intros ds t H Hrest; simpl in H.
  - injection H as <- _. push_append. destruct rest as [|x rest]; [done|].
    simpl in *. by rewrite Hrest.
  - destruct (is_digit c) eqn:Hd.
    + destruct (span_digits r) as [d u] eqn:E. injection H as <- _.
      push_append. simpl. rewrite Hd. by rewrite (IH _ _ eq_refl Hrest).
    + injection H as <- _. push_append. destruct rest as [|x rest]; [done|].
      simpl in *. by rewrite Hrest.
Qed.

Lemma span_digits_head (s ds t : string) :
  starts_with_digit s = true -> span_digits s = (ds, t) ->
  exists d ds', ds = String d ds' /\ is_digit d = true.
Proof.
  destruct s as [|c r]; [done|]. simpl. intros Hd H. rewrite Hd in H.
  destruct (span_digits r) as [d u]. injection H as <- _. by exists c, d.
Qed.

Lemma stops_weaken (p q : ascii -> bool) (rest : string) :
  (forall c, p c = false -> q c = false) -> stops p rest -> stops q rest.
Proof. intros H. destruct rest as [|c rest]; [done|]. apply H. Qed.

Lemma scan_exp_text (s e t rest : string) :
  scan_exp s = Some (e, t) -> stops number_char rest ->
  scan_exp (e +:+ rest) = Some (e, rest) /\ stops frac_char (e +:+ rest).
Proof.
  intros H Hrest.
  assert (Hd : stops is_digit rest).
  { revert Hrest. apply stops_weaken. unfold number_char. intros c Hc.
    by repeat (apply orb_false_iff in Hc as [Hc _]). }
  assert (Hnone : scan_exp rest = Some (EmptyString, rest) /\ stops frac_char rest).
  { destruct rest as [|c rest]; [done|]. simpl in *. unfold number_char in Hrest.
    apply orb_false_iff in Hrest as [Hrest HE].
    apply orb_false_iff in Hrest as [Hrest He].
    by rewrite He, HE. }
  unfold scan_exp in H. destruct s as [|c r]; [by injection H as <- _|].
  destruct (Ascii.eqb c "e" || Ascii.eqb c "E") eqn:Ec; [|by injection H as <- _].
  assert (Hc : frac_char c = false).
  { apply orb_true_iff in Ec as [->%Ascii.eqb_eq| ->%Ascii.eqb_eq]; done. }
  destruct r as [|sg r1]; [done|].
  destruct (Ascii.eqb sg "+" || Ascii.eqb sg "-") eqn:Esg.
  - destruct (starts_with_digit r1) eqn:Hs; [|done].
    destruct (span_digits r1) as [ds u] eqn:E. injection H as <- _.
    destruct (span_digits_head _ _ _ Hs E) as (d & ds' & -> & Hdd).
    pose proof (span_digits_text _ _ _ rest E Hd) as Hre.
    push_append. split; [|exact Hc]. unfold scan_exp. rewrite Ec, Esg.
    cbn [starts_with_digit]. rewrite Hdd. push_append_in Hre. by rewrite Hre.
  - destruct (is_digit sg) eqn:Hsg; [|done].
    destruct (span_digits (String sg r1)) as [ds u] eqn:E. injection H as <- _.
    destruct (span_digits_head (String sg r1) _ _ Hsg E) as (d & ds' & -> & Hdd).
    assert (d = sg) as ->.
    { simpl in E. rewrite Hsg in E. destruct (span_digits r1). by injection E. }
    pose proof (span_digits_text _ _ _ rest E Hd) as Hre.
    push_append. split; [|exact Hc]. unfold scan_exp. rewrite Ec, Esg, Hsg.
    push_append_in Hre. by rewrite Hre.
Qed.

Lemma scan_frac_text (s f t rest : string) :
  scan_frac s = Some (f, t) -> stops frac_char rest ->
  scan_frac (f +:+ rest) = Some (f, rest) /\ stops is_digit (f +:+ rest).
Proof.
  intros H Hrest.
  assert (Hd : stops is_digit rest).
  { revert Hrest. apply stops_weaken. unfold frac_char. intros c Hc.
    by apply orb_false_iff in Hc as [Hc _]. }
  assert (Hnone : scan_frac rest = Some (EmptyString, rest) /\ stops is_digit rest).
  { split; [|done]. destruct rest as [|c rest]; [done|]. simpl in *.
    unfold frac_char in Hrest. apply orb_false_iff in Hrest as [_ Hdot].
    by rewrite Hdot. }
  unfold scan_frac in H. destruct s as [|c r]; [by injection H as <- _|].
  destruct (Ascii.eqb c ".") eqn:Ec; [|by injection H as <- _].
  destruct (starts_with_digit r) eqn:Hs; [|done].
  destruct (span_digits r) as [ds u] eqn:E. injection H as <- _.
  destruct (span_digits_head _ _ _ Hs E) as (d & ds' & -> & Hdd).
  pose proof (span_digits_text _ _ _ rest E Hd) as Hre.
  push_append. split.
  - unfold scan_frac. rewrite Ec. cbn [starts_with_digit]. rewrite Hdd.
    push_append_in Hre. by rewrite Hre.
  - simpl. apply Ascii.eqb_eq in Ec. by subst c.
Qed.

Lemma scan_int_text (s i t rest : string) :
  scan_int s = Some (i, t) -> stops is_digit rest ->
  scan_int (i +:+ rest) = Some (i, rest) /\
  exists d i', i = String d i' /\ is_digit d = true.
Proof.
  intros H Hrest. unfold scan_int in H. destruct s as [|c r]; [done|].
  destruct (Ascii.eqb c "0") eqn:E0.
  - injection H as <- _. push_append. split; [unfold scan_int; by rewrite E0|].
    exists c, EmptyString. split; [done|]. apply Ascii.eqb_eq in E0. by subst c.
  - destruct (is_digit c) eqn:Hc; [|done]. injection H as H.
    destruct (span_digits_head (String c r) _ _ Hc H) as (d & ds' & -> & Hdd).
    assert (d = c) as ->.
    { simpl in H. rewrite Hc in H. destruct (span_digits r). by injection H. }
    pose proof (span_digits_text (String c r) _ _ rest H Hrest) as Hre.
    split; [|by exists c, ds'].
    push_append. unfold scan_int. rewrite E0, Hc. push_append_in Hre. by rewrite Hre.
Qed.

Lemma digit_not_minus (c : ascii) : is_digit c = true -> Ascii.eqb c "-" = false.
Proof.
  intros Hd. destruct (Ascii.eqb c "-") eqn:E; [|done].
  apply Ascii.eqb_eq in E. by subst c.
Qed.

Lemma delimited_stops (rest : string) : delimited rest -> stops number_char rest.
Proof.
  destruct rest as [|c rest]; [done|]. simpl. unfold delimiter. intros H.
  apply orb_true_iff in H as [H|H]; [apply orb_true_iff in H as [H|H]|];
    apply Ascii.eqb_eq in H; by subst c.
Qed.

Lemma scan_number_text (s num t : string) :
  scan_number s = Some (num, t) ->
  number_text num /\
  exists c r, num = String c r /\ (Ascii.eqb c "-" || is_digit c) = true.
Proof.
  intros H. unfold scan_number in H.
  set (p := match s with
            | String c r => if Ascii.eqb c "-" then (String c EmptyString, r)
                            else (EmptyString, s)
            | EmptyString => (EmptyString, s)
            end) in H.
  assert (Hp : (exists c, p.1 = String c EmptyString /\ Ascii.eqb c "-" = true)
               \/ p.1 = EmptyString).
  { unfold p. destruct s as [|c r]; [by right|].
    destruct (Ascii.eqb c "-") eqn:E; [left; by exists c|by right]. }
  destruct p as [sign s1]. simpl in Hp.
  destruct (scan_int s1) as [[i s2]|] eqn:Ei; [|done]. simpl in H.
  destruct (scan_frac s2) as [[f s3]|] eqn:Ef; [|done]. simpl in H.
  destruct (scan_exp s3) as [[e s4]|] eqn:Ee; [|done]. simpl in H.
  injection H as <- _.
  assert (Hre : forall rest, stops number_char rest ->
            scan_int (i +:+ f +:+ e +:+ rest) = Some (i, f +:+ e +:+ rest) /\
            scan_frac (f +:+ e +:+ rest) = Some (f, e +:+ rest) /\
            scan_exp (e +:+ rest) = Some (e, rest)).
  { intros rest Hrest.
    destruct (scan_exp_text _ _ _ rest Ee Hrest) as [He1 He2].
    destruct (scan_frac_text _ _ _ _ Ef He2) as [Hf1 Hf2].
    destruct (scan_int_text _ _ _ _ Ei Hf2) as [Hi1 _]. done. }
  destruct (scan_int_text _ _ _ EmptyString Ei I) as [_ (d & i' & -> & Hd)].
  split.
  - intros rest Hrest%delimited_stops.
    destruct (Hre rest Hrest) as (Hi & Hf & He).
    rewrite !append_assoc. unfold scan_number.
    destruct Hp as [(c & -> & Ec)| ->]; push_append.
    + rewrite Ec. push_append_in Hi. rewrite Hi. cbn [mbind option_bind].
      rewrite Hf. cbn [mbind option_bind]. rewrite He. done.
    + rewrite (digit_not_minus _ Hd). push_append_in Hi. rewrite Hi.
      cbn [mbind option_bind]. rewrite Hf. cbn [mbind option_bind].
      rewrite He. done.
  - destruct Hp as [(c & -> & Ec)| ->]; push_append.
    + exists c. eexists. split; [done|]. by rewrite Ec.
    + exists d. eexists. split; [done|]. rewrite Hd. apply orb_true_r.
Qed.

(** *** Parsed values are well formed *)

Lemma render_array (vs : list json) :
  render (JArray vs) = "[" +:+ render_items vs +:+ "]".
Proof. done. Qed.

Lemma render_object (ms : list (string * json)) :
  render (JObject ms) = "{" +:+ render_members ms +:+ "}".
Proof. done. Qed.

Lemma json_nested_ind (P : json -> Prop) :
  P JNull -> P JTrue -> P JFalse ->
  (forall raw, P (JNumber raw)) -> (forall raw, P (JString raw)) ->
  (forall vs, Forall P vs -> P (JArray vs)) ->
  (forall ms, Forall (fun m => P m.2) ms -> P (JObject ms)) ->
  forall v, P v.
Proof.
  intros Hnull Htrue Hfalse Hnum Hstr Harr Hobj.
  fix IH 1.
  intros [| | |raw|raw|vs|ms];
    [exact Hnull|exact Htrue|exact Hfalse|apply Hnum|apply Hstr|..].
  - apply Harr. induction vs as [|x vs IHvs]; constructor; [apply IH|exact IHvs].
  - apply Hobj. induction ms as [|[k x] ms IHms]; constructor; [apply IH|exact IHms].
Qed.

(** What the parser reads is well formed. *)
Lemma parse_well_formed_fuel (n : nat) :
  (forall s v rest, parse_value n s = Some (v, rest) -> well_formed v) /\
  (forall s ms rest, parse_members n s = Some (ms, rest) ->
     Forall (fun m => string_text m.1 /\ well_formed m.2) ms) /\
  (forall s vs rest, parse_elements n s = Some (vs, rest) ->
     Forall well_formed vs).
Proof.
  induction n as [|n (IHv & IHm & IHe)]; [split; [|split]; by intros s v rest H|].
  split; [|split]; intros s v rest H; parse_step_in H.
  - destruct (skip_ws s) as [|c r] eqn:Es; [done|].
    destruct (Ascii.eqb c "{") eqn:Eo.
    { destruct (skip_ws r) as [|c1 r1] eqn:Er; [done|].
      destruct (Ascii.eqb c1 "}") eqn:Ec.
      - injection H as <- _. by constructor.
      - destruct (parse_members n (String c1 r1)) as [[ms t]|] eqn:E; [|done].
        injection H as <- _. constructor. by apply (IHm _ _ _ E). }
    destruct (Ascii.eqb c "[") eqn:Ea.
    { destruct (skip_ws r) as [|c1 r1] eqn:Er; [done|].
      destruct (Ascii.eqb c1 "]") eqn:Ec.
      - injection H as <- _. by constructor.
      - destruct (parse_elements n (String c1 r1)) as [[vs t]|] eqn:E; [|done].
        injection H as <- _. constructor. by apply (IHe _ _ _ E). }
    destruct (Ascii.eqb c dquote).
    { destruct (scan_string r) as [[b t]|] eqn:E; [|done].
      parse_step_in H. injection H as <- _.
      constructor. by apply (scan_string_text _ _ _ E). }
    destruct (Ascii.eqb c "-" || is_digit c).
    { destruct (scan_number (String c r)) as [[b t]|] eqn:E; [|done].
      parse_step_in H. injection H as <- _.
      destruct (scan_number_text _ _ _ E). by constructor. }
    destruct (String.prefix "true" (String c r)); [injection H as <- _; constructor|].
    destruct (String.prefix "false" (String c r)); [injection H as <- _; constructor|].
    destruct (String.prefix "null" (String c r)); [injection H as <- _; constructor|done].
  - destruct (skip_ws s) as [|q r] eqn:Es; [done|].
    destruct (Ascii.eqb q dquote) eqn:Eq; [|done].
    destruct (scan_string r) as [[key r1]|] eqn:Ek; [|done].
    parse_step_in H.
    destruct (skip_ws r1) as [|colon r2] eqn:Er1; [done|].
    destruct (Ascii.eqb colon ":") eqn:Ecolon; [|done].
    destruct (parse_value n r2) as [[x r3]|] eqn:Ev; [|done].
    parse_step_in H.
    destruct (skip_ws r3) as [|d r4] eqn:Er3; [done|].
    assert (Hm : string_text key /\ well_formed x).
    { split; [by apply (scan_string_text _ _ _ Ek)|by apply (IHv _ _ _ Ev)]. }
    destruct (Ascii.eqb d "}") eqn:Ed.
    + injection H as <- _. constructor; [exact Hm|constructor].
    + destruct (Ascii.eqb d ",") eqn:Ecomma; [|done].
      destruct (parse_members n r4) as [[ms t]|] eqn:E; [|done].
      injection H as <- _. constructor; [done|]. by apply (IHm _ _ _ E).
  - destruct (parse_value n s) as [[x r1]|] eqn:Ev; [|done].
    parse_step_in H.
    destruct (skip_ws r1) as [|d r2] eqn:Er1; [done|].
    destruct (Ascii.eqb d "]") eqn:Ed.
    + injection H as <- _. constructor; [by apply (IHv _ _ _ Ev)|constructor].
    + destruct (Ascii.eqb d ",") eqn:Ecomma; [|done].
      destruct (parse_elements n r2) as [[vs t]|] eqn:E; [|done].
      injection H as <- _. constructor; [by apply (IHv _ _ _ Ev)|].
      by apply (IHe _ _ _ E).
Qed.

Lemma parse_well_formed (data : string) (v : json) :
  parse data = Some v -> well_formed v.
Proof.
  unfold parse. intros H.
  destruct (parse_value (S (String.length data)) data) as [[x rest]|] eqn:E; [|done].
  simpl in H. destruct (skip_ws rest); [|done]. injection H as <-.
  by apply (proj1 (parse_well_formed_fuel _) _ _ _ E).
Qed.

(** *** Printing, then parsing *)

Lemma skip_ws_token (c : ascii) (r : string) :
  is_ws c = false -> skip_ws (String c r) = String c r.
Proof. intros H. simpl. by rewrite H. Qed.

Lemma number_start (c : ascii) :
  (Ascii.eqb c "-" || is_digit c) = true ->
  token_start c /\ Ascii.eqb c "{" = false /\ Ascii.eqb c "[" = false /\
  Ascii.eqb c dquote = false.
Proof.
  unfold token_start.
  destruct c as [[] [] [] [] [] [] [] []]; vm_compute; intuition congruence.
Qed.

Lemma render_head (v : json) :
  well_formed v -> exists c r, render v = String c r /\ token_start c.
Proof.
  intros [| | |raw Hn (c & r & -> & Hc)|raw Hs|vs Hvs|ms Hms];
    try (eexists _, _; split; [reflexivity|by vm_compute]).
  exists c, r. split; [done|]. by apply number_start.
Qed.

Lemma parse_value_array (m : nat) (r : string) :
  parse_value (S m) (String "[" r)
  = match skip_ws r with
    | String c1 r1 =>
        if Ascii.eqb c1 "]" then Some (JArray [], r1)
        else '(vs, rest) ← parse_elements m (String c1 r1); Some (JArray vs, rest)
    | EmptyString => None
    end.
Proof. done. Qed.

Lemma parse_value_object (m : nat) (r : string) :
  parse_value (S m) (String "{" r)
  = match skip_ws r with
    | String c1 r1 =>
        if Ascii.eqb c1 "}" then Some (JObject [], r1)
        else '(ms, rest) ← parse_members m (String c1 r1); Some (JObject ms, rest)
    | EmptyString => None
    end.
Proof. done. Qed.

Lemma parse_value_string (m : nat) (r : string) :
  parse_value (S m) (String dquote r)
  = '(body, rest) ← scan_string r; Some (JString body, rest).
Proof. done. Qed.

Lemma parse_value_number (m : nat) (c : ascii) (r : string) :
  (Ascii.eqb c "-" || is_digit c) = true ->
  parse_value (S m) (String c r)
  = '(num, rest) ← scan_number (String c r); Some (JNumber num, rest).
Proof.
  intros Hc. destruct (number_start c Hc) as ((Hws & _ & _) & Ho & Ha & Hq).
  parse_step. rewrite (skip_ws_token _ _ Hws), Ho, Ha, Hq.
  by rewrite Hc.
Qed.

Lemma parse_elements_step (m : nat) (s : string) :
  parse_elements (S m) s
  = '(v, r1) ← parse_value m s;
    match skip_ws r1 with
    | String d r2 =>
        if Ascii.eqb d "]" then Some ([v], r2)
        else if Ascii.eqb d "," then
          '(vs, rest) ← parse_elements m r2; Some (v :: vs, rest)
        else None
    | EmptyString => None
    end.
Proof. done. Qed.

Lemma parse_members_step (m : nat) (r : string) :
  parse_members (S m) (String dquote r)
  = '(key, r1) ← scan_string r;
    match skip_ws r1 with
    | String colon r2 =>
        if Ascii.eqb colon ":" then
          '(v, r3) ← parse_value m r2;
          match skip_ws r3 with
          | String d r4 =>
              if Ascii.eqb d "}" then Some ([(key, v)], r4)
              else if Ascii.eqb d "," then
                '(ms, rest) ← parse_members m r4; Some ((key, v) :: ms, rest)
              else None
          | EmptyString => None
          end
        else None
    | EmptyString => None
    end.
Proof. done. Qed.

Lemma render_items_one (x : json) : render_items [x] = render x.
Proof. done. Qed.

Lemma render_items_more (x y : json) (vs : list json) :
  render_items (x :: y :: vs) = render x +:+ "," +:+ render_items (y :: vs).
Proof. done. Qed.

Lemma render_members_one (k : string) (x : json) :
  render_members [(k, x)] = quoted k +:+ ":" +:+ render x.
Proof. done. Qed.

Lemma render_members_more (k : string) (x : json) (m : string * json)
    (ms : list (string * json)) :
  render_members ((k, x) :: m :: ms)
  = quoted k +:+ ":" +:+ render x +:+ "," +:+ render_members (m :: ms).
Proof. done. Qed.

Lemma render_items_parse (x : json) (vs : list json) :
  Forall reparsed (x :: vs) ->
  forall rest m, String.length (render_items (x :: vs)) + 1 <= m ->
    parse_elements m (render_items (x :: vs) +:+ String "]" rest)
    = Some (x :: vs, rest).
Proof.
  revert x. induction vs as [|y vs IH]; intros x Hall rest m Hm;
    apply Forall_cons in Hall as [Hx Hall].
  - rewrite render_items_one in *.
    destruct m as [|m]; [lia|]. rewrite parse_elements_step.
    rewrite Hx; [|done|lia]. done.
  - rewrite render_items_more in *. rewrite !length_append in Hm.
    change (String.length ",") with 1 in Hm.
    destruct m as [|m]; [lia|]. rewrite parse_elements_step.
    rewrite !append_assoc. push_append.
    rewrite Hx; [|by vm_compute|lia]. cbn [mbind option_bind].
    rewrite skip_ws_token by done.
    change (Ascii.eqb "," "]") with false. change (Ascii.eqb "," ",") with true.
    cbn iota. rewrite IH; [done|done|lia].
Qed.

Lemma render_members_parse (k : string) (x : json) (ms : list (string * json)) :
  Forall (fun m => string_text m.1 /\ reparsed m.2) ((k, x) :: ms) ->
  forall rest m, String.length (render_members ((k, x) :: ms)) + 1 <= m ->
    parse_members m (render_members ((k, x) :: ms) +:+ String "}" rest)
    = Some ((k, x) :: ms, rest).
Proof.
  revert k x. induction ms as [|[k' y] ms IH]; intros k x Hall rest m Hm;
    apply Forall_cons in Hall as [[Hk Hx] Hall]; simpl in Hk, Hx;
    rewrite ?render_members_one, ?render_members_more in *;
    rewrite !length_append in Hm;
    change (String.length ",") with 1 in Hm;
    change (String.length ":") with 1 in Hm;
    (destruct m as [|m]; [lia|]); unfold quoted; rewrite !append_assoc; push_append;
    rewrite !append_assoc; push_append;
    rewrite parse_members_step, Hk; cbn [mbind option_bind];
    rewrite skip_ws_token by done;
    change (Ascii.eqb ":" ":") with true; cbn iota.
  - rewrite Hx; [|by vm_compute|lia]. done.
  - rewrite Hx; [|by vm_compute|lia]. cbn [mbind option_bind].
    rewrite skip_ws_token by done.
    change (Ascii.eqb "," "}") with false. change (Ascii.eqb "," ",") with true.
    cbn iota. rewrite IH; [done|done|lia].
Qed.

Lemma length_quoted (raw : string) :
  String.length (quoted raw) = String.length raw + 2.
Proof. unfold quoted. simpl. rewrite length_append. simpl. lia. Qed.

Lemma well_formed_reparsed (v : json) : well_formed v -> reparsed v.
Proof.
  induction v as [| | |raw|raw|vs IH|ms IH] using json_nested_ind;
    intros Hwf rest m Hrest Hm.
  - destruct m as [|m]; [simpl in Hm; lia|]. by destruct rest.
  - destruct m as [|m]; [simpl in Hm; lia|]. by destruct rest.
  - destruct m as [|m]; [simpl in Hm; lia|]. by destruct rest.
  - inversion Hwf as [| | |? Hn (c & r & -> & Hc)| | |]; subst.
    destruct m as [|m]; [simpl in Hm; lia|].
    cbn [render]. push_append. rewrite parse_value_number by done.
    rewrite <- append_cons, (Hn rest Hrest). done.
  - inversion Hwf as [| | | |? Hs| |]; subst.
    destruct m as [|m]; [simpl in Hm; lia|].
    cbn [render]. unfold quoted. push_append. rewrite append_assoc. push_append.
    rewrite parse_value_string, Hs. done.
  - inversion Hwf as [| | | | |? Hvs|]; subst.
    rewrite render_array in *. rewrite !length_append in Hm.
    change (String.length "[") with 1 in Hm.
    change (String.length "]") with 1 in Hm.
    destruct m as [|m]; [lia|]. rewrite !append_assoc. push_append.
    rewrite parse_value_array.
    destruct vs as [|x vs]; [done|].
    assert (Hre : Forall reparsed (x :: vs)).
    { apply Forall_forall. intros y Hy. rewrite Forall_forall in IH, Hvs.
      by apply IH, Hvs. }
    apply Forall_cons in Hvs as [Hx _].
    destruct (render_head x Hx) as (c & r & Hr & Hws & Hc & _).
    pose proof (render_items_parse x vs Hre rest m ltac:(lia)) as Hp.
    assert (exists r', render_items (x :: vs) +:+ String "]" rest
                               = String c r') as [r' Hr'].
    { destruct vs; rewrite ?render_items_one, ?render_items_more, Hr; push_append;
        by eexists. }
    rewrite Hr' in *. rewrite skip_ws_token, Hc, Hp by done. done.
  - inversion Hwf as [| | | | | |? Hms]; subst.
    rewrite render_object in *. rewrite !length_append in Hm.
    change (String.length "{") with 1 in Hm.
    change (String.length "}") with 1 in Hm.
    destruct m as [|m]; [lia|]. rewrite !append_assoc. push_append.
    rewrite parse_value_object.
    destruct ms as [|[k x] ms]; [done|].
    assert (Hre : Forall (fun m => string_text m.1 /\ reparsed m.2) ((k, x) :: ms)).
    { apply Forall_forall. intros y Hy. rewrite Forall_forall in IH, Hms.
      destruct (Hms y Hy). split; [done|]. by apply IH. }
    pose proof (render_members_parse k x ms Hre rest m ltac:(lia)) as Hp.
    assert (exists r', render_members ((k, x) :: ms) +:+ String "}" rest
                               = String dquote r') as [r' Hr'].
    { destruct ms; rewrite ?render_members_one, ?render_members_more;
        unfold quoted; push_append; by eexists. }
    rewrite Hr' in *. rewrite skip_ws_token by done.
    change (Ascii.eqb dquote "}") with false. cbn iota. rewrite Hp. done.
Qed.

(** A well-formed document, printed, parses back to itself. *)
Theorem parse_render (v : json) : well_formed v -> parse (render v) = Some v.
Proof.
  intros Hwf. unfold parse.
  pose proof (well_formed_reparsed v Hwf EmptyString
                (S (String.length (render v))) I ltac:(lia)) as H.
  rewrite append_empty_r in H. by rewrite H.
Qed.

(** So does a document that was parsed. *)
Corollary parse_render_parse (data : string) (v : json) :
  parse data = Some v -> parse (render v) = Some v.
Proof. intros H. by apply parse_render, (parse_well_formed data). Qed.

End parser_props.

(** ** JSON lookups and edits *)

Module json_props.

Import Bytes gjson sjson executor.

(** Membership in a literal list of names. *)
Ltac name_list :=
  rewrite ?elem_of_cons, ?elem_of_nil in *; unfold usageKey, shadowKey in *;
  intuition (try congruence; try discriminate).

Lemma key_matches_true (k p : string) : key_matches k p = true <-> unescape k = p.
Proof. unfold key_matches. apply bool_decide_eq_true. Qed.

Lemma key_matches_other (k p q : string) :
  q <> p -> key_matches k p = true -> key_matches k q = false.
Proof.
  intros Hne Hp%key_matches_true. unfold key_matches.
  apply bool_decide_eq_false. congruence.
Qed.

Lemma lookup_replace_same (p : string) (x : json) (ms : list (string * json)) :
  is_Some (lookup_key p ms) -> lookup_key p (replace_member p x ms) = Some x.
Proof.
  induction ms as [|[k y] ms IH]; simpl; [by intros [? ?]|].
  destruct (key_matches k p) eqn:Hk; simpl; rewrite Hk; [done|exact IH].
Qed.

Lemma lookup_replace_other (p q : string) (x : json) (ms : list (string * json)) :
  q <> p -> lookup_key q (replace_member p x ms) = lookup_key q ms.
Proof.
  intros Hne. induction ms as [|[k y] ms IH]; simpl; [done|].
  destruct (key_matches k p) eqn:Hk; simpl.
  - by rewrite (key_matches_other k p q Hne Hk).
  - by rewrite IH.
Qed.

Lemma lookup_remove_other (p q : string) (ms : list (string * json)) :
  q <> p -> lookup_key q (remove_member p ms) = lookup_key q ms.
Proof.
  intros Hne. induction ms as [|[k y] ms IH]; simpl; [done|].
  destruct (key_matches k p) eqn:Hk; simpl.
  - by rewrite (key_matches_other k p q Hne Hk).
  - by rewrite IH.
Qed.

Lemma lookup_app_single (q k : string) (x : json) (ms : list (string * json)) :
  lookup_key q (ms ++ [(k, x)])
  = match lookup_key q ms with
    | Some y => Some y
    | None => if key_matches k q then Some x else None
    end.
Proof.
  induction ms as [|[k' y] ms IH]; simpl; [done|].
  by destruct (key_matches k' q).
Qed.

Lemma count_replace (p q : string) (x : json) (ms : list (string * json)) :
  count_key q (replace_member p x ms) = count_key q ms.
Proof.
  induction ms as [|[k y] ms IH]; simpl; [done|].
  destruct (key_matches k p); simpl; by rewrite ?IH.
Qed.

Lemma count_remove_same (p : string) (ms : list (string * json)) :
  is_Some (lookup_key p ms) ->
  (count_key p (remove_member p ms) + 1 = count_key p ms)%nat.
Proof.
  induction ms as [|[k y] ms IH]; simpl; [by intros [? ?]|].
  destruct (key_matches k p) eqn:Hk; simpl; [lia|].
  intros H. rewrite Hk. simpl. by apply IH.
Qed.

Lemma count_remove_other (p q : string) (ms : list (string * json)) :
  q <> p -> count_key q (remove_member p ms) = count_key q ms.
Proof.
  intros Hne. induction ms as [|[k y] ms IH]; simpl; [done|].
  destruct (key_matches k p) eqn:Hk; simpl.
  - by rewrite (key_matches_other k p q Hne Hk).
  - by rewrite IH.
Qed.

Lemma count_app_single (q k : string) (x : json) (ms : list (string * json)) :
  count_key q (ms ++ [(k, x)])
  = (count_key q ms + if key_matches k q then 1 else 0)%nat.
Proof.
  induction ms as [|[k' y] ms IH]; simpl; [lia|]. rewrite IH. lia.
Qed.

Lemma count_zero_lookup (p : string) (ms : list (string * json)) :
  count_key p ms = O -> lookup_key p ms = None.
Proof.
  induction ms as [|[k y] ms IH]; simpl; [done|].
  destruct (key_matches k p); simpl; [lia|exact IH].
Qed.

Lemma replace_replace (p : string) (x y : json) (ms : list (string * json)) :
  replace_member p y (replace_member p x ms) = replace_member p y ms.
Proof.
  induction ms as [|[k z] ms IH]; simpl; [done|].
  destruct (key_matches k p) eqn:Hk; simpl; rewrite Hk; [done|by rewrite IH].
Qed.

(** A one-part path finds the first member of that name. *)
Lemma get_parts_one (p : string) (ms : list (string * json)) :
  get_parts [p] (JObject ms) = lookup_key p ms.
Proof.
  simpl. induction ms as [|[k y] ms IH]; simpl; [done|].
  by destruct (key_matches k p).
Qed.

Lemma scan_members_none (below : json -> option json) (p : string)
    (ms : list (string * json)) :
  count_key p ms = O -> scan_members below p ms = None.
Proof.
  induction ms as [|[k y] ms IH]; simpl; [done|].
  destruct (key_matches k p); [lia|exact IH].
Qed.

(** A path whose first part names one member at most looks below that
    member. *)
Lemma scan_members_unique (below : json -> option json) (p : string)
    (ms : list (string * json)) :
  (count_key p ms <= 1)%nat ->
  scan_members below p ms = lookup_key p ms ≫= below.
Proof.
  induction ms as [|[k y] ms IH]; simpl; [done|].
  destruct (key_matches k p) eqn:Hk; simpl.
  - intros Hc. rewrite scan_members_none by lia. by destruct (below y).
  - exact IH.
Qed.

Lemma key_matches_shadow (part : string) :
  key_matches shadowKey part = bool_decide (shadowKey = part).
Proof. reflexivity. Qed.

Lemma shadowRename_renamed (u : json) (ms : list (string * json)) :
  lookup_key usageKey ms = Some u -> renamed u ms (shadowRename u ms).
Proof.
  intros Hu. unfold renamed, shadowRename.
  assert (Hne : shadowKey <> usageKey) by done.
  destruct (lookup_key shadowKey ms) as [old|] eqn:Hs.
  - split; [|split].
    + rewrite lookup_remove_other by done. apply lookup_replace_same. by rewrite Hs.
    + rewrite count_remove_same, count_replace; [done|].
      rewrite lookup_replace_other by done. by rewrite Hu.
    + intros part H1 H2.
      rewrite lookup_remove_other, lookup_replace_other by done.
      by rewrite count_remove_other, count_replace.
  - split; [|split].
    + rewrite lookup_remove_other, lookup_app_single, Hs by done.
      rewrite key_matches_shadow. by rewrite bool_decide_eq_true_2.
    + rewrite count_remove_same.
      * rewrite count_app_single. rewrite key_matches_shadow.
        rewrite bool_decide_eq_false_2 by done. lia.
      * rewrite lookup_app_single, Hu. eauto.
    + intros part H1 H2.
      rewrite lookup_remove_other, lookup_app_single by done.
      rewrite count_remove_other, count_app_single by done.
      rewrite key_matches_shadow, bool_decide_eq_false_2 by done.
      split; [by destruct (lookup_key part ms)|lia].
Qed.

Lemma set_parts_shadow (u : json) (ms : list (string * json)) :
  set_parts [shadowKey] u (JObject ms)
  = Some (JObject (match lookup_key shadowKey ms with
                   | Some _ => replace_member shadowKey u ms
                   | None => ms ++ [(shadowKey, u)]
                   end)).
Proof. cbn [set_parts]. by destruct (lookup_key shadowKey ms). Qed.

Lemma lookup_usage_after_set (u : json) (ms : list (string * json)) :
  lookup_key usageKey
    (match lookup_key shadowKey ms with
     | Some _ => replace_member shadowKey u ms
     | None => ms ++ [(shadowKey, u)]
     end)
  = lookup_key usageKey ms.
Proof.
  destruct (lookup_key shadowKey ms).
  - by apply lookup_replace_other.
  - rewrite lookup_app_single. by destruct (lookup_key usageKey ms).
Qed.

Lemma SetRaw_Delete_top (u : json) (ms : list (string * json)) :
  lookup_key usageKey ms = Some u ->
  Delete (SetRaw (JObject ms) "cpaUsageMetadata" u) "usageMetadata"
  = JObject (shadowRename u ms).
Proof.
  intros Hu. unfold SetRaw, Delete, shadowRename.
  change (path_parts "cpaUsageMetadata") with [shadowKey].
  change (path_parts "usageMetadata") with [usageKey].
  rewrite set_parts_shadow. cbn [from_option id delete_parts].
  by rewrite lookup_usage_after_set, Hu.
Qed.

Lemma SetRaw_Delete_wrapped (u : json) (ms rs : list (string * json)) :
  lookup_key "response" ms = Some (JObject rs) ->
  lookup_key usageKey rs = Some u ->
  Delete (SetRaw (JObject ms) "response.cpaUsageMetadata" u)
         "response.usageMetadata"
  = JObject (replace_member "response" (JObject (shadowRename u rs)) ms).
Proof.
  intros Hr Hu. unfold SetRaw, Delete, shadowRename.
  change (path_parts "response.cpaUsageMetadata") with ["response"; shadowKey].
  change (path_parts "response.usageMetadata") with ["response"; usageKey].
  cbn [set_parts]. rewrite Hr. fold (set_parts [shadowKey] u (JObject rs)).
  rewrite set_parts_shadow. cbn [mbind option_bind from_option id delete_parts].
  rewrite lookup_replace_same by (rewrite Hr; eauto).
  by rewrite lookup_usage_after_set, Hu, replace_replace.
Qed.




Lemma shadowRename_moved (u : json) (ms : list (string * json)) :
  lookup_key usageKey ms = Some u ->
  moved u ms (shadowRename u ms) /\ kept [usageKey; shadowKey] ms (shadowRename u ms).
Proof.
  intros Hu. destruct (shadowRename_renamed u ms Hu) as (H1 & H2 & H3).
  split; [done|]. intros part Hp. apply H3; intros ->; apply Hp; name_list.
Qed.


Lemma Get_wrapped (ms : list (string * json)) :
  (count_key "response" ms <= 1)%nat ->
  Get (JObject ms) "response.usageMetadata" = wrappedUsage ms.
Proof.
  intros Hc. unfold Get, wrappedUsage.
  change (path_parts "response.usageMetadata") with ["response"; usageKey].
  cbn [get_parts]. rewrite scan_members_unique by done.
  destruct (lookup_key "response" ms) as [[]|]; try done.
  cbn [mbind option_bind]. apply get_parts_one.
Qed.

Lemma Get_top (ms : list (string * json)) :
  Get (JObject ms) "usageMetadata" = lookup_key usageKey ms.
Proof. apply get_parts_one. Qed.


(** *** The edits keep a document well formed *)

Lemma lookup_key_wf (p : string) (ms : list (string * json)) (x : json) :
  Forall member_ok ms -> lookup_key p ms = Some x -> well_formed x.
Proof.
  induction 1 as [|[k y] ms [_ Hy] _ IH]; simpl; [done|].
  destruct (key_matches k p); [by intros [= <-]|exact IH].
Qed.

Lemma replace_member_wf (p : string) (x : json) (ms : list (string * json)) :
  well_formed x -> Forall member_ok ms -> Forall member_ok (replace_member p x ms).
Proof.
  intros Hx. induction 1 as [|[k y] ms [Hk Hy] Hms IH]; simpl; [constructor|].
  destruct (key_matches k p); by constructor.
Qed.

Lemma remove_member_wf (p : string) (ms : list (string * json)) :
  Forall member_ok ms -> Forall member_ok (remove_member p ms).
Proof.
  induction 1 as [|[k y] ms [Hk Hy] Hms IH]; simpl; [constructor|].
  destruct (key_matches k p); [done|by constructor].
Qed.

Lemma get_parts_wf (parts : list string) (v x : json) :
  well_formed v -> get_parts parts v = Some x -> well_formed x.
Proof.
  revert v x. induction parts as [|p rest IH]; intros v x Hv; simpl.
  { by intros [= <-]. }
  destruct Hv as [| | |raw ? ?|raw ?|vs Hvs|ms Hms]; try done.
  - destruct (parse_index p) as [i|]; [|done]. simpl.
    destruct (vs !! i) as [y|] eqn:Hy; [|done]. simpl.
    apply IH. rewrite Forall_forall in Hvs. apply Hvs.
    by apply (list_elem_of_lookup_2 _ i).
  - induction Hms as [|[k y] ms [_ Hy] _ IHms]; simpl; [done|].
    destruct (key_matches k p); [|exact IHms].
    destruct (get_parts rest y) as [r|] eqn:Hr; [|exact IHms].
    intros [= <-]. by apply (IH y).
Qed.

Lemma build_wf (parts : list string) (raw : json) :
  Forall string_text parts -> well_formed raw -> well_formed (build parts raw).
Proof.
  induction 1 as [|p parts Hp _ IH]; intros Hraw; simpl; [done|].
  constructor. constructor; [|constructor]. split; [done|by apply IH].
Qed.

Lemma set_parts_wf (parts : list string) (raw v v' : json) :
  Forall string_text parts -> well_formed raw -> well_formed v ->
  set_parts parts raw v = Some v' -> well_formed v'.
Proof.
  intros Hparts Hraw. revert v v'.
  induction Hparts as [|p rest Hp Hrest IH]; intros v v' Hv; simpl; [done|].
  assert (Hnew : well_formed (JObject [(p, build rest raw)])).
  { constructor. constructor; [|constructor]. split; [done|by apply build_wf]. }
  destruct Hv as [| | |raw0 ? ?|raw0 ?|vs Hvs|ms Hms];
    try (intros [= <-]; exact Hnew); try done.
  destruct (lookup_key p ms) as [x|] eqn:Hx.
  - destruct rest as [|q rest'].
    + intros [= <-]. constructor. by apply replace_member_wf.
    + destruct (set_parts (q :: rest') raw x) as [x'|] eqn:Hx'; [|done].
      intros [= <-]. constructor. apply replace_member_wf; [|done].
      apply (IH x); [|done]. by apply (lookup_key_wf p ms).
  - intros [= <-]. constructor. apply Forall_app. split; [done|].
    constructor; [|constructor]. split; [done|by apply build_wf].
Qed.

Lemma delete_parts_wf (parts : list string) (v : json) :
  well_formed v -> well_formed (delete_parts parts v).
Proof.
  revert v. induction parts as [|p rest IH]; intros v Hv; simpl; [done|].
  destruct Hv as [| | |raw0 ? ?|raw0 ?|vs Hvs|ms Hms]; try by constructor.
  destruct (lookup_key p ms) as [x|] eqn:Hx; [|by constructor].
  destruct rest as [|q rest'].
  - constructor. by apply remove_member_wf.
  - constructor. apply replace_member_wf; [|done].
    apply IH. by apply (lookup_key_wf p ms).
Qed.

Lemma SetRaw_wf (doc raw : json) (path : string) :
  Forall string_text (path_parts path) -> well_formed raw -> well_formed doc ->
  well_formed (SetRaw doc path raw).
Proof.
  intros Hp Hraw Hdoc. unfold SetRaw.
  destruct (set_parts (path_parts path) raw doc) as [v'|] eqn:E; [|done].
  by apply (set_parts_wf _ _ _ _ Hp Hraw Hdoc E).
Qed.

Lemma shadow_paths_text :
  Forall string_text (path_parts "cpaUsageMetadata") /\
  Forall string_text (path_parts "response.cpaUsageMetadata").
Proof. split; repeat constructor; by intros rest. Qed.

Lemma renameUsage_wf (doc : json) :
  well_formed doc -> well_formed (renameUsage doc).1.
Proof.
  intros Hdoc. unfold renameUsage.
  destruct shadow_paths_text as [Htop Hwrapped].
  set (first := match Get doc "usageMetadata" with
                | Some usageMetadata =>
                    (Delete (SetRaw doc "cpaUsageMetadata" usageMetadata)
                            "usageMetadata", true)
                | None => (doc, false)
                end).
  assert (Hfirst : well_formed first.1).
  { unfold first. destruct (Get doc "usageMetadata") as [u|] eqn:Hu; [|done].
    simpl. unfold Delete. apply delete_parts_wf, SetRaw_wf; [done| |done].
    by apply (get_parts_wf _ doc _ Hdoc Hu). }
  destruct first as [cleaned changed]. simpl in Hfirst.
  destruct (Get cleaned "response.usageMetadata") as [u|] eqn:Hu; [|done].
  simpl. unfold Delete. apply delete_parts_wf, SetRaw_wf; [done| |done].
  by apply (get_parts_wf _ cleaned _ Hfirst Hu).
Qed.

End json_props.

(** ** The streaming usage filter *)

Module filter_props.

Import Bytes gjson coreusage executor.

Section Filter.
Context `{F : Float64}.

Lemma is_empty_true (s : string) : is_empty s = true <-> s = EmptyString.
Proof. by destruct s. Qed.

Lemma is_empty_false (s : string) : is_empty s = false <-> s <> EmptyString.
Proof. by destruct s. Qed.

Lemma Exists_true (r : Result) : Exists r = true <-> is_Some r.
Proof. unfold Exists. by rewrite bool_decide_eq_true. Qed.

Lemma Exists_false (r : Result) : Exists r = false <-> r = None.
Proof.
  unfold Exists. rewrite bool_decide_eq_false. destruct r; split; try done.
  intros H. destruct H. eauto.
Qed.

Lemma ValidBytes_true (data : string) : ValidBytes data = true <-> is_Some (parse data).
Proof. unfold ValidBytes. by rewrite bool_decide_eq_true. Qed.

Lemma parse_empty : parse EmptyString = None.
Proof. reflexivity. Qed.

(** A lookup that finds something was made in a valid, non-empty document. *)
Lemma GetBytes_Some_valid (data path : string) :
  is_Some (GetBytes data path) ->
  ValidBytes data = true /\ is_empty data = false.
Proof.
  unfold GetBytes, ParseBytes, rGet. intros [v Hv].
  destruct (parse data) as [doc|] eqn:Hp; [|done].
  split; [apply ValidBytes_true; by rewrite Hp|].
  destruct data; [by rewrite parse_empty in Hp|done].
Qed.

Lemma terminalReason_valid (raw : string) :
  terminalReason raw = true -> ValidBytes raw = true /\ is_empty raw = false.
Proof.
  unfold terminalReason. intros H. apply andb_true_iff in H as [H _].
  apply Exists_true in H.
  destruct (Exists (GetBytes raw "candidates.0.finishReason")) eqn:He; simpl in H.
  - apply Exists_true in He. by apply GetBytes_Some_valid in He.
  - by apply GetBytes_Some_valid in H.
Qed.

Lemma hasUsageMetadata_valid (raw : string) :
  hasUsageMetadata raw = true -> ValidBytes raw = true /\ is_empty raw = false.
Proof.
  unfold hasUsageMetadata.
  destruct (is_empty raw) eqn:He, (ValidBytes raw) eqn:Hv; simpl; done.
Qed.

(** On a chunk that declares a finish reason, the stop test is the absence
    of usage metadata. *)
Lemma isStop_terminal (raw : string) :
  terminalReason raw = true ->
  isStopChunkWithoutUsage raw = negb (hasUsageMetadata raw).
Proof.
  intros Ht. destruct (terminalReason_valid raw Ht) as [Hv He].
  unfold isStopChunkWithoutUsage. rewrite Hv, He. simpl.
  unfold terminalReason in Ht. apply andb_true_iff in Ht as [H1 H2].
  rewrite H1. apply negb_true_iff in H2. by rewrite H2.
Qed.

Lemma isStop_hasUsage (raw : string) :
  hasUsageMetadata raw = true -> isStopChunkWithoutUsage raw = false.
Proof.
  intros Hu. unfold isStopChunkWithoutUsage.
  destruct (is_empty raw || negb (ValidBytes raw)); [done|].
  rewrite Hu. simpl. by case_match.
Qed.

(** A terminal chunk is returned as it came. *)
Lemma Strip_terminal (raw : string) :
  terminalReason (TrimSpace raw) = true ->
  StripUsageMetadataFromJSON raw = (raw, false).
Proof.
  intros Ht. unfold StripUsageMetadataFromJSON. rewrite Ht.
  by destruct (is_empty (TrimSpace raw) || negb (ValidBytes (TrimSpace raw))).
Qed.

Lemma filterData_stop (mem : gset string) (line : string) (i : nat) (raw : string) :
  terminalReason raw = true -> hasUsageMetadata raw = false ->
  traceIDOf raw <> EmptyString ->
  filterData mem line i raw
  = {| memory := {[traceIDOf raw]} ∪ mem; output := line; modified := false;
       foundData := true |}.
Proof.
  intros Ht Hu Hid. unfold filterData. fold (traceIDOf raw).
  rewrite (isStop_terminal raw Ht), Hu. simpl.
  apply is_empty_false in Hid. by rewrite Hid.
Qed.

Lemma filterData_hit (mem : gset string) (line : string) (i : nat) (raw : string) :
  hasUsageMetadata raw = true -> traceIDOf raw <> EmptyString ->
  traceIDOf raw ∈ mem ->
  filterData mem line i raw
  = {| memory := mem ∖ {[traceIDOf raw]}; output := line; modified := false;
       foundData := true |}.
Proof.
  intros Hu Hid Hin. unfold filterData. fold (traceIDOf raw).
  rewrite (isStop_hasUsage raw Hu), Hu. simpl.
  apply is_empty_false in Hid. rewrite Hid. simpl.
  by rewrite bool_decide_eq_true_2.
Qed.

(** Whatever the branch, a data line that the rewrite leaves alone is
    output as it came. *)
Lemma filterData_unchanged (mem : gset string) (line : string) (i : nat) (raw : string) :
  (StripUsageMetadataFromJSON raw).2 = false ->
  output (filterData mem line i raw) = line /\
  modified (filterData mem line i raw) = false /\
  foundData (filterData mem line i raw) = true.
Proof.
  intros Hs. unfold filterData.
  destruct (isStopChunkWithoutUsage raw && _); [done|].
  destruct (_ && hasUsageMetadata raw); [done|].
  destruct (StripUsageMetadataFromJSON raw) as [cleaned changed].
  simpl in Hs. by subst changed.
Qed.

Lemma filterData_found (mem : gset string) (line : string) (i : nat) (raw : string) :
  foundData (filterData mem line i raw) = true.
Proof.
  unfold filterData.
  destruct (isStopChunkWithoutUsage raw && _); [done|].
  destruct (_ && hasUsageMetadata raw); [done|].
  destruct (StripUsageMetadataFromJSON raw) as [cleaned changed].
  by destruct changed.
Qed.

Lemma filterLine_data (mem : gset string) (line : string) (i : nat) (raw : string) :
  dataJSON line = Some (i, raw) -> filterLine mem line = filterData mem line i raw.
Proof.
  unfold dataJSON, filterLine.
  destruct (is_empty (TrimSpace line) || negb (HasPrefix (TrimSpace line) "data:"));
    [done|].
  destruct (Index line "data:") as [j|]; [|done]. simpl. by intros [= <- <-].
Qed.

Lemma filterLine_not_data (mem : gset string) (line : string) :
  dataJSON line = None ->
  output (filterLine mem line) = line /\ memory (filterLine mem line) = mem /\
  modified (filterLine mem line) = false.
Proof.
  unfold dataJSON, filterLine.
  destruct (is_empty (TrimSpace line) || negb (HasPrefix (TrimSpace line) "data:"));
    [done|].
  by destruct (Index line "data:") as [j|].
Qed.

(** The branch of the loop for a data line in which [data:] is not found
    is never taken: a line is a data line exactly when its trimmed text
    starts with [data:]. *)
Lemma dataJSON_data_line (line : string) :
  is_Some (dataJSON line) <->
  is_empty (TrimSpace line) = false /\ HasPrefix (TrimSpace line) "data:" = true.
Proof.
  unfold dataJSON.
  destruct (is_empty (TrimSpace line)); simpl.
  { split; [by intros [? ?]|by intros [? _]]. }
  destruct (HasPrefix (TrimSpace line) "data:") eqn:Hp; simpl.
  - destruct (BytesFacts.TrimSpace_prefix_Index _ _ Hp) as [i ->]. simpl.
    split; [done|eauto].
  - split; [by intros [? ?]|by intros [_ ?]].
Qed.

(** The JSON the loop takes from a data line is trimmed. *)
Lemma dataJSON_trimmed (line : string) (i : nat) (raw : string) :
  dataJSON line = Some (i, raw) -> TrimSpace raw = raw.
Proof.
  unfold dataJSON.
  destruct (is_empty (TrimSpace line) || negb (HasPrefix (TrimSpace line) "data:"));
    [done|].
  destruct (Index line "data:") as [j|]; [|done]. simpl. intros [= <- <-].
  apply BytesFacts.TrimSpace_idem.
Qed.

Lemma filterLines_app (mem : gset string) (l1 l2 : list string) :
  filterLines mem (l1 ++ l2)
  = let '(m1, o1, md1, fd1) := filterLines mem l1 in
    let '(m2, o2, md2, fd2) := filterLines m1 l2 in
    (m2, o1 ++ o2, md1 || md2, fd1 || fd2).
Proof.
  revert mem. induction l1 as [|l l1 IH]; intros mem; simpl.
  - by destruct (filterLines mem l2) as [[[? ?] ?] ?].
  - rewrite IH.
    destruct (filterLines (memory (filterLine mem l)) l1) as [[[m1 o1] md1] fd1].
    destruct (filterLines m1 l2) as [[[m2 o2] md2] fd2].
    by rewrite !orb_assoc.
Qed.

Lemma filterLine_unmodified (mem : gset string) (line : string) :
  modified (filterLine mem line) = false -> output (filterLine mem line) = line.
Proof.
  unfold filterLine.
  destruct (is_empty (TrimSpace line) || negb (HasPrefix (TrimSpace line) "data:"));
    [done|].
  destruct (Index line "data:") as [j|]; [|done].
  unfold filterData.
  destruct (isStopChunkWithoutUsage _ && _); [done|].
  destruct (_ && hasUsageMetadata _); [done|].
  destruct (StripUsageMetadataFromJSON _) as [cleaned changed].
  by destruct changed.
Qed.

(** When no turn modifies its line, the lines come out as they went in. *)
Lemma filterLines_unmodified (mem : gset string) (lines : list string) :
  (filterLines mem lines).1.2 = false -> (filterLines mem lines).1.1.2 = lines.
Proof.
  revert mem. induction lines as [|l lines IH]; intros mem; simpl; [done|].
  specialize (IH (memory (filterLine mem l))).
  destruct (filterLines (memory (filterLine mem l)) lines) as [[[m o] md] fd].
  simpl in *. intros [H1 H2]%orb_false_iff.
  by rewrite (filterLine_unmodified _ _ H1), (IH H2).
Qed.

Lemma filterLines_length (mem : gset string) (lines : list string) :
  length (filterLines mem lines).1.1.2 = length lines.
Proof.
  revert mem. induction lines as [|l lines IH]; intros mem; simpl; [done|].
  specialize (IH (memory (filterLine mem l))).
  destruct (filterLines (memory (filterLine mem l)) lines) as [[[m o] md] fd].
  simpl in *. by rewrite IH.
Qed.

(** With a data line in the payload, the output is the lines the loop
    leaves, joined. *)
Lemma FilterSSE_found (mem : gset string) (payload : string) :
  (filterLines mem (Split payload)).2 = true ->
  FilterSSEUsageMetadata mem payload
  = ((filterLines mem (Split payload)).1.1.1,
     Join (filterLines mem (Split payload)).1.1.2).
Proof.
  intros Hfd. unfold FilterSSEUsageMetadata.
  destruct payload as [|c r] eqn:Hp; [by vm_compute in Hfd|].
  rewrite <- Hp in *. replace (is_empty payload) with false by (by subst).
  pose proof (filterLines_unmodified mem (Split payload)) as Hun.
  destruct (filterLines mem (Split payload)) as [[[m o] md] fd].
  simpl in *. subst fd. destruct md; simpl; [done|].
  by rewrite Hun, BytesFacts.Join_Split.
Qed.

Lemma filterLines_cons (mem : gset string) (pre : list string) (line : string)
    (post : list string) :
  let before := filterLines mem pre in
  let step := filterLine before.1.1.1 line in
  let after := filterLines (memory step) post in
  filterLines mem (pre ++ line :: post)
  = (after.1.1.1, before.1.1.2 ++ output step :: after.1.1.2,
     before.1.2 || (modified step || after.1.2),
     before.2 || (foundData step || after.2)).
Proof.
  intros before step after. rewrite filterLines_app. subst before step after.
  destruct (filterLines mem pre) as [[[m1 o1] md1] fd1]. simpl.
  by destruct (filterLines (memory (filterLine m1 line)) post) as [[[m2 o2] md2] fd2].
Qed.

(** The output around one data line of the payload. *)
Lemma FilterSSE_at_line (mem : gset string) (payload : string)
    (pre : list string) (line : string) (post : list string) :
  Split payload = pre ++ line :: post ->
  let before := filterLines mem pre in
  let step := filterLine before.1.1.1 line in
  let after := filterLines (memory step) post in
  foundData step = true ->
  FilterSSEUsageMetadata mem payload
  = (after.1.1.1, Join (before.1.1.2 ++ output step :: after.1.1.2)).
Proof.
  intros Hsplit before step after Hfd.
  rewrite FilterSSE_found; rewrite Hsplit, filterLines_cons; simpl; [done|].
  fold before. fold step. rewrite Hfd. by rewrite orb_true_r.
Qed.

(** C2, as the code has it.  A data line whose JSON declares a non-empty
    finish reason, carries no usage metadata and has a non-empty top-level
    [traceId] makes [FilterSSEUsageMetadata] record that trace id in the
    correlation memory, which the lines after it then see, and is itself
    output as it came, at its place among the lines: it is not dropped. *)
Theorem stop_without_usage_is_remembered_and_kept (mem : gset string)
    (payload : string) (pre : list string) (line : string) (post : list string)
    (dataIdx : nat) (rawJSON : string) :
  Split payload = pre ++ line :: post ->
  dataJSON line = Some (dataIdx, rawJSON) ->
  terminalReason rawJSON = true ->
  hasUsageMetadata rawJSON = false ->
  traceIDOf rawJSON <> EmptyString ->
  let before := filterLines mem pre in
  let remembered := {[traceIDOf rawJSON]} ∪ before.1.1.1 in
  let after := filterLines remembered post in
  filterLine before.1.1.1 line
  = {| memory := remembered; output := line; modified := false;
       foundData := true |} /\
  FilterSSEUsageMetadata mem payload
  = (after.1.1.1, Join (before.1.1.2 ++ line :: after.1.1.2)).
Proof.
  intros Hsplit Hdata Ht Hu Hid before remembered after.
  assert (Hstep : filterLine before.1.1.1 line
                  = {| memory := remembered; output := line; modified := false;
                       foundData := true |}).
  { rewrite (filterLine_data _ _ _ _ Hdata). by apply filterData_stop. }
  split; [exact Hstep|].
  rewrite (FilterSSE_at_line mem payload pre line post Hsplit);
    fold before; by rewrite Hstep.
Qed.

Lemma filterLines_all_unchanged (mem : gset string) (lines : list string) :
  (forall line i raw, line ∈ lines -> dataJSON line = Some (i, raw) ->
                      (StripUsageMetadataFromJSON raw).2 = false) ->
  (filterLines mem lines).1.2 = false.
Proof.
  revert mem. induction lines as [|l lines IH]; intros mem Hall; simpl; [done|].
  specialize (IH (memory (filterLine mem l))
                 (fun line i raw Hin => Hall line i raw (list_elem_of_further _ _ _ Hin))).
  destruct (filterLines (memory (filterLine mem l)) lines) as [[[m o] md] fd].
  simpl in *. rewrite IH, orb_false_r.
  destruct (dataJSON l) as [[i raw]|] eqn:Hd.
  - rewrite (filterLine_data _ _ _ _ Hd).
    apply filterData_unchanged, (Hall l i raw); [apply list_elem_of_here|done].
  - by apply filterLine_not_data.
Qed.

Lemma filterLines_found (mem : gset string) (lines : list string) (line : string) :
  line ∈ lines -> is_Some (dataJSON line) -> (filterLines mem lines).2 = true.
Proof.
  intros Hin [[i raw] Hd]. revert mem.
  induction lines as [|l lines IH]; intros mem; [by apply elem_of_nil in Hin|].
  simpl. apply elem_of_cons in Hin as [<-|Hin].
  - destruct (filterLines (memory (filterLine mem line)) lines) as [[[m o] md] fd].
    simpl. by rewrite (filterLine_data _ _ _ _ Hd), filterData_found.
  - specialize (IH Hin (memory (filterLine mem l))).
    destruct (filterLines (memory (filterLine mem l)) lines) as [[[m o] md] fd].
    simpl in *. by rewrite IH, orb_true_r.
Qed.

Lemma filterLines_not_data (mem : gset string) (lines : list string)
    (k : nat) (line : string) :
  lines !! k = Some line -> dataJSON line = None ->
  (filterLines mem lines).1.1.2 !! k = Some line.
Proof.
  revert mem k. induction lines as [|l lines IH]; intros mem k Hk Hd; [done|].
  simpl. specialize (IH (memory (filterLine mem l))).
  destruct (filterLines (memory (filterLine mem l)) lines) as [[[m o] md] fd].
  simpl in *. destruct k as [|k]; simpl in *.
  - injection Hk as ->. f_equal. by apply filterLine_not_data.
  - by apply IH.
Qed.

(** When no data line needs a rewrite, the payload is returned as it
    came. *)
Lemma FilterSSE_unchanged (mem : gset string) (payload : string) :
  (forall line i raw, line ∈ Split payload -> dataJSON line = Some (i, raw) ->
                      (StripUsageMetadataFromJSON raw).2 = false) ->
  (exists line, line ∈ Split payload /\ is_Some (dataJSON line)) \/
  (StripUsageMetadataFromJSON (TrimSpace payload)).2 = false ->
  (FilterSSEUsageMetadata mem payload).2 = payload.
Proof.
  intros Hall Hor. unfold FilterSSEUsageMetadata.
  destruct (is_empty payload); [done|].
  pose proof (filterLines_all_unchanged mem (Split payload) Hall) as Hmd.
  assert (Hfd : (filterLines mem (Split payload)).2 = true \/
                (StripUsageMetadataFromJSON (TrimSpace payload)).2 = false).
  { destruct Hor as [(line & Hin & Hd)|Hs]; [left|by right].
    by apply (filterLines_found mem _ line). }
  destruct (filterLines mem (Split payload)) as [[[m o] md] fd].
  simpl in *. subst md. simpl.
  destruct fd; simpl; [done|].
  destruct Hfd as [?|Hs]; [done|].
  destruct (StripUsageMetadataFromJSON (TrimSpace payload)) as [cleaned changed].
  simpl in Hs. by subst changed.
Qed.

(** C4.  A payload in which the JSON of every data line declares a
    non-empty finish reason (a payload of raw JSON: whose document does) is
    returned byte for byte.  More generally the payload is returned as it
    came whenever no line needs a rewrite; and in every case the lines keep
    their number and order, a line that is not a data line is output as it
    came, and the output is the lines joined by newlines. *)
Theorem terminal_payload_passes_through (mem : gset string) (payload : string) :
  ((forall line i raw, line ∈ Split payload -> dataJSON line = Some (i, raw) ->
                       terminalReason raw = true) ->
   (exists line, line ∈ Split payload /\ is_Some (dataJSON line)) \/
   terminalReason (TrimSpace payload) = true ->
   (FilterSSEUsageMetadata mem payload).2 = payload) /\
  ((forall line i raw, line ∈ Split payload -> dataJSON line = Some (i, raw) ->
                       (StripUsageMetadataFromJSON raw).2 = false) ->
   (exists line, line ∈ Split payload /\ is_Some (dataJSON line)) \/
   (StripUsageMetadataFromJSON (TrimSpace payload)).2 = false ->
   (FilterSSEUsageMetadata mem payload).2 = payload) /\
  (let lines := (filterLines mem (Split payload)).1.1.2 in
   length lines = length (Split payload) /\
   (forall k line, Split payload !! k = Some line -> dataJSON line = None ->
                   lines !! k = Some line) /\
   ((filterLines mem (Split payload)).2 = true ->
    (FilterSSEUsageMetadata mem payload).2 = Join lines)).
Proof.
  split; [|split].
  - intros Hall Hor. apply FilterSSE_unchanged.
    + intros line i raw Hin Hd.
      rewrite Strip_terminal; [done|].
      rewrite (dataJSON_trimmed _ _ _ Hd). by apply (Hall line i raw).
    + destruct Hor as [?|Ht]; [by left|right].
      rewrite Strip_terminal; [done|]. by rewrite BytesFacts.TrimSpace_idem.
  - apply FilterSSE_unchanged.
  - intros lines. split; [apply filterLines_length|].
    split; [intros k line; apply filterLines_not_data|].
    intros Hfd. by rewrite FilterSSE_found.
Qed.

(** What [StripUsageMetadataFromJSON] returns as changed is a valid
    document: it parses, to the document the renames built. *)
Lemma Strip_changed_valid (rawJSON cleaned : string) :
  StripUsageMetadataFromJSON rawJSON = (cleaned, true) ->
  exists doc,
    parse (TrimSpace rawJSON) = Some doc /\
    cleaned = render (renameUsage doc).1 /\
    parse cleaned = Some (renameUsage doc).1.
Proof.
  unfold StripUsageMetadataFromJSON.
  destruct (is_empty (TrimSpace rawJSON) || negb (ValidBytes (TrimSpace rawJSON)));
    [done|].
  destruct (terminalReason (TrimSpace rawJSON)); [done|].
  destruct (negb _); [done|].
  destruct (parse (TrimSpace rawJSON)) as [doc|] eqn:Hparse; [|done].
  pose proof (json_props.renameUsage_wf doc
                (parser_props.parse_well_formed _ _ Hparse)) as Hwf.
  destruct (renameUsage doc) as [out changed] eqn:Hren. intros [= <- _].
  exists doc. rewrite Hren. split; [done|]. split; [done|].
  by apply parser_props.parse_render.
Qed.


End Filter.

(** C2 as stated fails: the stop chunk without usage is remembered, and it
    is output, not dropped. *)
Lemma stop_line_is_not_dropped :
  @FilterSSEUsageMetadata examples.exampleFloat ∅ examples.stopLine
  = ({["abc"]}, examples.stopLine).
Proof. vm_compute. reflexivity. Qed.

(** The amended C2 on the stop chunk followed by the usage chunk of its
    trace: both lines come out as they went in. *)
Lemma stop_without_usage_witness :
  (@FilterSSEUsageMetadata examples.exampleFloat ∅ examples.twoLinePayload).2
  = examples.twoLinePayload.
Proof.
  pose proof (@stop_without_usage_is_remembered_and_kept examples.exampleFloat
                ∅ examples.twoLinePayload [] examples.stopLine
                [examples.usageLine] 0%nat
                (q "{'candidates':[{'finishReason':'STOP'}],'traceId':'abc'}")
                ltac:(vm_compute; reflexivity) ltac:(vm_compute; reflexivity)
                ltac:(vm_compute; reflexivity) ltac:(vm_compute; reflexivity)
                ltac:(vm_compute; discriminate)) as [_ H].
  cbv zeta in H. rewrite H. vm_compute. reflexivity.
Defined.


(** C4 on a payload of one terminal chunk between an event line and a
    blank line. *)
Lemma terminal_payload_witness :
  (@FilterSSEUsageMetadata examples.exampleFloat ∅ examples.terminalPayload).2
  = examples.terminalPayload.
Proof.
  apply (proj1 (@terminal_payload_passes_through examples.exampleFloat ∅
                  examples.terminalPayload)).
  - intros line i raw Hin Hd.
    change (Split examples.terminalPayload)
      with ["event: message"; examples.terminalLine; EmptyString] in Hin.
    rewrite !elem_of_cons, elem_of_nil in Hin.
    destruct Hin as [->|[->|[->|[]]]]; vm_compute in Hd; try discriminate.
    injection Hd as <- <-. vm_compute. reflexivity.
  - left. exists examples.terminalLine. split.
    + change (Split examples.terminalPayload)
        with ["event: message"; examples.terminalLine; EmptyString].
      rewrite !elem_of_cons. tauto.
    + vm_compute. eauto.
Defined.

End filter_props.

(** ** Merging snapshots *)

Module merge_props.

Import Bytes statistics.

Section MergeProps.
Context `{T : TimeOps}.

Lemma elem_of_storeKeys (s : RequestStatistics) (k : string) :
  k ∈ storeKeys s <->
  exists api model d, d ∈ rows s api model /\ k = dedupKey api model d.
Proof.
  unfold storeKeys, rows. rewrite elem_of_list_to_set, list_elem_of_bind.
  split.
  - intros ([api stats] & Hin & Hapi%elem_of_map_to_list).
    apply list_elem_of_bind in Hin as ([model ms] & Hin & Hmod%elem_of_map_to_list).
    apply list_elem_of_fmap in Hin as (d & -> & Hd).
    exists api, model, d. by rewrite Hapi, Hmod.
  - intros (api & model & d & Hd & ->).
    destruct (apis s !! api) as [stats|] eqn:Hapi; [|by apply elem_of_nil in Hd].
    destruct (aModels stats !! model) as [ms|] eqn:Hmod; [|by apply elem_of_nil in Hd].
    exists (api, stats). split; [|by apply elem_of_map_to_list].
    apply list_elem_of_bind. exists (model, ms).
    split; [|by apply elem_of_map_to_list].
    apply list_elem_of_fmap. eauto.
Qed.

Lemma rows_recordImported (s : RequestStatistics) (api model : string)
    (d : RequestDetail) (api' model' : string) :
  rows (recordImported s api model d) api' model'
  = if decide (api' = api /\ model' = model)
    then rows s api model ++ [d] else rows s api' model'.
Proof.
  unfold rows, recordImported; simpl.
  destruct (decide (api' = api)) as [->|Hne].
  - rewrite lookup_insert_eq. simpl.
    destruct (decide (model' = model)) as [->|Hne].
    + rewrite lookup_insert_eq. simpl.
      rewrite decide_True by done.
      destruct (apis s !! api) as [stats|]; simpl; [|done].
      by destruct (aModels stats !! model).
    + rewrite lookup_insert_ne by done.
      rewrite decide_False by tauto.
      destruct (apis s !! api) as [stats|]; simpl; done.
  - rewrite lookup_insert_ne by done. rewrite decide_False by tauto. done.
Qed.

Lemma storeKeys_recordImported (s : RequestStatistics) (api model : string)
    (d : RequestDetail) :
  storeKeys (recordImported s api model d)
  = {[dedupKey api model d]} ∪ storeKeys s.
Proof.
  apply set_eq. intros k.
  rewrite elem_of_union, elem_of_singleton, !elem_of_storeKeys.
  split.
  - intros (a & m & d' & Hd' & ->). rewrite rows_recordImported in Hd'.
    destruct (decide (a = api /\ m = model)) as [[-> ->]|Hne].
    + apply elem_of_app in Hd' as [Hd'|Hd'%list_elem_of_singleton]; [|left; by subst].
      right. eauto.
    + right. eauto.
  - intros [->|(a & m & d' & Hd' & ->)].
    + exists api, model, d. rewrite rows_recordImported, decide_True by done.
      split; [|done]. apply elem_of_app. right. by apply list_elem_of_singleton.
    + exists a, m, d'. split; [|done]. rewrite rows_recordImported.
      destruct (decide (a = api /\ m = model)) as [[-> ->]|Hne]; [|done].
      apply elem_of_app. by left.
Qed.

Lemma grows_refl st : grows st st.
Proof. split; [set_solver|auto]. Qed.

Lemma grows_trans st1 st2 st3 : grows st1 st2 -> grows st2 st3 -> grows st1 st3.
Proof. intros [? ?] [? ?]. split; [set_solver|auto]. Qed.

Section Steps.
Variable now : nat -> Time.

Lemma mergeDetail_step (api model : string) (st : mergeState) (d : RequestDetail) :
  Inv st ->
  Inv (mergeDetail now api model st d) /\
  grows st (mergeDetail now api model st d) /\
  (IsZero (Timestamp d) = false ->
   dedupKey api model (prepared d) ∈ seen (mergeDetail now api model st d)).
Proof.
  intros HI. unfold mergeDetail, prepared.
  destruct (IsZero (Timestamp (set_Tokens d (normaliseTokenStats (Tokens d)))))
    eqn:Hz; simpl in Hz.
  - set (d' := set_Timestamp _ _).
    destruct (bool_decide (dedupKey api model d' ∈ seen st)) eqn:Hk; simpl.
    + split; [exact HI|]. split; [by split|]. intros; congruence.
    + split.
      { unfold Inv; simpl. by rewrite storeKeys_recordImported, HI. }
      split; [|intros; congruence].
      split; simpl; [apply union_subseteq_r|].
      intros a Ha. destruct (decide (a = api)) as [->|Hne].
      * rewrite lookup_insert_eq. eauto.
      * by rewrite lookup_insert_ne.
  - set (d' := set_Tokens _ _).
    destruct (bool_decide (dedupKey api model d' ∈ seen st)) eqn:Hk; simpl.
    + split; [exact HI|]. split; [by split|]. intros _.
      by apply bool_decide_eq_true_1 in Hk.
    + split.
      { unfold Inv; simpl. by rewrite storeKeys_recordImported, HI. }
      split; [|intros _; apply elem_of_union_l, elem_of_singleton; reflexivity].
      split; simpl; [apply union_subseteq_r|].
      intros a Ha. destruct (decide (a = api)) as [->|Hne].
      * rewrite lookup_insert_eq. eauto.
      * by rewrite lookup_insert_ne.
Qed.

(** A loop keeps the invariant, only grows the state, and leaves what each
    turn establishes established, when every turn does. *)
Lemma foldl_steps {A} (f : mergeState -> A -> mergeState)
    (P : A -> mergeState -> Prop) :
  (forall x st st', grows st st' -> P x st -> P x st') ->
  (forall st x, Inv st -> Inv (f st x) /\ grows st (f st x) /\ P x (f st x)) ->
  forall l st, Inv st ->
    Inv (foldl f st l) /\ grows st (foldl f st l) /\
    Forall (fun x => P x (foldl f st l)) l.
Proof.
  intros Hmono Hstep l. induction l as [|x l IH]; intros st HI; simpl.
  - split; [done|]. split; [apply grows_refl|constructor].
  - destruct (Hstep st x HI) as (HI1 & Hg1 & HP1).
    destruct (IH _ HI1) as (HI2 & Hg2 & HP2).
    split; [done|]. split; [by eapply grows_trans|].
    constructor; [by eapply Hmono|done].
Qed.

Lemma detailDone_mono api model d st st' :
  grows st st' -> detailDone api model d st -> detailDone api model d st'.
Proof. intros [Hs _] H Hz. apply Hs, H, Hz. Qed.

Lemma modelDone_mono api m st st' :
  grows st st' -> modelDone api m st -> modelDone api m st'.
Proof.
  intros Hg H. unfold modelDone in *. eapply Forall_impl; [exact H|].
  intros d. by apply detailDone_mono.
Qed.

Lemma apiDone_mono a st st' : grows st st' -> apiDone a st -> apiDone a st'.
Proof.
  intros Hg H Hne. destruct (H Hne) as [Hsome Hall]. split.
  - by apply Hg.
  - eapply Forall_impl; [exact Hall|]. intros m. by apply modelDone_mono.
Qed.

Lemma mergeModel_step (api : string) (st : mergeState) (m : string * ModelSnapshot) :
  Inv st ->
  Inv (mergeModel now api st m) /\ grows st (mergeModel now api st m) /\
  modelDone api m (mergeModel now api st m).
Proof.
  intros HI. unfold mergeModel, modelDone. fold (modelKey m.1).
  apply (foldl_steps (mergeDetail now api (modelKey m.1))
           (detailDone api (modelKey m.1))); [|by apply mergeDetail_step|done].
  intros d s1 s2. apply detailDone_mono.
Qed.

Lemma mergeAPI_step (st : mergeState) (a : string * APISnapshot) :
  Inv st ->
  Inv (mergeAPI now st a) /\ grows st (mergeAPI now st a) /\
  apiDone a (mergeAPI now st a).
Proof.
  intros HI. unfold mergeAPI, apiDone.
  destruct (bool_decide (TrimSpace a.1 = EmptyString)) eqn:Hb.
  - apply bool_decide_eq_true_1 in Hb. split; [done|].
    split; [apply grows_refl|]. intros Hne. by destruct Hne.
  - set (st0 := {| store := _; seen := seen st; result := result st; ticks := ticks st |}).
    assert (HI0 : Inv st0).
    { unfold Inv, st0; simpl. rewrite HI.
      destruct (apis (store st) !! TrimSpace a.1) eqn:Hl; [done|].
      apply set_eq. intros k. rewrite !elem_of_storeKeys.
      split; intros (x & y & d & Hd & ->); exists x, y, d; split; try done;
        revert Hd; unfold rows; simpl;
        (destruct (decide (x = TrimSpace a.1)) as [->|Hne];
         [rewrite lookup_insert_eq, Hl; simpl; rewrite lookup_empty; done
         |rewrite lookup_insert_ne by done; done]). }
    assert (Hg0 : grows st st0).
    { split; [done|]. intros x Hx. unfold st0; simpl.
      destruct (apis (store st) !! TrimSpace a.1) eqn:Hl; [done|]. simpl.
      destruct (decide (x = TrimSpace a.1)) as [->|Hne].
      - rewrite lookup_insert_eq. eauto.
      - by rewrite lookup_insert_ne. }
    assert (Hsome : is_Some (apis (store st0) !! TrimSpace a.1)).
    { unfold st0; simpl.
      destruct (apis (store st) !! TrimSpace a.1) eqn:Hl; [by rewrite Hl|].
      simpl. rewrite lookup_insert_eq. eauto. }
    destruct (foldl_steps (mergeModel now (TrimSpace a.1))
                (modelDone (TrimSpace a.1))
                (fun m s1 s2 => modelDone_mono _ m s1 s2)
                (fun s m => mergeModel_step _ s m) (Models a.2) st0 HI0)
      as (HI1 & Hg1 & Hall).
    split; [done|]. split; [by eapply grows_trans|].
    intros _. split; [by apply Hg1|done].
Qed.

Lemma merge_first (st : mergeState) (l : list (string * APISnapshot)) :
  Inv st ->
  Inv (foldl (mergeAPI now) st l) /\
  Forall (fun a => apiDone a (foldl (mergeAPI now) st l)) l.
Proof.
  intros HI.
  destruct (foldl_steps (mergeAPI now) apiDone apiDone_mono mergeAPI_step l st HI)
    as (H1 & _ & H2). done.
Qed.

(** What the first merge leaves, in terms of the entries and the names of
    the snapshot. *)
Lemma apiDone_entries (st : mergeState) (snap : StatisticsSnapshot) :
  Forall (fun a => apiDone a st) (APIs snap) ->
  (forall e, e ∈ entries snap -> IsZero (Timestamp e.2) = false ->
             dedupKey e.1.1 e.1.2 (prepared e.2) ∈ seen st) /\
  (forall a, a ∈ apiNames snap -> is_Some (apis (store st) !! a)).
Proof.
  intros Hall. rewrite Forall_forall in Hall. split.
  - intros e He Hz. unfold entries in He.
    apply list_elem_of_bind in He as (a & He & Ha). unfold apiEntries in He.
    destruct (bool_decide (TrimSpace a.1 = EmptyString)) eqn:Hb;
      [by apply elem_of_nil in He|].
    apply bool_decide_eq_false_1 in Hb.
    destruct (Hall a Ha Hb) as [_ Hms]. rewrite Forall_forall in Hms.
    apply list_elem_of_bind in He as (m & He & Hm).
    apply list_elem_of_fmap in He as (d & -> & Hd).
    specialize (Hms m Hm). unfold modelDone in Hms. rewrite Forall_forall in Hms.
    by apply Hms.
  - intros n Hn. unfold apiNames in Hn.
    apply list_elem_of_bind in Hn as (a & Hn & Ha).
    destruct (bool_decide (TrimSpace a.1 = EmptyString)) eqn:Hb;
      [by apply elem_of_nil in Hn|].
    apply bool_decide_eq_false_1 in Hb.
    apply list_elem_of_singleton in Hn as ->. by apply (Hall a Ha Hb).
Qed.

Lemma skipped_0 st : skipped 0 st = st.
Proof. by destruct st as [? ? [? ?] ?]. Qed.

Lemma skipped_skipped n m st : skipped m (skipped n st) = skipped (n + m) st.
Proof.
  unfold skipped; simpl. do 2 f_equal.
  rewrite (Nat.add_comm n m). by rewrite Nat.iter_add.
Qed.

Lemma mergeDetail_skip (api model : string) (st : mergeState) (d : RequestDetail) :
  IsZero (Timestamp d) = false ->
  dedupKey api model (prepared d) ∈ seen st ->
  mergeDetail now api model st d = skipped 1 st.
Proof.
  intros Hz Hk. unfold mergeDetail. fold (prepared d).
  change (Timestamp (prepared d)) with (Timestamp d). rewrite Hz.
  by rewrite bool_decide_eq_true_2.
Qed.

Lemma mergeDetails_skip (api model : string) (ds : list RequestDetail)
    (st : mergeState) :
  Forall (fun d => IsZero (Timestamp d) = false /\
                   dedupKey api model (prepared d) ∈ seen st) ds ->
  foldl (mergeDetail now api model) st ds = skipped (length ds) st.
Proof.
  revert st. induction ds as [|d ds IH]; intros st Hall; simpl.
  - by rewrite skipped_0.
  - apply Forall_cons in Hall as [[Hz Hk] Hall].
    rewrite (mergeDetail_skip _ _ _ _ Hz Hk), IH by done.
    by rewrite skipped_skipped.
Qed.

Lemma mergeModels_skip (api : string) (ms : list (string * ModelSnapshot))
    (st : mergeState) :
  Forall (fun m => Forall (fun d => IsZero (Timestamp d) = false /\
                     dedupKey api (modelKey m.1) (prepared d) ∈ seen st)
                     (Details m.2)) ms ->
  foldl (mergeModel now api) st ms
  = skipped (length (m ← ms; Details m.2)) st.
Proof.
  revert st. induction ms as [|m ms IH]; intros st Hall.
  - simpl. by rewrite skipped_0.
  - apply Forall_cons in Hall as [Hm Hall].
    cbn [foldl]. unfold mergeModel at 2. fold (modelKey m.1).
    rewrite (mergeDetails_skip _ _ _ _ Hm), IH by done.
    rewrite skipped_skipped. f_equal. csimpl. by rewrite length_app.
Qed.

Lemma mergeAPI_skip (a : string * APISnapshot) (st : mergeState) :
  (TrimSpace a.1 <> EmptyString -> is_Some (apis (store st) !! TrimSpace a.1)) ->
  Forall (fun e => IsZero (Timestamp e.2) = false /\
                   dedupKey e.1.1 e.1.2 (prepared e.2) ∈ seen st)
         (apiEntries a) ->
  mergeAPI now st a = skipped (length (apiEntries a)) st.
Proof.
  intros Hsome Hall. unfold mergeAPI, apiEntries in *.
  destruct (bool_decide (TrimSpace a.1 = EmptyString)) eqn:Hb.
  - simpl. by rewrite skipped_0.
  - apply bool_decide_eq_false_1 in Hb. destruct (Hsome Hb) as [stats Hl].
    rewrite Hl.
    replace {| store := store st; seen := seen st; result := result st;
               ticks := ticks st |} with st by (by destruct st).
    rewrite mergeModels_skip.
    + f_equal. clear Hall. induction (Models a.2) as [|m ms IH]; [done|].
      csimpl. by rewrite !length_app, length_fmap, IH.
    + rewrite Forall_forall in Hall. apply Forall_forall. intros m Hm.
      apply Forall_forall. intros d Hd.
      apply (Hall (TrimSpace a.1, modelKey m.1, d)).
      apply list_elem_of_bind. exists m. split; [|done].
      apply list_elem_of_fmap. eauto.
Qed.

Lemma merge_second (l : list (string * APISnapshot)) (st : mergeState) :
  Forall (fun a => TrimSpace a.1 <> EmptyString ->
                   is_Some (apis (store st) !! TrimSpace a.1)) l ->
  Forall (fun e => IsZero (Timestamp e.2) = false /\
                   dedupKey e.1.1 e.1.2 (prepared e.2) ∈ seen st)
         (a ← l; apiEntries a) ->
  foldl (mergeAPI now) st l = skipped (length (a ← l; apiEntries a)) st.
Proof.
  revert st. induction l as [|a l IH]; intros st Hsome Hall.
  - simpl. by rewrite skipped_0.
  - apply Forall_cons in Hsome as [Ha Hsome]. csimpl in Hall.
    apply Forall_app in Hall as [Hea Hel].
    cbn [foldl]. rewrite (mergeAPI_skip _ _ Ha Hea), IH by done.
    rewrite skipped_skipped. f_equal. csimpl. by rewrite length_app.
Qed.

End Steps.

Lemma iter_incr (n : nat) : Nat.iter n Int64.incr 0 = Int64.wrap (Z.of_nat n).
Proof.
  induction n as [|n IH]; [done|].
  rewrite Nat.iter_succ, IH. unfold Int64.incr.
  rewrite Int64Facts.wrap_add_l. f_equal. lia.
Qed.


End MergeProps.



End merge_props.

(** ** The token-usage parsers *)

Module parsers_props.

Import Bytes gjson coreusage executor.

Section Parsers.
Context `{F : Float64} `{T : TimeOps}.

Lemma jsonPayload_cases (line : string) :
  jsonPayload line = EmptyString \/
  exists r, jsonPayload line = String "{" r /\
            TrimSpace (jsonPayload line) = jsonPayload line.
Proof.
  unfold jsonPayload.
  destruct (is_empty (TrimSpace line)); [by left|].
  destruct (bool_decide (TrimSpace line = "[DONE]")); [by left|].
  destruct (HasPrefix (TrimSpace line) "event:"); [by left|].
  set (t := if HasPrefix (TrimSpace line) "data:"
            then TrimSpace (drop 5 (TrimSpace line)) else TrimSpace line).
  assert (Ht : TrimSpace t = t).
  { unfold t. destruct (HasPrefix _ _); apply BytesFacts.TrimSpace_idem. }
  destruct t as [|c r]; [by left|].
  destruct (Ascii.eqb c "{") eqn:Hc; [|by left].
  apply Ascii.eqb_eq in Hc. subst c. right. by exists r.
Qed.

(** X1.  [jsonPayload] returns nothing, or text that starts with an
    opening brace and has no white space around it; applied to its own
    result it changes nothing. *)
Theorem jsonPayload_object_or_nothing (line : string) :
  (jsonPayload line = EmptyString \/
   exists r, jsonPayload line = String "{" r /\
             TrimSpace (jsonPayload line) = jsonPayload line) /\
  jsonPayload (jsonPayload line) = jsonPayload line.
Proof.
  split; [apply jsonPayload_cases|].
  destruct (jsonPayload_cases line) as [->|(r & Hr & Ht)]; [done|].
  unfold jsonPayload at 1. rewrite Ht, Hr. done.
Qed.


Lemma valid_not_empty (payload : string) :
  ValidBytes payload = true -> is_empty payload = false.
Proof. by destruct payload. Qed.

(** X2.  A stream parser that reports nothing found returns the zero
    detail; it reports a find only on a line whose payload is valid JSON; and
    a line that carries no JSON object (a blank line, [[DONE]], an [event:]
    line, a payload that does not start with a brace) is never a find.
    [parseCodexUsage] too returns the zero detail when it finds nothing. *)
Theorem stream_not_found_is_zero (line data : string) :
  Forall (fun r : Detail * bool =>
            (r.2 = false -> r.1 = zero) /\
            (r.2 = true -> ValidBytes (jsonPayload line) = true) /\
            (jsonPayload line = EmptyString -> r = (zero, false)))
         [parseOpenAIStreamUsage line; parseClaudeStreamUsage line;
          parseGeminiStreamUsage line; parseGeminiCLIStreamUsage line;
          parseAntigravityStreamUsage line] /\
  ((parseCodexUsage data).2 = false -> (parseCodexUsage data).1 = zero).
Proof.
  split.
  - repeat constructor;
      unfold parseOpenAIStreamUsage, parseClaudeStreamUsage,
        parseGeminiStreamUsage, parseGeminiCLIStreamUsage,
        parseAntigravityStreamUsage;
      try (intros ->; reflexivity);
      destruct (is_empty (jsonPayload line)); simpl; try done;
      destruct (ValidBytes (jsonPayload line)); simpl; try done;
      by destruct (negb _).
  - unfold parseCodexUsage. by destruct (negb _).
Qed.

Lemma deriveTotal_zero : deriveTotal zero = zero.
Proof. done. Qed.

Lemma deriveTotal_gemini (node : Result) :
  deriveTotal (parseGeminiFamilyUsageDetail node) = parseGeminiFamilyUsageDetail node.
Proof.
  unfold parseGeminiFamilyUsageDetail. cbn [TotalTokens].
  destruct (Z.eqb_spec (Int (rGet node "totalTokenCount")) 0) as [E|E].
  - unfold deriveTotal.
    cbn [set_TotalTokens TotalTokens InputTokens OutputTokens ReasoningTokens].
    set (s3 := Int64.add (Int64.add (Int (rGet node "promptTokenCount"))
                                    (Int (rGet node "candidatesTokenCount")))
                         (Int (rGet node "thoughtsTokenCount"))).
    destruct (Z.eqb_spec s3 0) as [E0|E0]; [|done].
    rewrite E0. done.
  - unfold deriveTotal. cbn [TotalTokens].
    by rewrite (proj2 (Z.eqb_neq _ _) E).
Qed.

Lemma deriveTotal_claude (node : Result) :
  deriveTotal (claudeDetail node) = claudeDetail node.
Proof.
  unfold claudeDetail, deriveTotal.
  cbn [TotalTokens InputTokens OutputTokens ReasoningTokens].
  set (input := Int (rGet node "input_tokens")).
  set (output := Int (rGet node "output_tokens")).
  destruct (Z.eqb_spec (Int64.add input output) 0) as [E0|E0]; [|done].
  assert (E1 : Int64.add (Int64.add input output) 0 = 0).
  { rewrite E0. done. }
  rewrite E1. done.
Qed.

(** X3.  The Gemini-family detail takes the declared total, and
    Input+Output+Reasoning when none is declared; and the derivation at the
    head of [publishWithOutcome] changes no detail that a Gemini-family,
    Antigravity or Claude parser returned: the record carries it as
    parsed. *)
Theorem publish_keeps_gemini_and_claude_details (data line : string)
    (node : Result) :
  let declared := Int (rGet node "totalTokenCount") in
  let derived :=
    Int64.add (Int64.add (Int (rGet node "promptTokenCount"))
                         (Int (rGet node "candidatesTokenCount")))
              (Int (rGet node "thoughtsTokenCount")) in
  TotalTokens (parseGeminiFamilyUsageDetail node)
  = (if declared =? 0 then derived else declared) /\
  Forall (fun d => deriveTotal d = d)
         [parseGeminiFamilyUsageDetail node;
          parseGeminiUsage data; parseGeminiCLIUsage data;
          parseAntigravityUsage data;
          (parseGeminiStreamUsage line).1; (parseGeminiCLIStreamUsage line).1;
          (parseAntigravityStreamUsage line).1;
          parseClaudeUsage data; (parseClaudeStreamUsage line).1].
Proof.
  intros declared derived. split.
  { unfold parseGeminiFamilyUsageDetail. cbn [TotalTokens].
    fold declared. by destruct (declared =? 0). }
  repeat constructor;
    unfold parseGeminiUsage, parseGeminiCLIUsage, parseAntigravityUsage,
      parseGeminiStreamUsage, parseGeminiCLIStreamUsage,
      parseAntigravityStreamUsage, parseClaudeUsage, parseClaudeStreamUsage;
    repeat match goal with
           | |- context [if ?b then _ else _] =>
               lazymatch b with
               | negb (Exists _) => destruct b
               | _ || _ => destruct b
               end
           end;
    cbn [fst];
    first [apply deriveTotal_zero | apply deriveTotal_gemini
          | apply deriveTotal_claude].
Qed.


(** X4.  On a line whose payload is valid JSON, the Claude, Gemini and
    Antigravity stream parsers return what their whole-document parsers
    return on that payload, and report found exactly when the usage node
    exists. *)
Theorem stream_parsers_agree (line : string) :
  ValidBytes (jsonPayload line) = true ->
  let payload := jsonPayload line in
  parseClaudeStreamUsage line
  = (parseClaudeUsage payload, Exists (GetBytes payload "usage")) /\
  parseGeminiStreamUsage line
  = (parseGeminiUsage payload,
     Exists (orElse (GetBytes payload "usageMetadata")
                    (GetBytes payload "usage_metadata"))) /\
  parseAntigravityStreamUsage line
  = (parseAntigravityUsage payload,
     Exists (orElse (orElse (GetBytes payload "response.usageMetadata")
                            (GetBytes payload "usageMetadata"))
                    (GetBytes payload "usage_metadata"))).
Proof.
  intros Hv. cbv zeta.
  unfold parseClaudeStreamUsage, parseClaudeUsage, parseGeminiStreamUsage,
    parseGeminiUsage, parseAntigravityStreamUsage, parseAntigravityUsage.
  set (payload := jsonPayload line) in *. rewrite Hv, (valid_not_empty _ Hv).
  change (rGet (ParseBytes payload)) with (GetBytes payload). simpl.
  repeat split; by destruct (Exists _).
Qed.

(** X5.  On a line whose payload is valid JSON, the Gemini CLI stream
    parser agrees with [parseGeminiCLIUsage] when [response.usageMetadata]
    is there, and the OpenAI stream parser agrees with [parseOpenAIUsage]
    when the counts are under the Chat Completions names (the stream parser
    reads no other). *)
Theorem stream_parsers_agree_on_names (line : string) :
  ValidBytes (jsonPayload line) = true ->
  let payload := jsonPayload line in
  let usageNode := GetBytes payload "usage" in
  (Exists (GetBytes payload "response.usageMetadata") = true ->
   parseGeminiCLIStreamUsage line = (parseGeminiCLIUsage payload, true)) /\
  (Exists usageNode = true ->
   Exists (rGet usageNode "prompt_tokens") = true ->
   Exists (rGet usageNode "completion_tokens") = true ->
   Exists (rGet usageNode "prompt_tokens_details.cached_tokens") = true \/
   Exists (rGet usageNode "input_tokens_details.cached_tokens") = false ->
   Exists (rGet usageNode "completion_tokens_details.reasoning_tokens") = true \/
   Exists (rGet usageNode "output_tokens_details.reasoning_tokens") = false ->
   parseOpenAIStreamUsage line = (parseOpenAIUsage payload, true)).
Proof.
  intros Hv. cbv zeta. set (payload := jsonPayload line) in *.
  set (usageNode := GetBytes payload "usage"). split.
  - intros Hn. unfold parseGeminiCLIStreamUsage, parseGeminiCLIUsage.
    fold payload. rewrite Hv, (valid_not_empty _ Hv).
    change (rGet (ParseBytes payload)) with (GetBytes payload).
    unfold orElse. rewrite Hn. simpl. by rewrite Hn.
  - intros Hu Hp Hc Hcached Hreason.
    unfold parseOpenAIStreamUsage, parseOpenAIUsage.
    fold payload. rewrite Hv, (valid_not_empty _ Hv).
    change (rGet (ParseBytes payload)) with (GetBytes payload).
    fold usageNode. rewrite Hu, Hp, Hc. simpl. unfold countIfExists.
    assert (Hor : forall a b : Result,
              Exists a = true \/ Exists b = false ->
              (if Exists (if negb (Exists a) then b else a)
               then Int (if negb (Exists a) then b else a) else 0)
              = (if Exists a then Int a else 0)).
    { intros a b Hab. destruct (Exists a) eqn:Ha; simpl; [by rewrite Ha|].
      destruct Hab as [?|Hb]; [done|]. by rewrite Hb. }
    by rewrite !Hor.
Qed.

End Parsers.

Lemma stream_parsers_agree_witness :
  @parseGeminiStreamUsage examples.exampleFloat examples.geminiLine
  = ({| InputTokens := 3; OutputTokens := 4; ReasoningTokens := 2;
        CachedTokens := 0; TotalTokens := 9 |}, true).
Proof.
  pose proof (@stream_parsers_agree examples.exampleFloat examples.geminiLine
                ltac:(vm_compute; reflexivity)) as (_ & H & _).
  cbv zeta in H. rewrite H. vm_compute. reflexivity.
Defined.

Lemma stream_parsers_agree_on_names_witness :
  @parseOpenAIStreamUsage examples.exampleFloat examples.openaiLine
  = (@parseOpenAIUsage examples.exampleFloat (jsonPayload examples.openaiLine), true).
Proof.
  pose proof (@stream_parsers_agree_on_names examples.exampleFloat examples.openaiLine
                ltac:(vm_compute; reflexivity)) as [_ H].
  cbv zeta in H. apply H; try (vm_compute; reflexivity);
    right; vm_compute; reflexivity.
Defined.

End parsers_props.

(** ** Capturing and failure tracking *)

Module capture_props.

Import Bytes gjson coreusage executor.

Section Capture.
Context `{F : Float64} `{T : TimeOps}.

Lemma sameIdentity_refl (a : usageReporter) : sameIdentity a a.
Proof. by repeat split. Qed.

Lemma captureFinishReasons_frame (rep : usageReporter) (choices : Result) :
  let rep' := captureFinishReasons rep choices in
  sameIdentity rep rep' /\ inputPayload rep' = inputPayload rep /\
  outputPayload rep' = outputPayload rep /\ respID rep' = respID rep /\
  exists more, finishReasons rep' = finishReasons rep ++ more.
Proof.
  unfold captureFinishReasons. destruct (IsArray choices).
  2:{ repeat split. exists []. by rewrite app_nil_r. }
  generalize (arrayItems choices). intros items. revert rep.
  induction items as [|x items IH]; intros rep; simpl.
  { repeat split. exists []. by rewrite app_nil_r. }
  destruct (is_empty (String_ (Get x "finish_reason"))); [apply IH|].
  destruct (IH (set_finishReasons rep
                  (finishReasons rep ++ [String_ (Get x "finish_reason")])))
    as (Hid & Hin & Hout & Hresp & more & Hmore).
  split; [exact Hid|]. repeat split; try done.
  exists (String_ (Get x "finish_reason") :: more).
  rewrite Hmore. simpl. by rewrite <- app_assoc.
Qed.

(** X6.  No capture method fires the latch or changes whom the request
    belongs to.  [SetInput] changes the input alone and [SetOutput] the
    output alone; [AppendOutput] appends the chunk; [CaptureStreamChunk]
    leaves the input, only appends to the output and to the finish reasons,
    and never blanks a response id. *)
Theorem capture_keeps_latch_and_identity (rep : usageReporter) (payload : string) :
  (exists rep', SetInput (Some rep) payload = Some rep' /\
     sameIdentity rep rep' /\ outputPayload rep' = outputPayload rep /\
     respID rep' = respID rep /\ finishReasons rep' = finishReasons rep) /\
  (exists rep', SetOutput (Some rep) payload = Some rep' /\
     sameIdentity rep rep' /\ inputPayload rep' = inputPayload rep /\
     respID rep' = respID rep /\ finishReasons rep' = finishReasons rep) /\
  (exists rep', AppendOutput (Some rep) payload = Some rep' /\
     sameIdentity rep rep' /\ inputPayload rep' = inputPayload rep /\
     outputPayload rep' = outputPayload rep +:+ payload /\
     respID rep' = respID rep /\ finishReasons rep' = finishReasons rep) /\
  (exists rep', CaptureStreamChunk (Some rep) payload = Some rep' /\
     sameIdentity rep rep' /\ inputPayload rep' = inputPayload rep /\
     (exists text, outputPayload rep' = outputPayload rep +:+ text) /\
     (exists more, finishReasons rep' = finishReasons rep ++ more) /\
     (respID rep' = respID rep \/ respID rep' <> EmptyString)).
Proof.
  assert (Hsame : forall r, r = rep ->
            sameIdentity rep r /\ inputPayload r = inputPayload rep /\
            (exists text, outputPayload r = outputPayload rep +:+ text) /\
            (exists more, finishReasons r = finishReasons rep ++ more) /\
            (respID r = respID rep \/ respID r <> EmptyString)).
  { intros r ->. split; [apply sameIdentity_refl|]. split; [done|].
    split; [exists EmptyString; by rewrite BytesFacts.append_empty_r|].
    split; [exists []; by rewrite app_nil_r|by left]. }
  split; [|split; [|split]].
  - simpl. destruct (is_empty payload); eexists; (split; [done|]);
      by repeat split.
  - simpl. destruct (is_empty payload); eexists; (split; [done|]);
      by repeat split.
  - simpl. destruct (is_empty payload) eqn:He; eexists; (split; [done|]);
      repeat split; try done.
    destruct payload; [|done]. by rewrite BytesFacts.append_empty_r.
  - unfold CaptureStreamChunk.
    destruct (is_empty payload); [exists rep; split; [done|by apply Hsame]|].
    set (trimmed := if HasPrefix (TrimSpace payload) "data:"
                    then TrimSpace (drop 5 (TrimSpace payload))
                    else TrimSpace payload).
    destruct (is_empty trimmed || negb (ValidBytes trimmed));
      [exists rep; split; [done|by apply Hsame]|].
    set (id := String_ (GetBytes trimmed "id")).
    set (rep1 := if is_empty id then rep else set_respID rep id).
    assert (H1 : sameIdentity rep rep1 /\ inputPayload rep1 = inputPayload rep /\
                 outputPayload rep1 = outputPayload rep /\
                 finishReasons rep1 = finishReasons rep /\
                 (respID rep1 = respID rep \/ respID rep1 <> EmptyString)).
    { unfold rep1. destruct (is_empty id) eqn:Hid.
      - split; [apply sameIdentity_refl|]. repeat split; by left.
      - repeat split; try done. right. simpl. by destruct id. }
    destruct H1 as (Hid1 & Hin1 & Hout1 & Hfin1 & Hresp1).
    destruct (captureFinishReasons_frame rep1 (GetBytes trimmed "choices"))
      as (Hid2 & Hin2 & Hout2 & Hresp2 & more & Hmore).
    set (rep2 := captureFinishReasons rep1 (GetBytes trimmed "choices")) in *.
    assert (Hid : sameIdentity rep rep2).
    { unfold sameIdentity in *. intuition congruence. }
    assert (Happend : forall text,
              sameIdentity rep (set_outputPayload rep2 (outputPayload rep2 +:+ text)) /\
              inputPayload (set_outputPayload rep2 (outputPayload rep2 +:+ text))
              = inputPayload rep /\
              (exists t, outputPayload (set_outputPayload rep2 (outputPayload rep2 +:+ text))
                         = outputPayload rep +:+ t) /\
              (exists m, finishReasons (set_outputPayload rep2 (outputPayload rep2 +:+ text))
                         = finishReasons rep ++ m) /\
              (respID (set_outputPayload rep2 (outputPayload rep2 +:+ text)) = respID rep \/
               respID (set_outputPayload rep2 (outputPayload rep2 +:+ text)) <> EmptyString)).
    { intros text. simpl. split; [exact Hid|]. split; [congruence|].
      split; [exists text; congruence|]. split; [exists more; congruence|].
      rewrite Hresp2. exact Hresp1. }
    repeat match goal with
           | |- context [if negb (is_empty ?c) then _ else _] =>
               destruct (negb (is_empty c))
           end;
      eexists; (split; [reflexivity|]); try apply Happend.
    split; [exact Hid|]. split; [congruence|].
    split; [exists EmptyString; rewrite BytesFacts.append_empty_r; congruence|].
    split; [exists more; congruence|]. rewrite Hresp2. exact Hresp1.
Qed.

(** X7.  [trackFailure] followed by [ensurePublished] on a fresh
    reporter publishes exactly one record, of the zero detail, failed
    exactly when the tracked error is not nil; [trackFailure] alone publishes
    only then, and does nothing on a nil reporter. *)
Theorem trackFailure_then_ensurePublished (rep : usageReporter)
    (ctx ctx' : option Ctx) (errPtr : option (option string)) (w : World) :
  once rep = false ->
  let failed := match errPtr with Some (Some _) => true | _ => false end in
  let after := trackFailure (Some rep) ctx errPtr w in
  published (ensurePublished after.1 ctx' after.2).2
  = published w ++ [recordOf rep zero failed] /\
  published after.2 = (if failed then published w ++ [recordOf rep zero true]
                       else published w) /\
  trackFailure None ctx errPtr w = (None, w).
Proof.
  intros Hoff failed after. subst failed after.
  destruct errPtr as [[e|]|]; simpl;
    unfold publishFailure, ensurePublished, publishWithOutcome;
    rewrite Hoff; simpl; try rewrite Hoff; done.
Qed.

End Capture.

Lemma trackFailure_witness :
  published
    (ensurePublished
       (trackFailure (Some examples.exampleReporter) None (Some (Some "boom"))
                     examples.emptyWorld).1
       None
       (trackFailure (Some examples.exampleReporter) None (Some (Some "boom"))
                     examples.emptyWorld).2).2
  = [recordOf examples.exampleReporter zero true].
Proof.
  pose proof (@trackFailure_then_ensurePublished examples.exampleTime
                examples.exampleReporter None None (Some (Some "boom"))
                examples.emptyWorld eq_refl) as [H _].
  cbv zeta in H. exact H.
Defined.

End capture_props.

(** ** The rewrite of a usage chunk *)

Module strip_props.

Import Bytes BytesFacts gjson sjson coreusage executor.

Lemma isSpace2_close (b : ascii) : isSpace2 b "}" = false.
Proof. unfold isSpace2. by repeat case_match. Qed.

Lemma isSpace3_close (c b : ascii) : isSpace3 c b "}" = false.
Proof. unfold isSpace3. by repeat case_match. Qed.

Lemma trimLeft_open (r : string) : trimLeft (String "{" r) = String "{" r.
Proof. destruct r as [|b [|c r]]; reflexivity. Qed.

Lemma trimLeftRev_close (r : string) : trimLeftRev (String "}" r) = String "}" r.
Proof.
  destruct r as [|b [|c r]]; cbn [trimLeftRev];
    change (isAsciiSpace "}") with false; cbn iota;
    rewrite ?isSpace2_close, ?isSpace3_close; reflexivity.
Qed.

(** Text between braces has no white space to trim. *)
Lemma TrimSpace_braces (x : string) :
  TrimSpace ("{" +:+ x +:+ "}") = "{" +:+ x +:+ "}".
Proof.
  unfold TrimSpace. rewrite append_cons, append_nil_l, trimLeft_open.
  unfold trimRight.
  change (String "{" (x +:+ "}")) with (String "{" x +:+ "}") at 1.
  rewrite rev_append. change (String.rev "}") with "}".
  rewrite append_cons, append_nil_l, trimLeftRev_close.
  change (String "}" (String.rev (String "{" x)))
    with (String.rev "}" +:+ String.rev (String "{" x)).
  rewrite <- rev_append, rev_involutive. done.
Qed.

Lemma TrimSpace_render_object (ms : list (string * json)) :
  TrimSpace (render (JObject ms)) = render (JObject ms).
Proof. rewrite parser_props.render_object. apply TrimSpace_braces. Qed.

Section Strip.
Context `{F : Float64}.

Lemma renameUsage_changed (doc : json) :
  is_Some (Get doc "usageMetadata") \/ is_Some (Get doc "response.usageMetadata") ->
  (renameUsage doc).2 = true.
Proof.
  intros H. unfold renameUsage.
  destruct (Get doc "usageMetadata") as [u|] eqn:Hu.
  - cbv beta iota zeta. by destruct (Get (Delete _ _) "response.usageMetadata").
  - destruct H as [[? ?]|[u Hw]]; [done|]. cbv beta iota zeta. by rewrite Hw.
Qed.

Lemma Strip_changed_has_usage (rawJSON cleaned : string) :
  StripUsageMetadataFromJSON rawJSON = (cleaned, true) ->
  hasUsageMetadata (TrimSpace rawJSON) = true /\
  terminalReason (TrimSpace rawJSON) = false /\
  cleaned <> EmptyString.
Proof.
  intros Hs.
  destruct (filter_props.Strip_changed_valid _ _ Hs) as (doc & Hp & _ & Hvalid).
  assert (Hne : cleaned <> EmptyString).
  { intros ->. by rewrite filter_props.parse_empty in Hvalid. }
  revert Hs. unfold StripUsageMetadataFromJSON, hasUsageMetadata.
  destruct (is_empty (TrimSpace rawJSON) || negb (ValidBytes (TrimSpace rawJSON)));
    [done|].
  destruct (terminalReason (TrimSpace rawJSON)); [done|].
  destruct (Exists (GetBytes (TrimSpace rawJSON) "usageMetadata")); simpl;
    [done|].
  by destruct (Exists (GetBytes (TrimSpace rawJSON) "response.usageMetadata")).
Qed.

(** X8.  When [StripUsageMetadataFromJSON] reports no change it returns
    its input, byte for byte; when it reports a change, what it returns is
    valid JSON, and the input carried usage metadata and declared no finish
    reason. *)
Theorem Strip_contract (rawJSON : string) :
  ((StripUsageMetadataFromJSON rawJSON).2 = false ->
   (StripUsageMetadataFromJSON rawJSON).1 = rawJSON) /\
  ((StripUsageMetadataFromJSON rawJSON).2 = true ->
   ValidBytes (StripUsageMetadataFromJSON rawJSON).1 = true /\
   hasUsageMetadata (TrimSpace rawJSON) = true /\
   terminalReason (TrimSpace rawJSON) = false).
Proof.
  split.
  - unfold StripUsageMetadataFromJSON.
    destruct (is_empty (TrimSpace rawJSON) || negb (ValidBytes (TrimSpace rawJSON)));
      [done|].
    destruct (terminalReason (TrimSpace rawJSON)); [done|].
    destruct (Exists (if negb (Exists (GetBytes (TrimSpace rawJSON) "usageMetadata"))
                      then GetBytes (TrimSpace rawJSON) "response.usageMetadata"
                      else GetBytes (TrimSpace rawJSON) "usageMetadata")) eqn:Hex;
      [|done].
    simpl. unfold GetBytes, ParseBytes, rGet in Hex.
    destruct (parse (TrimSpace rawJSON)) as [doc|]; [|done]. simpl in Hex.
    pose proof (renameUsage_changed doc) as Hch.
    destruct (renameUsage doc) as [cleaned changed]. simpl in *.
    intros ->. exfalso.
    assert (false = true); [apply Hch|done].
    destruct (Exists (Get doc "usageMetadata")) eqn:Ht; simpl in Hex.
    + left. by apply filter_props.Exists_true.
    + right. by apply filter_props.Exists_true.
  - destruct (StripUsageMetadataFromJSON rawJSON) as [cleaned changed] eqn:Hs.
    simpl. intros ->.
    destruct (filter_props.Strip_changed_valid _ _ Hs) as (doc & Hp & _ & Hvalid).
    split; [apply filter_props.ValidBytes_true; by rewrite Hvalid|].
    destruct (Strip_changed_has_usage _ _ Hs) as (Hhas & Hterm & _). done.
Qed.


Lemma moved_unique_gone (u : json) (ms ms' : list (string * json)) :
  moved u ms ms' -> (count_key usageKey ms <= 1)%nat ->
  lookup_key usageKey ms' = None.
Proof.
  intros [_ Hc] Hle. apply json_props.count_zero_lookup. lia.
Qed.

(** The renames on an object that names [response] and, at each level,
    [usageMetadata] once at most leave no usage node behind. *)
Lemma renameUsage_no_usage (ms : list (string * json)) :
  (count_key "response" ms <= 1)%nat ->
  (count_key usageKey ms <= 1)%nat ->
  (forall rs, lookup_key "response" ms = Some (JObject rs) ->
              (count_key usageKey rs <= 1)%nat) ->
  exists ms', (renameUsage (JObject ms)).1 = JObject ms' /\
              (count_key "response" ms' <= 1)%nat /\
              lookup_key usageKey ms' = None /\ wrappedUsage ms' = None.
Proof.
  intros Hresp Htop Hwrap. unfold renameUsage. rewrite json_props.Get_top.
  set (ms1 := match lookup_key usageKey ms with
              | Some u => shadowRename u ms
              | None => ms
              end).
  assert (H1 : lookup_key usageKey ms1 = None /\
               lookup_key "response" ms1 = lookup_key "response" ms /\
               count_key "response" ms1 = count_key "response" ms).
  { unfold ms1. destruct (lookup_key usageKey ms) as [u|] eqn:Hu; [|done].
    destruct (json_props.shadowRename_moved u ms Hu) as [Hm Hk].
    split; [by apply (moved_unique_gone u ms)|].
    apply Hk. json_props.name_list. }
  destruct H1 as (Hu1 & Hr1 & Hc1).
  assert (Hfirst :
    match lookup_key usageKey ms with
    | Some usageMetadata =>
        (Delete (SetRaw (JObject ms) "cpaUsageMetadata" usageMetadata)
                "usageMetadata", true)
    | None => (JObject ms, false)
    end = (JObject ms1, bool_decide (is_Some (lookup_key usageKey ms)))).
  { unfold ms1. destruct (lookup_key usageKey ms) as [u|] eqn:Hu; [|done].
    by rewrite (json_props.SetRaw_Delete_top u ms Hu). }
  rewrite Hfirst. cbv beta iota zeta.
  rewrite json_props.Get_wrapped by lia.
  destruct (wrappedUsage ms1) as [u|] eqn:Hw.
  - unfold wrappedUsage in Hw.
    destruct (lookup_key "response" ms1) as [[| | | | | |rs]|] eqn:Hr; try done.
    rewrite (json_props.SetRaw_Delete_wrapped u ms1 rs Hr Hw). cbn [fst].
    eexists. split; [reflexivity|].
    split; [rewrite json_props.count_replace; lia|].
    split; [by rewrite json_props.lookup_replace_other|].
    unfold wrappedUsage.
    rewrite json_props.lookup_replace_same by (by rewrite Hr).
    destruct (json_props.shadowRename_moved u rs Hw) as [Hm _].
    apply (moved_unique_gone u rs _ Hm). apply Hwrap. by rewrite <- Hr1.
  - cbn [fst]. exists ms1. split; [done|]. split; [lia|]. done.
Qed.

(** X9.  On an object that names [response] and, at each level,
    [usageMetadata] once at most, what [StripUsageMetadataFromJSON] returns as
    changed carries no usage metadata any more, and stripping it again
    changes nothing. *)
Theorem Strip_leaves_no_usage (rawJSON : string) (ms : list (string * json)) :
  parse (TrimSpace rawJSON) = Some (JObject ms) ->
  (StripUsageMetadataFromJSON rawJSON).2 = true ->
  (count_key "response" ms <= 1)%nat ->
  (count_key usageKey ms <= 1)%nat ->
  (forall rs, lookup_key "response" ms = Some (JObject rs) ->
              (count_key usageKey rs <= 1)%nat) ->
  let cleaned := (StripUsageMetadataFromJSON rawJSON).1 in
  hasUsageMetadata cleaned = false /\
  StripUsageMetadataFromJSON cleaned = (cleaned, false).
Proof.
  intros Hparse Hchanged Hresp Htop Hwrap cleaned.
  destruct (StripUsageMetadataFromJSON rawJSON) as [c changed] eqn:Hs.
  simpl in Hchanged. subst changed cleaned. cbn [fst].
  destruct (filter_props.Strip_changed_valid _ _ Hs) as (doc & Hp & Hc & Hvalid).
  rewrite Hparse in Hp. injection Hp as <-.
  destruct (renameUsage_no_usage ms Hresp Htop Hwrap) as (ms' & Hms' & Hr' & Hu' & Hw').
  rewrite Hms' in *.
  assert (Hhas : hasUsageMetadata c = false).
  { unfold hasUsageMetadata, GetBytes, ParseBytes, rGet. rewrite Hvalid.
    cbn [mbind option_bind].
    rewrite json_props.Get_top, json_props.Get_wrapped, Hu', Hw' by done.
    by destruct (is_empty c || negb (ValidBytes c)). }
  split; [exact Hhas|].
  assert (Ht : TrimSpace c = c) by (rewrite Hc; apply TrimSpace_render_object).
  unfold StripUsageMetadataFromJSON. rewrite Ht.
  unfold hasUsageMetadata in Hhas.
  destruct (is_empty c || negb (ValidBytes c)); [done|].
  destruct (terminalReason c); [done|].
  destruct (Exists (GetBytes c "usageMetadata")); [done|]. simpl.
  by destruct (Exists (GetBytes c "response.usageMetadata")).
Qed.


(** X10.  A data line whose JSON [StripUsageMetadataFromJSON] changes,
    and whose trace id is empty or not in the correlation memory, is
    rewritten in place: what came before [data:] in the line, then [data: ]
    and the cleaned JSON; the memory is left as it was and the other lines
    are filtered as before. *)
Theorem usage_line_is_rewritten_in_place (mem : gset string) (payload : string)
    (pre : list string) (line : string) (post : list string) (dataIdx : nat)
    (rawJSON cleaned : string) :
  Split payload = pre ++ line :: post ->
  dataJSON line = Some (dataIdx, rawJSON) ->
  StripUsageMetadataFromJSON rawJSON = (cleaned, true) ->
  let before := filterLines mem pre in
  traceIDOf rawJSON = EmptyString \/ traceIDOf rawJSON ∉ before.1.1.1 ->
  let rebuilt := take dataIdx line +:+ "data: " +:+ cleaned in
  let after := filterLines before.1.1.1 post in
  filterLine before.1.1.1 line
  = {| memory := before.1.1.1; output := rebuilt; modified := true;
       foundData := true |} /\
  FilterSSEUsageMetadata mem payload
  = (after.1.1.1, Join (before.1.1.2 ++ rebuilt :: after.1.1.2)).
Proof.
  intros Hsplit Hdata Hstrip before Hid rebuilt after.
  destruct (Strip_changed_has_usage _ _ Hstrip) as (Hhas & _ & Hne).
  rewrite (filter_props.dataJSON_trimmed _ _ _ Hdata) in Hhas.
  assert (Hstep : filterLine before.1.1.1 line
                  = {| memory := before.1.1.1; output := rebuilt;
                       modified := true; foundData := true |}).
  { rewrite (filter_props.filterLine_data _ _ _ _ Hdata). unfold filterData.
    rewrite (filter_props.isStop_hasUsage _ Hhas). cbn [andb].
    fold (traceIDOf rawJSON).
    assert (Hmiss : negb (is_empty (traceIDOf rawJSON))
                    && bool_decide (traceIDOf rawJSON ∈ before.1.1.1) = false).
    { destruct Hid as [-> | Hn]; [done|].
      rewrite (bool_decide_eq_false_2 _ Hn). apply andb_false_r. }
    rewrite Hmiss. cbn [andb]. rewrite Hstrip. cbn [negb].
    destruct cleaned as [|c r]; [done|]. done. }
  split; [exact Hstep|].
  rewrite (filter_props.FilterSSE_at_line mem payload pre line post Hsplit);
    fold before; by rewrite Hstep.
Qed.

End Strip.

Lemma Strip_leaves_no_usage_witness :
  @hasUsageMetadata
    (@StripUsageMetadataFromJSON examples.exampleFloat examples.usageChunk).1
  = false.
Proof.
  refine (proj1 (@Strip_leaves_no_usage examples.exampleFloat examples.usageChunk
                   examples.usageChunkMembers _ _ _ _ _)).
  - vm_compute. reflexivity.
  - vm_compute. reflexivity.
  - vm_compute. lia.
  - vm_compute. lia.
  - intros rs Hrs. vm_compute in Hrs. injection Hrs as <-. vm_compute. lia.
Defined.

Lemma usage_line_is_rewritten_witness :
  (@FilterSSEUsageMetadata examples.exampleFloat ∅ examples.usageLine).2
  = examples.renamedLine.
Proof.
  pose proof (@usage_line_is_rewritten_in_place examples.exampleFloat ∅
                examples.usageLine [] examples.usageLine [] 0%nat
                (q "{'usageMetadata':{'totalTokenCount':7},'traceId':'abc'}")
                (q "{'traceId':'abc','cpaUsageMetadata':{'totalTokenCount':7}}")
                ltac:(vm_compute; reflexivity) ltac:(vm_compute; reflexivity)
                ltac:(vm_compute; reflexivity)) as H.
  cbv zeta in H. destruct (H ltac:(right; apply not_elem_of_empty)) as [_ Hout].
  rewrite Hout. vm_compute. reflexivity.
Defined.

End strip_props.

(** ** The statistics store: recording, merging, export and import *)

Module store_props.

Import Bytes statistics Int64Facts merge_props totals_props.

Section Counting.
Context `{T : TimeOps}.

Lemma msum_empty {V} (f : V -> Z) : msum f ∅ = 0.
Proof. unfold msum. by rewrite map_fold_empty. Qed.

Lemma msum_insert_new {V} (f : V -> Z) (m : gmap string V) k v :
  m !! k = None -> msum f (<[k:=v]> m) = f v + msum f m.
Proof.
  intros Hk. unfold msum. rewrite map_fold_insert_L; [done| |done].
  intros. lia.
Qed.

Lemma msum_insert {V} (f : V -> Z) (m : gmap string V) k v :
  msum f (<[k:=v]> m) = msum f m - from_option f 0 (m !! k) + f v.
Proof.
  destruct (m !! k) as [old|] eqn:Hk; simpl.
  - rewrite <- (insert_delete_eq m k v) at 1.
    rewrite msum_insert_new by apply lookup_delete_eq.
    rewrite <- (insert_delete_id m k old Hk) at 2.
    rewrite msum_insert_new by apply lookup_delete_eq. lia.
  - rewrite msum_insert_new by done. lia.
Qed.

Lemma sumOver_snoc w ds d : sumOver w (ds ++ [d]) = sumOver w ds + w d.
Proof. induction ds as [|x ds IH]; simpl; [lia|]. rewrite IH. lia. Qed.

Lemma tally_updateAPIStats w stats model d :
  tally w (aModels (updateAPIStats stats model d)) = tally w (aModels stats) + w d.
Proof.
  unfold tally, updateAPIStats. simpl. rewrite msum_insert. simpl.
  destruct (aModels stats !! model) as [ms|]; simpl; rewrite ?sumOver_snoc; simpl; lia.
Qed.


Lemma storeTally_insert w (s : RequestStatistics) api stats' :
  msum (fun stats => tally w (aModels stats)) (<[api := stats']> (apis s))
  = storeTally w s
    - from_option (fun stats => tally w (aModels stats)) 0 (apis s !! api)
    + tally w (aModels stats').
Proof. unfold storeTally. by rewrite msum_insert. Qed.

Lemma tally_newAPIStats w : tally w (aModels newAPIStats) = 0.
Proof. unfold tally. simpl. apply msum_empty. Qed.

Lemma storeTally_filed w (s : RequestStatistics) api model d :
  msum (fun stats => tally w (aModels stats))
       (<[api := updateAPIStats (default newAPIStats (apis s !! api)) model d]>
          (apis s))
  = storeTally w s + w d.
Proof.
  rewrite storeTally_insert, tally_updateAPIStats.
  destruct (apis s !! api) as [stats|]; simpl; [lia|].
  rewrite tally_newAPIStats. lia.
Qed.

Lemma Counted_new : Counted NewRequestStatistics.
Proof.
  unfold Counted, storeTally. simpl. rewrite !msum_empty.
  split; [done|]. split; [done|]. split; [done|].
  intros api stats H. by rewrite lookup_empty in H.
Qed.

(** Filing a detail under an API and a model, whatever is done to the
    token total and to the day and hour maps. *)
Lemma Counted_filed (s s' : RequestStatistics) api model d :
  Counted s ->
  totalRequests s' = Int64.incr (totalRequests s) ->
  successCount s'
  = (if Failed d then successCount s else Int64.incr (successCount s)) ->
  failureCount s'
  = (if Failed d then Int64.incr (failureCount s) else failureCount s) ->
  apis s'
  = <[api := updateAPIStats (default newAPIStats (apis s !! api)) model d]>
      (apis s) ->
  Counted s'.
Proof.
  intros (Ht & Hs & Hf & Hapis) Ht' Hs' Hf' Ha'.
  unfold Counted, storeTally. rewrite Ha', !storeTally_filed, Ht', Hs', Hf'.
  unfold Int64.incr. rewrite Ht, Hs, Hf.
  split; [by rewrite wrap_add_l|].
  split; [change (whenSucceeded d) with (if Failed d then 0 else 1); destruct (Failed d);
          [by rewrite Z.add_0_r|by rewrite wrap_add_l]|].
  split; [change (whenFailed d) with (if Failed d then 1 else 0); destruct (Failed d);
          [by rewrite wrap_add_l|by rewrite Z.add_0_r]|].
  intros api' stats' Hl.
  destruct (decide (api' = api)) as [->|Hne].
  - rewrite lookup_insert_eq in Hl. injection Hl as <-.
    rewrite !tally_updateAPIStats.
    assert (Hold : aTotalRequests (default newAPIStats (apis s !! api))
                   = Int64.wrap (tally each (aModels (default newAPIStats (apis s !! api)))) /\
                   aTotalTokens (default newAPIStats (apis s !! api))
                   = Int64.wrap (tally itsTokens (aModels (default newAPIStats (apis s !! api)))) /\
                   forall model ms,
                     aModels (default newAPIStats (apis s !! api)) !! model = Some ms ->
                     mTotalRequests ms = Int64.wrap (Z.of_nat (length (mDetails ms))) /\
                     mTotalTokens ms = Int64.wrap (sumOver itsTokens (mDetails ms))).
    { destruct (apis s !! api) as [stats|] eqn:Hl0; simpl; [by apply (Hapis api)|].
      rewrite !tally_newAPIStats. split; [done|]. split; [done|].
      intros m ms H. by rewrite lookup_empty in H. }
    destruct Hold as (Hr & Hk & Hm).
    set (stats := default newAPIStats (apis s !! api)) in *.
    split; [simpl; rewrite Hr; unfold Int64.incr, each; by rewrite wrap_add_l|].
    split; [simpl; rewrite Hk; unfold Int64.add, itsTokens; by rewrite wrap_add_l|].
    intros model' ms' Hl'. simpl in Hl'.
    destruct (decide (model' = model)) as [->|Hne].
    + rewrite lookup_insert_eq in Hl'. injection Hl' as <-. simpl.
      rewrite length_app, sumOver_snoc. simpl.
      destruct (aModels stats !! model) as [ms|] eqn:Hms; simpl.
      * destruct (Hm _ _ Hms) as [-> ->].
        unfold Int64.incr, Int64.add. rewrite !wrap_add_l.
        split; f_equal; unfold itsTokens; lia.
      * unfold Int64.incr, Int64.add, itsTokens. split; f_equal; lia.
    + rewrite lookup_insert_ne in Hl' by done. by apply Hm in Hl'.
  - rewrite lookup_insert_ne in Hl by done. by apply (Hapis api').
Qed.

Lemma Counted_recordImported s api model d :
  Counted s -> Counted (recordImported s api model d).
Proof. intros H. by eapply (Counted_filed s _ api model d). Qed.

Lemma Counted_Record s enabled now record s' :
  Counted s -> Record (Some s) enabled now record = Some s' -> Counted s'.
Proof.
  intros H. unfold Record. destruct enabled; simpl; intros [= <-]; [|done].
  by eapply (Counted_filed s _ (statsKeyOf record) (modelNameOf record)
               (detailOf now record)).
Qed.

End Counting.

Section Accounting.
Context `{T : TimeOps}.
Variable now : nat -> Time.

Lemma accounted_same st st' :
  store st' = store st -> result st' = result st -> accounted st st' 0.
Proof.
  intros Hs Hr. unfold accounted. rewrite Hs, Hr.
  split; [done|]. split; [done|]. exists O, O. simpl.
  rewrite Z.add_0_r. done.
Qed.

Lemma accounted_refl st : accounted st st 0.
Proof. by apply accounted_same. Qed.

Lemma accounted_trans st1 st2 st3 n m :
  accounted st1 st2 n -> accounted st2 st3 m -> accounted st1 st3 (n + m).
Proof.
  intros (Hp1 & Hc1 & a1 & k1 & Hn & Ha1 & Hk1 & Hr1 & Ht1)
         (Hp2 & Hc2 & a2 & k2 & Hm & Ha2 & Hk2 & Hr2 & Ht2).
  split.
  { intros api model. transitivity (rows (store st2) api model);
      [apply Hp1|apply Hp2]. }
  split; [auto|].
  exists (a2 + a1)%nat, (k2 + k1)%nat.
  rewrite !Nat.iter_add, <- Ha1, <- Hk1, <- Ht1.
  split; [lia|]. split; [done|]. split; [done|]. split; [lia|done].
Qed.

Lemma foldl_accounted {A} (f : mergeState -> A -> mergeState) (size : A -> nat) :
  (forall st x, accounted st (f st x) (size x)) ->
  forall l st, accounted st (foldl f st l) (sum_list_with size l).
Proof.
  intros Hstep l. induction l as [|x l IH]; intros st; simpl.
  - apply accounted_refl.
  - eapply accounted_trans; [apply Hstep|apply IH].
Qed.

Lemma skip_accounted st st' :
  store st' = store st -> Added (result st') = Added (result st) ->
  Skipped (result st') = Int64.incr (Skipped (result st)) ->
  accounted st st' 1.
Proof.
  intros Hs Ha Hk. unfold accounted. rewrite Hs, Ha, Hk.
  split; [done|]. split; [done|]. exists O, 1%nat. simpl.
  rewrite Z.add_0_r. done.
Qed.

Lemma add_accounted st st' api model d :
  store st' = recordImported (store st) api model d ->
  Added (result st') = Int64.incr (Added (result st)) ->
  Skipped (result st') = Skipped (result st) ->
  accounted st st' 1.
Proof.
  intros Hs Ha Hk. unfold accounted. rewrite Hs, Ha, Hk.
  split.
  { intros api' model'. rewrite rows_recordImported.
    destruct (decide _) as [[-> ->]|_]; [by apply prefix_app_r|done]. }
  split; [apply Counted_recordImported|].
  exists 1%nat, O. simpl. split; [done|]. split; [done|]. split; [done|].
  split; [|done]. exact (storeTally_filed each (store st) api model d).
Qed.

Lemma mergeDetail_accounted api model st d :
  accounted st (mergeDetail now api model st d) 1.
Proof.
  unfold mergeDetail.
  destruct (IsZero _); cbv beta iota zeta;
    (destruct (bool_decide _);
     [by apply skip_accounted|by eapply add_accounted]).
Qed.

Lemma mergeModel_accounted api st (m : string * ModelSnapshot) :
  accounted st (mergeModel now api st m) (length (Details m.2)).
Proof.
  unfold mergeModel.
  replace (length (Details m.2)) with (sum_list_with (fun _ => 1%nat) (Details m.2)).
  - apply foldl_accounted. intros. apply mergeDetail_accounted.
  - induction (Details m.2); simpl; [done|lia].
Qed.

Lemma length_bind_sum {A B} (f : A -> list B) (l : list A) :
  length (l ≫= f) = sum_list_with (fun x => length (f x)) l.
Proof. induction l as [|x l IH]; csimpl; [done|]. by rewrite length_app, IH. Qed.

Lemma storeTally_fresh w (s : RequestStatistics) api :
  apis s !! api = None ->
  msum (fun stats => tally w (aModels stats)) (<[api := newAPIStats]> (apis s))
  = storeTally w s.
Proof.
  intros Hl. rewrite msum_insert_new by done. rewrite tally_newAPIStats.
  unfold storeTally. lia.
Qed.

Lemma mergeAPI_accounted st (a : string * APISnapshot) :
  accounted st (mergeAPI now st a) (length (apiEntries a)).
Proof.
  unfold mergeAPI, apiEntries.
  destruct (bool_decide (TrimSpace a.1 = EmptyString)); [apply accounted_refl|].
  rewrite length_bind_sum.
  change (sum_list_with _ (Models a.2))
    with (0 + sum_list_with (fun m : string * ModelSnapshot =>
                 length ((fun d => (TrimSpace a.1, modelKey m.1, d)) <$> Details m.2))
              (Models a.2))%nat.
  eapply accounted_trans; [|apply foldl_accounted].
  - destruct (apis (store st) !! TrimSpace a.1) eqn:Hl; simpl;
      [by apply accounted_same|].
    split.
    { intros api model. unfold rows; simpl.
      destruct (decide (api = TrimSpace a.1)) as [->|Hne].
      - rewrite lookup_insert_eq, Hl. simpl. by rewrite lookup_empty.
      - by rewrite lookup_insert_ne. }
    split.
    { intros (Ht & Hs & Hf & Hapis). unfold Counted.
      unfold storeTally at 1 2 3. cbn [store apis totalRequests successCount failureCount].
      rewrite !storeTally_fresh by done.
      split; [done|]. split; [done|]. split; [done|].
      intros api stats Hs'.
      destruct (decide (api = TrimSpace a.1)) as [->|Hne].
      - rewrite lookup_insert_eq in Hs'. injection Hs' as <-.
        rewrite !tally_newAPIStats. split; [done|]. split; [done|].
        intros model ms H. simpl in H. by rewrite lookup_empty in H.
      - rewrite lookup_insert_ne in Hs' by done. by apply (Hapis api). }
    exists O, O. simpl. split; [done|]. split; [done|]. split; [done|].
    split; [|done]. unfold storeTally at 1. cbn [apis store].
    rewrite storeTally_fresh by done. lia.
  - intros st' m. rewrite length_fmap. apply mergeModel_accounted.
Qed.

Lemma merge_accounted st l :
  accounted st (foldl (mergeAPI now) st l) (length (l ≫= apiEntries)).
Proof.
  rewrite length_bind_sum. apply foldl_accounted. apply mergeAPI_accounted.
Qed.

End Accounting.

Section Store.
Context `{T : TimeOps}.

Lemma statsKeyOf_nonempty (record : UsageRecord) : statsKeyOf record <> EmptyString.
Proof.
  unfold statsKeyOf.
  destruct (bool_decide_reflect (coreusage.APIKey (base record) = EmptyString)) as [_|Hk];
    [|done].
  destruct (bool_decide_reflect (Method record <> EmptyString)) as [Hm|_]; simpl.
  - destruct (bool_decide_reflect (Path record <> EmptyString)) as [_|_].
    + destruct (Method record); [done|]. discriminate.
    + destruct (bool_decide_reflect (coreusage.Provider (base record) <> EmptyString));
        [done|discriminate].
  - destruct (bool_decide_reflect (coreusage.Provider (base record) <> EmptyString));
      [done|discriminate].
Qed.

Lemma modelNameOf_nonempty (record : UsageRecord) : modelNameOf record <> EmptyString.
Proof.
  unfold modelNameOf.
  destruct (bool_decide_reflect (coreusage.Model (base record) = EmptyString));
    [discriminate|done].
Qed.

Lemma rows_filed (s s' : RequestStatistics) api model d api' model' :
  apis s'
  = <[api := updateAPIStats (default newAPIStats (apis s !! api)) model d]>
      (apis s) ->
  rows s' api' model'
  = if decide (api' = api /\ model' = model)
    then rows s api model ++ [d] else rows s api' model'.
Proof.
  intros Ha. rewrite <- (rows_recordImported s api model d api' model').
  unfold rows. by rewrite Ha.
Qed.

(** X11.  With statistics enabled, [Record] files exactly one row: it is
    appended to the rows of one API and one model, neither name empty, and
    all other rows stay as they were.  A record that comes from the reporter
    is filed under its API key, else its provider, else [unknown].  With
    statistics disabled the store is left as it was, and a nil store stays
    nil. *)
Theorem Record_files_one_row (s : RequestStatistics) (now : Time)
    (record : UsageRecord) :
  exists s', Record (Some s) true now record = Some s' /\
    statsKeyOf record <> EmptyString /\ modelNameOf record <> EmptyString /\
    (forall api model,
       rows s' api model
       = if decide (api = statsKeyOf record /\ model = modelNameOf record)
         then rows s api model ++ [detailOf now record]
         else rows s api model) /\
    (forall r : coreusage.Record_,
       statsKeyOf (ofReporter r)
       = if bool_decide (coreusage.APIKey r = EmptyString)
         then if bool_decide (coreusage.Provider r = EmptyString)
              then "unknown" else coreusage.Provider r
         else coreusage.APIKey r) /\
    Record (Some s) false now record = Some s /\
    Record None true now record = None.
Proof.
  assert (HR : exists s', Record (Some s) true now record = Some s' /\
            apis s' = <[statsKeyOf record :=
                          updateAPIStats
                            (default newAPIStats (apis s !! statsKeyOf record))
                            (modelNameOf record) (detailOf now record)]> (apis s))
    by (eexists; split; reflexivity).
  destruct HR as (s' & HR & Ha). exists s'. split; [exact HR|].
  split; [apply statsKeyOf_nonempty|]. split; [apply modelNameOf_nonempty|].
  split.
  { intros api model.
    rewrite (rows_filed s _ (statsKeyOf record) (modelNameOf record)
               (detailOf now record) api model Ha).
    by destruct (decide _) as [[-> ->]|_]. }
  split; [|done].
  intros r. unfold statsKeyOf, ofReporter. simpl.
  destruct (bool_decide (coreusage.APIKey r = EmptyString)); [|done].
  by destruct (bool_decide_reflect (coreusage.Provider r = EmptyString)) as [->|?];
    [|rewrite bool_decide_eq_true_2].
Qed.

(** X12.  In a store whose counters count its rows (the total, the
    successes and the failures over all rows; the requests and tokens of each
    API and of each model over its own), they still do after [Record] and
    after [MergeSnapshot], whatever the record and the snapshot. *)
Theorem counters_count_rows (s : RequestStatistics) :
  Counted s ->
  (forall enabled now record s',
     Record (Some s) enabled now record = Some s' -> Counted s') /\
  (forall now snapshot, Counted (MergeSnapshot now s snapshot).1).
Proof.
  intros HC. split.
  - intros enabled now record s'. by apply Counted_Record.
  - intros now snapshot. unfold MergeSnapshot. cbn [fst].
    destruct (merge_accounted now
                {| store := s; seen := storeKeys s;
                   result := {| Added := 0; Skipped := 0 |}; ticks := O |}
                (APIs snapshot)) as (_ & H & _).
    by apply H.
Qed.

(** X13.  [MergeSnapshot] keeps every row the store held, in place, and
    accounts for every detail it looks at: Added and Skipped add up to the
    number of details filed under an API name that is not blank, the store
    gains exactly Added rows and its total is incremented Added times, and
    every such detail that carries a time has its key in the store
    afterwards. *)
Theorem merge_keeps_rows_and_accounts (now : nat -> Time)
    (s : RequestStatistics) (snapshot : StatisticsSnapshot) :
  let s' := (MergeSnapshot now s snapshot).1 in
  let res := (MergeSnapshot now s snapshot).2 in
  (forall api model, rows s api model `prefix_of` rows s' api model) /\
  (forall e, e ∈ entries snapshot -> IsZero (Timestamp e.2) = false ->
             dedupKey e.1.1 e.1.2 (prepared e.2) ∈ storeKeys s') /\
  exists added skipped : nat,
    (added + skipped)%nat = length (entries snapshot) /\
    Added res = Int64.wrap (Z.of_nat added) /\
    Skipped res = Int64.wrap (Z.of_nat skipped) /\
    storeTally each s' = storeTally each s + Z.of_nat added /\
    totalRequests s' = Nat.iter added Int64.incr (totalRequests s).
Proof.
  intros s' res. unfold s', res, MergeSnapshot. cbn [fst snd].
  set (st0 := {| store := s; seen := storeKeys s;
                 result := {| Added := 0; Skipped := 0 |}; ticks := O |}).
  destruct (merge_accounted now st0 (APIs snapshot))
    as (Hrows & _ & added & skipped & Hn & Ha & Hk & Hc & Ht).
  destruct (merge_first now st0 (APIs snapshot) eq_refl) as [HI Hdone].
  destruct (apiDone_entries _ snapshot Hdone) as [Hkeys _].
  split; [exact Hrows|]. split.
  - intros e He Hz. rewrite <- HI. by apply Hkeys.
  - exists added, skipped. simpl in Ha, Hk. rewrite iter_incr in Ha, Hk.
    done.
Qed.

Lemma dedupKey_prepared api model (d : RequestDetail) :
  dedupKey api model (prepared d) = dedupKey api model d.
Proof.
  unfold dedupKey, prepared. simpl. by rewrite normaliseTokenStats_idem.
Qed.

Lemma sumOver_one (ds : list RequestDetail) : sumOver each ds = Z.of_nat (length ds).
Proof. induction ds as [|d ds IH]; simpl; [done|]. rewrite IH. unfold each. lia. Qed.

Lemma msum_list {V} (f : V -> Z) (m : gmap string V) :
  msum f m = foldr (fun kv n => f kv.2 + n) 0 (map_to_list m).
Proof.
  unfold msum. rewrite map_fold_foldr.
  induction (map_to_list m) as [|[k v] l IH]; simpl; [done|]. by rewrite IH.
Qed.

Lemma length_bind_foldr {A B} (f : A -> list B) (l : list A) :
  Z.of_nat (length (l ≫= f))
  = foldr (fun x n => Z.of_nat (length (f x)) + n) 0 l.
Proof.
  induction l as [|x l IH]; csimpl; [done|]. rewrite length_app. lia.
Qed.

Lemma length_models (api : string) (stats : apiStats) :
  Z.of_nat (length (m ← Models (snapshotAPI stats);
                    (fun d : RequestDetail => (api, modelKey m.1, d)) <$> Details m.2))
  = tally each (aModels stats).
Proof.
  unfold snapshotAPI. cbn [Models].
  rewrite length_bind_foldr, foldr_fmap. unfold tally. rewrite msum_list.
  apply foldr_ext; [|done|done]. intros [model ms] n. simpl.
  by rewrite length_fmap, sumOver_one.
Qed.

Lemma entries_snapshotOfStore (s : RequestStatistics) :
  Exportable s ->
  Z.of_nat (length (entries (snapshotOfStore s))) = storeTally each s /\
  Forall (fun e => e.2 ∈ rows s e.1.1 e.1.2 /\ IsZero (Timestamp e.2) = false)
         (entries (snapshotOfStore s)).
Proof.
  intros HE. unfold entries, snapshotOfStore. cbn [APIs]. split.
  - rewrite length_bind_foldr. unfold storeTally. rewrite msum_list.
    rewrite foldr_fmap.
    assert (Hin : Forall (fun kv => apis s !! kv.1 = Some kv.2) (map_to_list (apis s))).
    { apply Forall_forall. intros [k v]. apply elem_of_map_to_list. }
    induction (map_to_list (apis s)) as [|[api stats] l IH]; simpl; [done|].
    apply Forall_cons in Hin as [Hl Hin]. rewrite IH by done. f_equal.
    unfold apiEntries. simpl in *. destruct (HE _ _ Hl) as (-> & Hne & _).
    rewrite bool_decide_eq_false_2 by done. apply length_models.
  - apply Forall_forall. intros [[api model] d] He.
    apply list_elem_of_bind in He as ([api0 asn] & He & Ha).
    apply list_elem_of_fmap in Ha as ([api1 stats] & [= -> ->] & Hl).
    apply elem_of_map_to_list in Hl. destruct (HE _ _ Hl) as (Ht & Hne & Hm).
    unfold apiEntries in He. simpl in He. rewrite Ht in He.
    rewrite bool_decide_eq_false_2 in He by done.
    apply list_elem_of_bind in He as ([model0 msn] & He & Hmo).
    apply list_elem_of_fmap in Hmo as ([model1 ms] & [= -> ->] & Hl').
    apply elem_of_map_to_list in Hl'. destruct (Hm _ _ Hl') as (Ht' & Hne' & Hz).
    apply list_elem_of_fmap in He as (d' & [= -> -> ->] & Hd). simpl in *.
    unfold modelKey. rewrite Ht'. rewrite bool_decide_eq_false_2 by done.
    unfold rows. rewrite Hl, Hl'. split; [done|].
    rewrite Forall_forall in Hz. by apply Hz.
Qed.

Section Exported.
Variable DBHandle : Type.
Variable snapshotFromDB : DBHandle -> StatisticsSnapshot.

(** X15.  A store whose names are trimmed and not blank and whose rows
    carry a time takes nothing from its own snapshot: merging what
    [Snapshot] lists, visited in any order, leaves the store as it was, adds
    nothing and skips as many details as the store has rows. *)
Theorem snapshot_then_merge_adds_nothing (now : nat -> Time)
    (s : RequestStatistics) (snapshot : StatisticsSnapshot) :
  Exportable s ->
  entries snapshot
    ≡ₚ entries (Snapshot DBHandle snapshotFromDB None (Some s)) ->
  apiNames snapshot
    ≡ₚ apiNames (Snapshot DBHandle snapshotFromDB None (Some s)) ->
  MergeSnapshot now s snapshot
  = (s, {| Added := 0; Skipped := Int64.wrap (storeTally each s) |}).
Proof.
  intros HE Hperm Hnames. destruct (entries_snapshotOfStore s HE) as [Hlen Hall].
  unfold Snapshot in Hperm, Hnames. unfold MergeSnapshot.
  rewrite merge_second.
  - simpl. f_equal. f_equal. rewrite iter_incr. f_equal.
    change (a ← APIs snapshot; apiEntries a) with (entries snapshot).
    by rewrite Hperm.
  - apply Forall_forall. intros a Ha Hne. simpl.
    assert (Hin : TrimSpace a.1 ∈ apiNames snapshot).
    { unfold apiNames. apply list_elem_of_bind. exists a. split; [|done].
      rewrite bool_decide_eq_false_2 by done. by apply list_elem_of_singleton. }
    rewrite Hnames in Hin. unfold apiNames, snapshotOfStore in Hin. cbn [APIs] in Hin.
    apply list_elem_of_bind in Hin as ([api asn] & Hin & Hl).
    apply list_elem_of_fmap in Hl as ([api1 stats] & [= -> ->] & Hl).
    apply elem_of_map_to_list in Hl. destruct (HE _ _ Hl) as (Ht & Hnb & _).
    simpl in Hin. rewrite Ht, bool_decide_eq_false_2 in Hin by done.
    apply list_elem_of_singleton in Hin. rewrite Hin, Hl. eauto.
  - change (a ← APIs snapshot; apiEntries a) with (entries snapshot).
    rewrite Hperm.
    eapply Forall_impl; [exact Hall|]. intros e [Hin Hz]. split; [done|].
    simpl. rewrite dedupKey_prepared. apply elem_of_storeKeys. eauto.
Qed.

End Exported.

End Store.

Section Filing.
Context `{T : TimeOps}.
Variable now : nat -> Time.

Lemma picked_app api model es1 es2 :
  picked api model (es1 ++ es2) = picked api model es1 ++ picked api model es2.
Proof. unfold picked. by rewrite filter_app, fmap_app. Qed.

Lemma filed_nil st st' :
  store st' = store st -> seen st' = seen st -> result st' = result st ->
  filed st st' [].
Proof.
  intros Hs Hk Hr. unfold filed. rewrite Hs, Hk, Hr. simpl.
  split; [exact (eq_sym (union_empty_l_L _))|].
  split; [|done]. intros api model.
  unfold picked. by rewrite filter_nil, app_nil_r.
Qed.

Lemma filed_trans st1 st2 st3 es1 es2 :
  filed st1 st2 es1 -> filed st2 st3 es2 -> filed st1 st3 (es1 ++ es2).
Proof.
  intros (Hk1 & Hr1 & Ha1 & Hs1) (Hk2 & Hr2 & Ha2 & Hs2).
  split.
  { rewrite Hk2, Hk1, fmap_app, list_to_set_app_L. apply set_eq. intros k.
    rewrite !elem_of_union. tauto. }
  split; [intros api model; by rewrite Hr2, Hr1, picked_app, app_assoc|].
  split; [|congruence].
  rewrite Ha2, Ha1, length_app, (Nat.add_comm (length es1)). by rewrite Nat.iter_add.
Qed.

Lemma unseen_app es1 es2 keys :
  unseen (es1 ++ es2) keys ->
  unseen es1 keys /\
  unseen es2 (list_to_set (entryKey <$> es1) ∪ keys).
Proof.
  intros (Hz & Hnd & Hnew). apply Forall_app in Hz as [Hz1 Hz2].
  rewrite fmap_app in Hnd. apply NoDup_app in Hnd as (Hnd1 & Hdis & Hnd2).
  split.
  - split; [done|]. split; [done|]. intros e He. apply Hnew, elem_of_app. by left.
  - split; [done|]. split; [done|]. intros e He.
    rewrite elem_of_union, elem_of_list_to_set. intros [Hin|Hin].
    + by apply (Hdis _ Hin), list_elem_of_fmap_2.
    + revert Hin. apply Hnew, elem_of_app. by right.
Qed.

Lemma foldl_filed {A} (f : mergeState -> A -> mergeState)
    (g : A -> list (string * string * RequestDetail)) :
  (forall st x, unseen (g x) (seen st) -> filed st (f st x) (g x)) ->
  forall l st, unseen (l ≫= g) (seen st) -> filed st (foldl f st l) (l ≫= g).
Proof.
  intros Hstep l. induction l as [|x l IH]; intros st Hf; csimpl.
  - by apply filed_nil.
  - csimpl in Hf. apply unseen_app in Hf as [Hf1 Hf2].
    pose proof (Hstep st x Hf1) as H1.
    eapply filed_trans; [exact H1|]. apply IH.
    by rewrite (proj1 H1).
Qed.

Lemma mergeDetail_filed api model st d :
  unseen [(api, model, d)] (seen st) ->
  filed st (mergeDetail now api model st d) [(api, model, d)].
Proof.
  intros (Hz & _ & Hnew). rewrite Forall_singleton in Hz. simpl in Hz.
  specialize (Hnew (api, model, d) ltac:(by apply list_elem_of_singleton)).
  unfold entryKey in Hnew. simpl in Hnew.
  unfold mergeDetail. fold (prepared d).
  change (Timestamp (prepared d)) with (Timestamp d). rewrite Hz.
  rewrite bool_decide_eq_false_2 by done.
  unfold filed. cbn [seen store result Added Skipped].
  split.
  { unfold entryKey. simpl. by rewrite union_empty_r_L. }
  split; [|done].
  intros api' model'. rewrite rows_recordImported. unfold picked.
  rewrite filter_cons, filter_nil. simpl.
  destruct (decide (api' = api /\ model' = model)) as [[-> ->]|Hne].
  - by rewrite decide_True.
  - rewrite decide_False; [by rewrite app_nil_r|]. intros [= -> ->]. by apply Hne.
Qed.

Lemma bind_one {A B} (f : A -> B) (l : list A) :
  l ≫= (fun x => [f x]) = f <$> l.
Proof. induction l as [|x l IH]; csimpl; [done|]. by rewrite IH. Qed.

Lemma mergeModel_filed api st (m : string * ModelSnapshot) :
  unseen ((fun d => (api, modelKey m.1, d)) <$> Details m.2) (seen st) ->
  filed st (mergeModel now api st m)
        ((fun d => (api, modelKey m.1, d)) <$> Details m.2).
Proof.
  unfold mergeModel. fold (modelKey m.1).
  rewrite <- (bind_one (fun d => (api, modelKey m.1, d))).
  apply foldl_filed. intros st' d. apply mergeDetail_filed.
Qed.


Lemma mergeAPI_filed st (a : string * APISnapshot) :
  unseen (apiEntries a) (seen st) -> filed st (mergeAPI now st a) (apiEntries a).
Proof.
  unfold mergeAPI, apiEntries.
  destruct (bool_decide (TrimSpace a.1 = EmptyString)); [intros _; by apply filed_nil|].
  intros Hf.
  set (st0 := {| store := _; seen := seen st; result := result st; ticks := ticks st |}).
  assert (H0 : filed st st0 []).
  { unfold filed, st0. cbn [seen store result].
    split; [exact (eq_sym (union_empty_l_L _))|]. split; [|done].
    intros api model. unfold picked. rewrite filter_nil, app_nil_r. simpl.
    destruct (apis (store st) !! TrimSpace a.1) eqn:Hl; [done|].
    unfold rows; simpl.
    destruct (decide (api = TrimSpace a.1)) as [->|Hne].
    - rewrite lookup_insert_eq, Hl. simpl. by rewrite lookup_empty.
    - by rewrite lookup_insert_ne. }
  change (m ← Models a.2; (fun d => (TrimSpace a.1, modelKey m.1, d)) <$> Details m.2)
    with ([] ++ (m ← Models a.2;
                 (fun d => (TrimSpace a.1, modelKey m.1, d)) <$> Details m.2)).
  eapply filed_trans; [exact H0|].
  apply (foldl_filed (mergeModel now (TrimSpace a.1))
           (fun m => (fun d => (TrimSpace a.1, modelKey m.1, d)) <$> Details m.2)).
  - intros st' m. apply mergeModel_filed.
  - exact Hf.
Qed.

(** X14.  When the details of a snapshot carry a time and their dedup keys
    differ from each other and from the keys of the store, [MergeSnapshot]
    adds them all and skips none: each is appended, with its tokens
    normalised, to the rows of its API and model, in the order of the
    snapshot. *)
Theorem merge_of_unseen_details_files_them_all (s : RequestStatistics)
    (snapshot : StatisticsSnapshot) :
  unseen (entries snapshot) (storeKeys s) ->
  let out := MergeSnapshot now s snapshot in
  (forall api model,
     rows out.1 api model = rows s api model ++ picked api model (entries snapshot)) /\
  out.2 = {| Added := Int64.wrap (Z.of_nat (length (entries snapshot)));
             Skipped := 0 |} /\
  storeKeys out.1 = list_to_set (entryKey <$> entries snapshot) ∪ storeKeys s.
Proof.
  intros Hf out. unfold out, MergeSnapshot. cbn [fst snd].
  set (st0 := {| store := s; seen := storeKeys s;
                 result := {| Added := 0; Skipped := 0 |}; ticks := O |}).
  destruct (foldl_filed (mergeAPI now) apiEntries mergeAPI_filed (APIs snapshot) st0 Hf)
    as (Hk & Hr & Ha & Hs).
  destruct (merge_first now st0 (APIs snapshot) eq_refl) as [HI _].
  split; [exact Hr|]. split.
  - destruct (result (foldl (mergeAPI now) st0 (APIs snapshot))) as [added skipped].
    simpl in Ha, Hs. rewrite Ha, Hs, iter_incr. done.
  - rewrite <- HI. exact Hk.
Qed.

End Filing.

Section RoundTrip.
Context `{T : TimeOps}.

Lemma filter_bind_none {A B} (P : B -> Prop) `{!forall e, Decision (P e)}
    (g : A -> list B) (l : list A) :
  Forall (fun x => filter P (g x) = []) l -> filter P (l ≫= g) = [].
Proof.
  induction 1 as [|x l Hx _ IH]; csimpl; [done|].
  by rewrite filter_app, Hx, IH.
Qed.

Lemma filter_bind_one {A B} (P : B -> Prop) `{!forall e, Decision (P e)}
    (g : A -> list B) (l1 l2 : list A) (x : A) :
  Forall (fun y => filter P (g y) = []) (l1 ++ l2) ->
  filter P ((l1 ++ x :: l2) ≫= g) = filter P (g x).
Proof.
  intros [H1 H2]%Forall_app. rewrite bind_app. csimpl.
  rewrite !filter_app, !filter_bind_none by done. by rewrite app_nil_r.
Qed.

Lemma filter_all {B} (P : B -> Prop) `{!forall e, Decision (P e)} (l : list B) :
  Forall P l -> filter P l = l.
Proof.
  induction 1 as [|x l Hx _ IH]; [done|].
  by rewrite filter_cons, decide_True, IH.
Qed.

Lemma filter_none {B} (P : B -> Prop) `{!forall e, Decision (P e)} (l : list B) :
  Forall (fun e => ~ P e) l -> filter P l = [].
Proof.
  induction 1 as [|x l Hx _ IH]; [done|].
  by rewrite filter_cons, decide_False, IH.
Qed.

(** The entries of a map as [map_to_list] lists them, around one key. *)
Lemma map_to_list_split {V} (m : gmap string V) (k : string) (v : V) :
  m !! k = Some v ->
  exists l1 l2, map_to_list m = l1 ++ (k, v) :: l2 /\
                Forall (fun y => y.1 <> k /\ m !! y.1 = Some y.2) (l1 ++ l2).
Proof.
  intros Hl. apply elem_of_map_to_list in Hl.
  apply list_elem_of_split in Hl as (l1 & l2 & Heq). exists l1, l2.
  split; [done|].
  pose proof (NoDup_fst_map_to_list m) as Hnd. rewrite Heq in Hnd.
  rewrite fmap_app, fmap_cons in Hnd.
  apply NoDup_app in Hnd as (_ & Hdis & Hnd2). apply NoDup_cons in Hnd2 as [Hnot _].
  assert (Hin : forall y, y ∈ l1 ++ l2 -> m !! y.1 = Some y.2).
  { intros [k' v'] Hy. apply elem_of_map_to_list. rewrite Heq.
    apply elem_of_app in Hy as [Hy|Hy]; apply elem_of_app; [by left|].
    right. by right. }
  apply Forall_forall. intros [k' v'] Hy. split; [|by apply Hin].
  simpl. intros ->. apply elem_of_app in Hy as [Hy|Hy].
  - apply (Hdis k); [by apply (list_elem_of_fmap_2 fst _ (k, v'))|].
    simpl. left.
  - apply Hnot. by apply (list_elem_of_fmap_2 fst _ (k, v')).
Qed.

Lemma picked_models (api model : string) (stats : apiStats) (api' : string) :
  (forall m ms, aModels stats !! m = Some ms -> TrimSpace m = m /\ m <> EmptyString) ->
  picked api model
    (m ← prod_map id snapshotModel <$> map_to_list (aModels stats);
     (fun d : RequestDetail => (api', modelKey m.1, d)) <$> Details m.2)
  = if decide (api = api')
    then prepared <$> from_option mDetails [] (aModels stats !! model)
    else [].
Proof.
  intros Hnames. unfold picked.
  assert (Hkey : forall m ms, aModels stats !! m = Some ms -> modelKey m = m).
  { intros m ms Hl. destruct (Hnames _ _ Hl) as [Ht Hne]. unfold modelKey.
    by rewrite Ht, bool_decide_eq_false_2. }
  destruct (decide (api = api')) as [<-|Hne].
  - destruct (aModels stats !! model) as [ms|] eqn:Hl; simpl.
    + destruct (map_to_list_split _ _ _ Hl) as (l1 & l2 & -> & Hother).
      rewrite fmap_app, fmap_cons. rewrite filter_bind_one.
      * simpl. rewrite (Hkey _ _ Hl), filter_all.
        -- rewrite <- list_fmap_compose. done.
        -- apply Forall_fmap, Forall_true. done.
      * rewrite <- fmap_app. apply Forall_fmap.
        eapply Forall_impl; [exact Hother|]. intros [m' ms'] [Hne Hl']. simpl in *.
        apply filter_none, Forall_fmap, Forall_true.
        intros d [= Hm]. rewrite (Hkey _ _ Hl') in Hm. by apply Hne.
    + rewrite filter_bind_none; [done|]. apply Forall_fmap, Forall_forall.
      intros [m' ms'] Hin%elem_of_map_to_list. simpl.
      apply filter_none, Forall_fmap, Forall_true.
      intros d [= Hm]. rewrite (Hkey _ _ Hin) in Hm. congruence.
  - rewrite filter_bind_none; [done|]. apply Forall_fmap, Forall_true.
    intros [m ms]. simpl. apply filter_none, Forall_fmap, Forall_true.
    intros d [= ? ?]. done.
Qed.

Lemma picked_nil api model (es : list (string * string * RequestDetail)) :
  picked api model es = [] -> filter (fun e => e.1 = (api, model)) es = [].
Proof. unfold picked. apply fmap_nil_inv. Qed.

Lemma picked_snapshot (s : RequestStatistics) (api model : string) :
  Exportable s ->
  picked api model (entries (snapshotOfStore s)) = prepared <$> rows s api model.
Proof.
  intros HE. unfold entries, snapshotOfStore. cbn [APIs].
  assert (Hentries : forall a stats, apis s !! a = Some stats ->
            filter (fun e : string * string * RequestDetail => e.1 = (api, model))
                   (apiEntries (prod_map id snapshotAPI (a, stats)))
            = filter (fun e => e.1 = (api, model))
                (m ← prod_map id snapshotModel <$> map_to_list (aModels stats);
                 (fun d : RequestDetail => (a, modelKey m.1, d)) <$> Details m.2)).
  { intros a stats Hl. destruct (HE _ _ Hl) as (Ht & Hne & _).
    unfold apiEntries. simpl. by rewrite Ht, bool_decide_eq_false_2. }
  unfold rows. destruct (apis s !! api) as [stats|] eqn:Hl.
  - destruct (map_to_list_split _ _ _ Hl) as (l1 & l2 & -> & Hother).
    unfold picked. rewrite fmap_app, fmap_cons, filter_bind_one.
    + rewrite (Hentries _ _ Hl).
      pose proof (picked_models api model stats api) as Hp. unfold picked in Hp.
      rewrite Hp, decide_True
        by (done || intros m ms Hm; destruct (HE _ _ Hl) as (_ & _ & H);
            by destruct (H _ _ Hm) as (? & ? & _)).
      by destruct (aModels stats !! model).
    + rewrite <- fmap_app. apply Forall_fmap.
      eapply Forall_impl; [exact Hother|]. intros [a stats'] [Hne Hl']. simpl in *.
      rewrite (Hentries _ _ Hl').
      apply picked_nil. rewrite picked_models, decide_False; [done|congruence|].
      intros m ms Hm. destruct (HE _ _ Hl') as (_ & _ & H).
      by destruct (H _ _ Hm) as (? & ? & _).
  - unfold picked. rewrite filter_bind_none; [done|].
    apply Forall_fmap, Forall_forall. intros [a stats'] Hin%elem_of_map_to_list.
    unfold compose. rewrite (Hentries _ _ Hin).
    apply picked_nil. rewrite picked_models, decide_False; [done|congruence|].
    intros m ms Hm. destruct (HE _ _ Hin) as (_ & _ & H).
    by destruct (H _ _ Hm) as (? & ? & _).
Qed.

Section Rebuilt.
Variable DBHandle : Type.
Variable snapshotFromDB : DBHandle -> StatisticsSnapshot.

(** X16.  Export and import: merging the snapshot of such a store, its
    dedup keys distinct, into an empty store rebuilds the rows of every API
    and model, in order and with their tokens normalised, adds as many
    details as the store has rows and skips none; the two stores then hold
    the same dedup keys. *)
Theorem export_then_import_rebuilds_rows (now : nat -> Time)
    (s : RequestStatistics) :
  Exportable s ->
  NoDup (entryKey <$> entries (Snapshot DBHandle snapshotFromDB None (Some s))) ->
  let out := MergeSnapshot now NewRequestStatistics
               (Snapshot DBHandle snapshotFromDB None (Some s)) in
  (forall api model, rows out.1 api model = prepared <$> rows s api model) /\
  out.2 = {| Added := Int64.wrap (storeTally each s); Skipped := 0 |} /\
  storeKeys out.1 = storeKeys s.
Proof.
  intros HE Hnd out. unfold out, Snapshot in *. unfold MergeSnapshot. cbn [fst snd].
  set (st0 := {| store := NewRequestStatistics; seen := storeKeys NewRequestStatistics;
                 result := {| Added := 0; Skipped := 0 |}; ticks := O |}).
  destruct (entries_snapshotOfStore s HE) as [Hlen Hall].
  assert (Hf : unseen (entries (snapshotOfStore s)) (seen st0)).
  { split; [eapply Forall_impl; [exact Hall|]; by intros e [_ ?]|].
    split; [done|]. intros e _. unfold st0, storeKeys. simpl.
    rewrite map_to_list_empty. simpl. apply not_elem_of_empty. }
  destruct (foldl_filed (mergeAPI now) apiEntries (mergeAPI_filed now)
              (APIs (snapshotOfStore s)) st0 Hf) as (Hk & Hr & Ha & Hs).
  destruct (merge_first now st0 (APIs (snapshotOfStore s)) eq_refl) as [HI _].
  change (APIs (snapshotOfStore s) ≫= apiEntries)
    with (entries (snapshotOfStore s)) in Hk, Hr, Ha.
  split; [|split].
  - intros api model. rewrite Hr, picked_snapshot by done.
    unfold st0, rows. simpl. by rewrite lookup_empty.
  - destruct (result (foldl (mergeAPI now) st0 (APIs (snapshotOfStore s))))
      as [added skipped].
    simpl in Ha, Hs. rewrite Ha, Hs, iter_incr, Hlen. done.
  - rewrite <- HI, Hk. apply set_eq. intros k.
    rewrite elem_of_union, elem_of_list_to_set, list_elem_of_fmap, elem_of_storeKeys.
    split.
    + intros [(e & -> & He)|Hin].
      * rewrite Forall_forall in Hall. destruct (Hall e He) as [Hin _].
        unfold entryKey. rewrite dedupKey_prepared. eauto.
      * unfold st0, storeKeys in Hin. simpl in Hin.
        rewrite map_to_list_empty in Hin. simpl in Hin. by apply elem_of_empty in Hin.
    + intros (api & model & d & Hd & ->). left.
      assert (Hin : prepared d ∈ picked api model (entries (snapshotOfStore s))).
      { rewrite picked_snapshot by done. by apply list_elem_of_fmap_2. }
      unfold picked in Hin. apply list_elem_of_fmap in Hin as (e & He & Hin).
      apply list_elem_of_filter in Hin as [Hname Hin].
      exists e. split; [|done]. unfold entryKey. rewrite Hname, <- He. simpl.
      by rewrite dedupKey_prepared.
Qed.

End Rebuilt.

End RoundTrip.

(** X12 on the empty store and a snapshot of two details. *)
Lemma counters_count_rows_witness :
  @Counted examples.exampleTime
    (MergeSnapshot examples.exampleNow NewRequestStatistics
       examples.namedSnapshot).1.
Proof.
  assert (Hnew : @Counted examples.exampleTime NewRequestStatistics).
  { split; [reflexivity|]. split; [reflexivity|]. split; [reflexivity|].
    intros api stats H. cbn [apis NewRequestStatistics] in H.
    rewrite lookup_empty in H. discriminate. }
  exact (proj2 (@counters_count_rows examples.exampleTime NewRequestStatistics
                  Hnew)
               examples.exampleNow examples.namedSnapshot).
Defined.

(** X14 on the empty store and a snapshot of two details. *)
Lemma merge_of_unseen_details_witness :
  (@MergeSnapshot examples.exampleTime examples.exampleNow NewRequestStatistics
     examples.namedSnapshot).2
  = {| Added := Int64.wrap 2; Skipped := 0 |}.
Proof.
  assert (Hf : @unseen examples.exampleTime (entries examples.namedSnapshot)
                 (storeKeys (@NewRequestStatistics examples.exampleTime))).
  { split; [repeat constructor|]. split.
    - apply NoDup_cons. split; [|apply NoDup_singleton].
      intros H. apply list_elem_of_singleton in H. vm_compute in H. discriminate.
    - intros e _. apply not_elem_of_empty. }
  exact (proj1 (proj2 (@merge_of_unseen_details_files_them_all
                         examples.exampleTime examples.exampleNow
                         NewRequestStatistics examples.namedSnapshot Hf))).
Defined.

(** X15 on a store of two rows and a snapshot that lists them. *)
Lemma snapshot_then_merge_witness :
  @MergeSnapshot examples.exampleTime examples.exampleNow examples.exampleStore
    examples.namedSnapshot
  = (examples.exampleStore,
     {| Added := 0;
        Skipped := Int64.wrap (storeTally each examples.exampleStore) |}).
Proof.
  assert (HE : @Exportable examples.exampleTime examples.exampleStore).
  { intros api stats H. cbn [apis examples.exampleStore] in H.
    apply lookup_singleton_Some in H as [<- <-].
    split; [reflexivity|]. split; [done|].
    intros model ms H. cbn [aModels] in H.
    apply lookup_singleton_Some in H as [<- <-].
    split; [reflexivity|]. split; [done|]. repeat constructor. }
  apply (@snapshot_then_merge_adds_nothing examples.exampleTime unit
           (fun _ => emptySnapshot) examples.exampleNow examples.exampleStore
           examples.namedSnapshot HE); reflexivity.
Defined.

(** X16 on the same store. *)
Lemma export_then_import_witness :
  (@MergeSnapshot examples.exampleTime examples.exampleNow NewRequestStatistics
     (Snapshot unit (fun _ => emptySnapshot) None (Some examples.exampleStore))).2
  = {| Added := Int64.wrap (storeTally each examples.exampleStore);
       Skipped := 0 |}.
Proof.
  assert (HE : @Exportable examples.exampleTime examples.exampleStore).
  { intros api stats H. cbn [apis examples.exampleStore] in H.
    apply lookup_singleton_Some in H as [<- <-].
    split; [reflexivity|]. split; [done|].
    intros model ms H. cbn [aModels] in H.
    apply lookup_singleton_Some in H as [<- <-].
    split; [reflexivity|]. split; [done|]. repeat constructor. }
  assert (Hnd : NoDup (@entryKey examples.exampleTime <$>
                  entries (Snapshot unit (fun _ => emptySnapshot) None
                             (Some examples.exampleStore)))).
  { change (NoDup (@entryKey examples.exampleTime <$>
                     entries examples.namedSnapshot)).
    apply NoDup_cons. split; [|apply NoDup_singleton].
    intros H. apply list_elem_of_singleton in H. vm_compute in H. discriminate. }
  exact (proj1 (proj2 (@export_then_import_rebuilds_rows examples.exampleTime
                         unit (fun _ => emptySnapshot) examples.exampleNow
                         examples.exampleStore HE Hnd))).
Defined.

End store_props.

(** ** Snapshots, hour keys and the request log *)

Module snapshot_props.

Import Bytes statistics store_props.

Section Snapshots.
Context `{T : TimeOps}.

Section Logging.
Variable UnixNano : Time -> Z.
Variable hashPrefix : string -> string.

(** X20.  With statistics enabled [HandleUsage] records the record and,
    when request logging is on, hands the database one row, which carries
    the token counts and the failure flag of the row recorded, and its time
    when the record has one; the row has an error message exactly when it is
    an error.  With statistics disabled nothing is recorded and nothing is
    logged, request logging or not; with no database only the store
    changes. *)
Theorem HandleUsage_logs_what_it_records (st : RequestStatistics)
    (requestLogEnabled : bool) (DB : list RequestLog) (now now' : Time)
    (record : UsageRecord) (p : option (option RequestStatistics))
    (anyDB : option (list RequestLog)) :
  let out := HandleUsage UnixNano hashPrefix (Some (Some st)) true
               requestLogEnabled (Some DB) now now' record in
  let row := requestLogOf UnixNano hashPrefix now' record in
  let detail := detailOf now record in
  out.1 = Some (Record (Some st) true now record) /\
  out.2 = Some (if requestLogEnabled then DB ++ [row] else DB) /\
  lInputTokens row = InputTokens (Tokens detail) /\
  lOutputTokens row = OutputTokens (Tokens detail) /\
  lTotalTokens row = TotalTokens (Tokens detail) /\
  IsError row = Failed detail /\
  (ErrorMessage row = EmptyString <-> IsError row = false) /\
  (IsZero (coreusage.RequestedAt (base record)) = false ->
   lTimestamp row = Timestamp detail) /\
  HandleUsage UnixNano hashPrefix p false requestLogEnabled anyDB now now' record
  = (p, anyDB) /\
  HandleUsage UnixNano hashPrefix (Some (Some st)) true true None now now' record
  = (Some (Record (Some st) true now record), None).
Proof.
  intros out row detail. split; [done|].
  split; [unfold out, HandleUsage; simpl; by destruct requestLogEnabled|].
  split; [done|]. split; [done|]. split; [done|]. split; [done|].
  split; [unfold row, requestLogOf; simpl;
          destruct (coreusage.Failed (base record)); split; done|].
  split; [|done].
  intros Hz. unfold row, requestLogOf, detail, detailOf. simpl. by rewrite Hz.
Qed.

End Logging.

Lemma fmt_02d_digits (r : Z) :
  0 <= r < 24 ->
  String.length (fmt_02d r) = 2%nat /\
  forall r', 0 <= r' < 24 -> fmt_02d r = fmt_02d r' -> r = r'.
Proof.
  intros Hr.
  assert (Hcase : forall x, 0 <= x < 24 ->
            In x [0;1;2;3;4;5;6;7;8;9;10;11;12;13;14;15;16;17;18;19;20;21;22;23]).
  { intros x Hx. simpl. lia. }
  split.
  - specialize (Hcase r Hr). simpl in Hcase.
    repeat (destruct Hcase as [<-|Hcase]; [by vm_compute|]). done.
  - intros r' Hr' Heq.
    pose proof (Hcase r Hr) as H1. pose proof (Hcase r' Hr') as H2.
    simpl in H1, H2.
    repeat (destruct H1 as [<-|H1];
            [repeat (destruct H2 as [<-|H2]; [by vm_compute in Heq|]); done|]).
    done.
Qed.


Lemma formatHour_fmt (h : Z) :
  formatHour h = fmt_02d (if h <? 0 then 0 else h mod 24) /\
  0 <= (if h <? 0 then 0 else h mod 24) < 24.
Proof.
  unfold formatHour. destruct (Z.ltb_spec h 0) as [Hneg|Hpos].
  - split; [done|lia].
  - rewrite Z.rem_mod_nonneg by lia. split; [done|].
    apply Z.mod_pos_bound. lia.
Qed.

Lemma formatHour_inj (h h' : Z) :
  0 <= h < 24 -> 0 <= h' < 24 -> formatHour h = formatHour h' -> h = h'.
Proof.
  intros Hh Hh' Heq.
  destruct (formatHour_fmt h) as [Hf _]. destruct (formatHour_fmt h') as [Hf' _].
  rewrite Hf, Hf' in Heq.
  rewrite (proj2 (Z.ltb_ge h 0)), (proj2 (Z.ltb_ge h' 0)) in Heq by lia.
  rewrite !Z.mod_small in Heq by lia.
  by apply (proj2 (fmt_02d_digits h Hh)).
Qed.

(** X18.  [formatHour] always gives two characters; a negative hour
    gives [00], an hour of 24 or more is taken modulo 24, and the hours of a
    day get distinct keys. *)
Theorem formatHour_two_digits (h : Z) :
  String.length (formatHour h) = 2%nat /\
  (h < 0 -> formatHour h = "00") /\
  (0 <= h -> formatHour h = formatHour (h mod 24)) /\
  (forall h', 0 <= h < 24 -> 0 <= h' < 24 -> formatHour h = formatHour h' -> h = h').
Proof.
  destruct (formatHour_fmt h) as [Hf Hr]. split; [|split; [|split]].
  - rewrite Hf. by apply fmt_02d_digits.
  - intros Hneg. rewrite Hf. by rewrite (proj2 (Z.ltb_lt h 0) Hneg).
  - intros Hpos. destruct (formatHour_fmt (h mod 24)) as [Hf' _].
    rewrite Hf, Hf'.
    pose proof (Z.mod_pos_bound h 24 ltac:(lia)) as Hb.
    rewrite (proj2 (Z.ltb_ge h 0) Hpos), (proj2 (Z.ltb_ge (h mod 24) 0)) by lia.
    by rewrite Z.mod_mod.
  - intros h' Hh Hh' Heq. by apply formatHour_inj.
Qed.

Lemma formatHourMap_snoc (l : list (Z * Z)) (e : Z * Z) :
  formatHourMap (l ++ [e]) = <[formatHour e.1 := e.2]> (formatHourMap l).
Proof. unfold formatHourMap. by rewrite foldl_app. Qed.

Lemma formatHourMap_lookup (l : list (Z * Z)) :
  NoDup l.*1 -> Forall (fun e => 0 <= e.1 < 24) l ->
  forall h v, 0 <= h < 24 ->
    formatHourMap l !! formatHour h = Some v <-> (h, v) ∈ l.
Proof.
  induction l as [|e l IH] using rev_ind; intros Hnd Hall h v Hh.
  - unfold formatHourMap. simpl. rewrite lookup_empty. split; [done|].
    by intros ?%elem_of_nil.
  - rewrite fmap_app in Hnd. apply NoDup_app in Hnd as (Hnd & Hnot & _).
    apply Forall_app in Hall as [Hall He]. rewrite Forall_singleton in He.
    rewrite formatHourMap_snoc, elem_of_app, list_elem_of_singleton.
    destruct (decide (h = e.1)) as [->|Hne].
    + rewrite lookup_insert_eq. split.
      * intros [= <-]. right. by destruct e.
      * intros [Hin|Heq]; [|by rewrite <- Heq]. exfalso. apply (Hnot e.1).
        -- apply list_elem_of_fmap. by exists (e.1, v).
        -- simpl. apply list_elem_of_singleton. done.
    + rewrite lookup_insert_ne.
      * rewrite IH by done. split; [by left|].
        intros [Hin|Heq]; [done|]. destruct Hne. by rewrite <- Heq.
      * intros Heq. apply Hne. by apply formatHour_inj.
Qed.

Lemma formatHourMap_keys (l : list (Z * Z)) (key : string) :
  is_Some (formatHourMap l !! key) -> exists e, e ∈ l /\ key = formatHour e.1.
Proof.
  induction l as [|e l IH] using rev_ind.
  - unfold formatHourMap. simpl. rewrite lookup_empty. by intros [? ?].
  - rewrite formatHourMap_snoc.
    destruct (decide (key = formatHour e.1)) as [->|Hne].
    + intros _. exists e. split; [|done]. apply elem_of_app. right.
      by apply list_elem_of_singleton.
    + rewrite lookup_insert_ne by done. intros (e' & Hin & ->)%IH.
      exists e'. split; [|done]. apply elem_of_app. by left.
Qed.

(** X19.  On a map whose keys are hours of the day, [formatHourMap]
    loses nothing, in whatever order it visits the entries: the count of
    hour [h] is found under [formatHour h], and every key of the result is
    the key of an hour of the map. *)
Theorem formatHourMap_keeps_every_hour (m : gmap Z Z) (visited : list (Z * Z)) :
  visited ≡ₚ map_to_list m ->
  (forall h, is_Some (m !! h) -> 0 <= h < 24) ->
  (forall h, 0 <= h < 24 -> formatHourMap visited !! formatHour h = m !! h) /\
  (forall key, is_Some (formatHourMap visited !! key) ->
               exists h, is_Some (m !! h) /\ key = formatHour h).
Proof.
  intros Hperm Hrange.
  assert (Hnd : NoDup visited.*1).
  { rewrite Hperm. apply NoDup_fst_map_to_list. }
  assert (Hall : Forall (fun e => 0 <= e.1 < 24) visited).
  { apply Forall_forall. intros [h v] Hin. rewrite Hperm in Hin.
    apply elem_of_map_to_list in Hin. simpl. apply Hrange. by rewrite Hin. }
  split.
  - intros h Hh. apply option_eq. intros v.
    rewrite formatHourMap_lookup by done.
    by rewrite Hperm, elem_of_map_to_list.
  - intros key Hk. destruct (formatHourMap_keys visited key Hk) as ([h v] & Hin & ->).
    exists h. split; [|done]. rewrite Hperm in Hin.
    apply elem_of_map_to_list in Hin. by rewrite Hin.
Qed.

Lemma copyMap_id (m : gmap string Z) : copyMap m = m.
Proof.
  unfold copyMap. rewrite map_fold_foldr.
  rewrite <- (list_to_map_to_list m) at 2.
  induction (map_to_list m) as [|[k v] l IH]; simpl; [done|]. by rewrite IH.
Qed.

Section Copied.
Variable DBHandle : Type.
Variable snapshotFromDB : DBHandle -> StatisticsSnapshot.

(** X17.  Without a database, [Snapshot] copies the store: the day maps
    as they are, every API once, the models listed under an API with their
    rows being those the store holds there, and, when the hours are hours of
    the day, the hour maps under two-digit keys.  A nil store gives the empty
    snapshot, and with a database the snapshot is the one read from it. *)
Theorem Snapshot_copies_the_store (s : RequestStatistics) (db : DBHandle)
    (any : option RequestStatistics) :
  let snap := Snapshot DBHandle snapshotFromDB None (Some s) in
  RequestsByDay snap = requestsByDay s /\
  TokensByDay snap = tokensByDay s /\
  NoDup (APIs snap).*1 /\
  (forall api model ds,
     (exists asn msn, (api, asn) ∈ APIs snap /\ (model, msn) ∈ Models asn /\
                      Details msn = ds) <->
     (exists stats ms, apis s !! api = Some stats /\
                       aModels stats !! model = Some ms /\ mDetails ms = ds)) /\
  ((forall h, is_Some (requestsByHour s !! h) -> 0 <= h < 24) ->
   forall h, 0 <= h < 24 ->
     RequestsByHour snap !! formatHour h = requestsByHour s !! h) /\
  ((forall h, is_Some (tokensByHour s !! h) -> 0 <= h < 24) ->
   forall h, 0 <= h < 24 ->
     TokensByHour snap !! formatHour h = tokensByHour s !! h) /\
  Snapshot DBHandle snapshotFromDB None None = emptySnapshot /\
  Snapshot DBHandle snapshotFromDB (Some db) any = snapshotFromDB db.
Proof.
  intros snap. unfold snap, Snapshot, snapshotOfStore.
  cbn [RequestsByDay TokensByDay APIs RequestsByHour TokensByHour].
  split; [apply copyMap_id|]. split; [apply copyMap_id|].
  split.
  { replace ((prod_map id snapshotAPI <$> map_to_list (apis s)).*1)
      with ((map_to_list (apis s)).*1); [apply NoDup_fst_map_to_list|].
    induction (map_to_list (apis s)) as [|[k v] l IH]; [done|].
    rewrite !fmap_cons. by rewrite IH. }
  split.
  { intros api model ds. split.
    - intros (asn & msn & Ha & Hm & Hd).
      apply list_elem_of_fmap in Ha as ([api' stats] & [= -> ->] & Ha).
      apply elem_of_map_to_list in Ha. unfold snapshotAPI in Hm. cbn [Models] in Hm.
      apply list_elem_of_fmap in Hm as ([model' ms] & [= -> ->] & Hm).
      apply elem_of_map_to_list in Hm. exists stats, ms. done.
    - intros (stats & ms & Ha & Hm & Hd).
      exists (snapshotAPI stats), (snapshotModel ms). split; [|split; [|done]].
      + apply list_elem_of_fmap. exists (api, stats).
        split; [done|]. by apply elem_of_map_to_list.
      + unfold snapshotAPI. cbn [Models]. apply list_elem_of_fmap.
        exists (model, ms). split; [done|]. by apply elem_of_map_to_list. }
  split.
  { intros Hr h Hh.
    apply option_eq. intros v. rewrite formatHourMap_lookup;
      [apply elem_of_map_to_list|apply NoDup_fst_map_to_list| |done].
    apply Forall_forall. intros [k x] Hin%elem_of_map_to_list. apply Hr.
    simpl. by rewrite Hin. }
  split; [|done].
  intros Hr h Hh.
  apply option_eq. intros v. rewrite formatHourMap_lookup;
    [apply elem_of_map_to_list|apply NoDup_fst_map_to_list| |done].
  apply Forall_forall. intros [k x] Hin%elem_of_map_to_list. apply Hr.
  simpl. by rewrite Hin.
Qed.

End Copied.


End Snapshots.

(** X19 on a map of two hours. *)
Lemma formatHourMap_witness :
  formatHourMap (map_to_list examples.exampleHours) !! formatHour 14
  = examples.exampleHours !! 14.
Proof.
  assert (Hr : forall h, is_Some (examples.exampleHours !! h) -> 0 <= h < 24).
  { intros h. unfold examples.exampleHours.
    rewrite !lookup_insert_is_Some, lookup_empty, is_Some_alt. lia. }
  exact (proj1 (formatHourMap_keeps_every_hour examples.exampleHours
                  (map_to_list examples.exampleHours) (Permutation_refl _) Hr)
               14 ltac:(lia)).
Defined.

End snapshot_props.

(** ** Opening the database *)

Module init_props.

Import database.

Section InitOnce.
Variable ToLower : string -> string.
Variable Join : string -> string -> string.
Variable gormOpen : Dialector -> option string.
Variable AutoMigrate : Dialector -> option string.
Variable MkdirAll : string -> option string.

Lemma Init_latched (cfg : Config) (st : State) :
  once (Init ToLower Join gormOpen AutoMigrate MkdirAll cfg st).1 = true.
Proof.
  unfold database.Init. destruct (once st) eqn:Ho; [done|].
  destruct (database.selectDialector _ _ _ cfg) as [[dia dirs] logs].
  by destruct (gormOpen dia).
Qed.

(** X21.  [Init] runs once: whatever the first call did, a later call,
    with any configuration, changes nothing and returns no error.  After a
    first call that failed to open the database, [DB] is what it was, and it
    stays so. *)
Theorem Init_runs_once (cfg cfg' : Config) (st : State) :
  let st1 := (Init ToLower Join gormOpen AutoMigrate MkdirAll cfg st).1 in
  Init ToLower Join gormOpen AutoMigrate MkdirAll cfg' st1 = (st1, None) /\
  (once st = false ->
   forall e, gormOpen (selectDialector ToLower Join MkdirAll cfg).1.1 = Some e ->
     DB st1 = DB st /\
     DB (Init ToLower Join gormOpen AutoMigrate MkdirAll cfg' st1).1 = DB st).
Proof.
  intros st1.
  assert (H1 : Init ToLower Join gormOpen AutoMigrate MkdirAll cfg' st1
               = (st1, None)).
  { unfold database.Init at 1. unfold st1. by rewrite Init_latched. }
  split; [exact H1|].
  intros Ho e He. rewrite H1. cbn [fst]. split; [|];
    unfold st1, database.Init; rewrite Ho;
    destruct (database.selectDialector _ _ _ cfg) as [[dia dirs] logs];
    simpl in He; by rewrite He.
Qed.

(** X22.  A first [Init] returns an error exactly when the database does
    not open; when it opens, [DB] is set, whether the migration and the
    creation of the directory succeed or not.  The [mysql] driver is given the
    DSN as it is, and a directory is made only for SQLite with no DSN and a
    log directory, which is then the only one asked for. *)
Theorem Init_fails_only_when_open_fails (cfg : Config) (st : State) :
  once st = false ->
  let dialector := (selectDialector ToLower Join MkdirAll cfg).1.1 in
  let after := Init ToLower Join gormOpen AutoMigrate MkdirAll cfg st in
  (after.2 = None <-> gormOpen dialector = None) /\
  (gormOpen dialector = None -> DB after.1 = Some dialector) /\
  (ToLower (Driver cfg) = "mysql" -> dialector = MySQL (DSN cfg)) /\
  madeDirs after.1
  = madeDirs st ++
    (if bool_decide (ToLower (Driver cfg) <> "mysql")
        && bool_decide (DSN cfg = EmptyString)
        && bool_decide (LogDir cfg <> EmptyString)
     then [LogDir cfg] else []).
Proof.
  intros Ho dialector after.
  assert (Hdirs : (selectDialector ToLower Join MkdirAll cfg).1.2
                  = if bool_decide (ToLower (Driver cfg) <> "mysql")
                       && bool_decide (DSN cfg = EmptyString)
                       && bool_decide (LogDir cfg <> EmptyString)
                    then [LogDir cfg] else []).
  { unfold database.selectDialector, sqlitePath.
    destruct (bool_decide_reflect (ToLower (Driver cfg) = "mysql")) as [Hm|Hm].
    - by rewrite bool_decide_eq_false_2 by (intros H; by apply H).
    - rewrite (bool_decide_eq_true_2 _ Hm).
      destruct (bool_decide (ToLower (Driver cfg) = "sqlite")
                || bool_decide (ToLower (Driver cfg) = "sqlite3"));
        destruct (bool_decide_reflect (DSN cfg = EmptyString)); simpl; try done;
        destruct (bool_decide_reflect (LogDir cfg = EmptyString)) as [Hl|Hl]; simpl;
        try (by rewrite bool_decide_eq_false_2 by (intros H; by apply H));
        by rewrite bool_decide_eq_true_2. }
  assert (Hmy : ToLower (Driver cfg) = "mysql" -> dialector = MySQL (DSN cfg)).
  { intros Hm. unfold dialector, database.selectDialector.
    by rewrite bool_decide_eq_true_2. }
  unfold after, database.Init. rewrite Ho. fold dialector in Hdirs |- *.
  revert Hdirs. unfold dialector.
  destruct (database.selectDialector _ _ _ cfg) as [[dia dirs] logs]. simpl.
  intros ->. destruct (gormOpen dia) as [e|]; simpl.
  - split; [split; discriminate|]. split; [discriminate|]. split; [|done].
    intros Hm. by apply Hmy in Hm.
  - split; [done|]. split; [done|]. split; [|done].
    intros Hm. by apply Hmy in Hm.
Qed.


End InitOnce.

(** X22 at the driver name [MySQL]. *)
Lemma Init_mysql_witness :
  DB (Init asciiLower examples.exampleJoin examples.opens examples.migrates
           examples.mkdirs examples.mysqlConfig initial).1
  = Some (MySQL "user@tcp(db)/usage").
Proof.
  pose proof (Init_fails_only_when_open_fails asciiLower examples.exampleJoin
                examples.opens examples.migrates examples.mkdirs
                examples.mysqlConfig initial ltac:(reflexivity)) as H.
  cbv zeta in H. destruct H as (_ & Hdb & _).
  rewrite (Hdb ltac:(reflexivity)). reflexivity.
Defined.

End init_props.

(** ** Importing a snapshot into the database *)

Module import_props.

Import Bytes statistics management store_props.

Section ImportRows.
Context `{T : TimeOps}.
Variable utcNow : nat -> Time.
Variable createInBatches : list RequestLog -> option string.

Lemma firstNonEmpty_pair (a b : string) :
  firstNonEmpty [a; b] = if bool_decide (a = EmptyString) then b else a.
Proof.
  simpl. destruct (bool_decide_reflect (a = EmptyString)) as [->|Ha].
  - rewrite bool_decide_eq_false_2 by (intros H; by apply H).
    by destruct (bool_decide_reflect (b <> EmptyString)) as [?|?%dec_stable].
  - by rewrite bool_decide_eq_true_2.
Qed.

Lemma importDetail_imports api model acc d :
  exists row, (importDetail utcNow api model acc d).1 = acc.1 ++ [row] /\
              imports row (api, model, d).
Proof.
  unfold importDetail. destruct (IsZero (Timestamp d)) eqn:Hz; cbn -[firstNonEmpty];
    eexists; (split; [reflexivity|]); unfold imports; cbn -[firstNonEmpty];
    rewrite firstNonEmpty_pair; repeat split; try done; intros; congruence.
Qed.

Lemma import_fold {A} (f : list RequestLog * nat -> A -> list RequestLog * nat)
    (g : A -> list (string * string * RequestDetail)) :
  (forall acc x, exists rows, (f acc x).1 = acc.1 ++ rows /\ Forall2 imports rows (g x)) ->
  forall l acc, exists rows,
    (foldl f acc l).1 = acc.1 ++ rows /\ Forall2 imports rows (l ≫= g).
Proof.
  intros Hstep l. induction l as [|x l IH]; intros acc; csimpl.
  - exists []. by rewrite app_nil_r.
  - destruct (Hstep acc x) as (r1 & H1 & HF1).
    destruct (IH (f acc x)) as (r2 & H2 & HF2).
    exists (r1 ++ r2). rewrite H2, H1, app_assoc. split; [done|].
    by apply Forall2_app.
Qed.

Lemma importedLogs_listed (snapshot : StatisticsSnapshot) :
  Forall2 imports (importedLogs utcNow snapshot) (listed snapshot).
Proof.
  unfold importedLogs, listed.
  destruct (import_fold (importAPI utcNow)
              (fun a => m ← Models a.2; (fun d => (a.1, m.1, d)) <$> Details m.2))
    with (l := APIs snapshot) (acc := ([] : list RequestLog, O)) as (rows & Hr & HF).
  - intros acc a. unfold importAPI.
    apply (import_fold (importModel utcNow a.1)
             (fun m => (fun d => (a.1, m.1, d)) <$> Details m.2)).
    intros acc' m. unfold importModel.
    destruct (import_fold (importDetail utcNow a.1 m.1)
                (fun d => [(a.1, m.1, d)])) with (l := Details m.2) (acc := acc')
      as (rows & Hr & HF).
    + intros acc'' d. destruct (importDetail_imports a.1 m.1 acc'' d) as (row & Hrow & Hi).
      exists [row]. split; [done|]. constructor; [done|constructor].
    + exists rows. split; [done|].
      by rewrite <- bind_one.
  - rewrite Hr. done.
Qed.

Lemma length_listed (snapshot : StatisticsSnapshot) :
  length (listed snapshot) = length (allDetails snapshot).
Proof.
  unfold listed, allDetails.
  induction (APIs snapshot) as [|a l IH]; csimpl; [done|].
  rewrite !length_app, IH. f_equal.
  induction (Models a.2) as [|m ms IHm]; csimpl; [done|].
  by rewrite !length_app, IHm, length_fmap.
Qed.

Lemma import_written (DB : list RequestLog) (snapshot : StatisticsSnapshot) :
  createInBatches (importedLogs utcNow snapshot) = None ->
  importUsageSnapshotToDB utcNow createInBatches (Some DB) snapshot
  = (Some (DB ++ importedLogs utcNow snapshot),
     Z.of_nat (length (allDetails snapshot)), None).
Proof.
  intros Hok. pose proof (importedLogs_listed snapshot) as HF.
  assert (Hlen : length (importedLogs utcNow snapshot)
                 = length (allDetails snapshot)).
  { rewrite <- length_listed. by eapply Forall2_length. }
  unfold importUsageSnapshotToDB. rewrite Hok, <- Hlen.
  destruct (importedLogs utcNow snapshot) as [|row logs']; [|done].
  simpl. by rewrite app_nil_r.
Qed.

(** X23.  [importUsageSnapshotToDB] makes one row of every detail of the
    snapshot, in order, blank API names included and nothing deduplicated:
    the row carries the model name, the tokens and the failure flag of the
    detail, its time when it has one, and as auth index that of the detail,
    or else the API name.  When the batch is written the rows are appended
    and their number returned; when it fails the database is unchanged and 0
    returned with the error; without a database nothing is done. *)
Theorem import_to_database_takes_every_detail (DB : list RequestLog)
    (snapshot : StatisticsSnapshot) :
  let logs := importedLogs utcNow snapshot in
  Forall2 imports logs (listed snapshot) /\
  length logs = length (allDetails snapshot) /\
  (createInBatches logs = None ->
   importUsageSnapshotToDB utcNow createInBatches (Some DB) snapshot
   = (Some (DB ++ logs), Z.of_nat (length (allDetails snapshot)), None)) /\
  (forall err, logs <> [] -> createInBatches logs = Some err ->
   importUsageSnapshotToDB utcNow createInBatches (Some DB) snapshot
   = (Some DB, 0, Some err)) /\
  importUsageSnapshotToDB utcNow createInBatches None snapshot = (None, 0, None).
Proof.
  intros logs. pose proof (importedLogs_listed snapshot) as HF.
  fold logs in HF.
  assert (Hlen : length logs = length (allDetails snapshot)).
  { rewrite <- length_listed. by eapply Forall2_length. }
  split; [exact HF|]. split; [exact Hlen|]. split; [|split; [|done]].
  - intros Hok. by apply import_written.
  - intros err Hne Herr. unfold importUsageSnapshotToDB. fold logs. rewrite Herr.
    by destruct logs.
Qed.



End ImportRows.

End import_props.

(** ** The filter, line by line *)

Module lines_props.

Import Bytes BytesFacts gjson sjson coreusage executor filter_props strip_props.

Section Lines.
Context `{F : Float64} `{T : TimeOps}.


(** X24.  A data line that carries usage metadata and a trace id the
    correlation memory holds (a stop chunk of that trace came before) is
    output as it came, whatever else it says, and the trace id is taken out
    of the memory for the lines that follow. *)
Theorem usage_after_stop_passes_and_is_forgotten (mem : gset string) (payload : string)
    (pre : list string) (line : string) (post : list string) (dataIdx : nat)
    (rawJSON : string) :
  Split payload = pre ++ line :: post ->
  dataJSON line = Some (dataIdx, rawJSON) ->
  hasUsageMetadata rawJSON = true ->
  traceIDOf rawJSON <> EmptyString ->
  let before := filterLines mem pre in
  traceIDOf rawJSON ∈ before.1.1.1 ->
  let forgotten := before.1.1.1 ∖ {[traceIDOf rawJSON]} in
  let after := filterLines forgotten post in
  filterLine before.1.1.1 line
  = {| memory := forgotten; output := line; modified := false;
       foundData := true |} /\
  FilterSSEUsageMetadata mem payload
  = (after.1.1.1, Join (before.1.1.2 ++ line :: after.1.1.2)).
Proof.
  intros Hsplit Hdata Hu Hid before Hin forgotten after.
  assert (Hstep : filterLine before.1.1.1 line
                  = {| memory := forgotten; output := line; modified := false;
                       foundData := true |}).
  { rewrite (filterLine_data _ _ _ _ Hdata). by apply filterData_hit. }
  split; [exact Hstep|].
  rewrite (FilterSSE_at_line mem payload pre line post Hsplit);
    fold before; by rewrite Hstep.
Qed.

Lemma filterLine_filtered (mem : gset string) (line : string) :
  filtered line (output (filterLine mem line)).
Proof.
  destruct (dataJSON line) as [[i raw]|] eqn:Hd.
  - rewrite (filterLine_data _ _ _ _ Hd). unfold filterData.
    destruct (isStopChunkWithoutUsage raw && _); [by left|].
    destruct (_ && hasUsageMetadata raw); [by left|].
    destruct (StripUsageMetadataFromJSON raw) as [cleaned changed] eqn:Hs.
    destruct changed; [|by left]. right. exists i, raw, cleaned.
    split; [done|]. split; [done|]. simpl.
    destruct (Strip_changed_has_usage _ _ Hs) as (_ & _ & Hne).
    destruct cleaned; [done|done].
  - left. by apply filterLine_not_data.
Qed.

Lemma filterLines_filtered (mem : gset string) (lines : list string) :
  Forall2 filtered lines (filterLines mem lines).1.1.2.
Proof.
  revert mem. induction lines as [|l lines IH]; intros mem; simpl; [constructor|].
  specialize (IH (memory (filterLine mem l))).
  destruct (filterLines (memory (filterLine mem l)) lines) as [[[m o] md] fd].
  simpl in *. constructor; [apply filterLine_filtered|done].
Qed.

(** X25.  On a payload with a data line, [FilterSSEUsageMetadata] works
    line by line: what it returns is as many lines, joined, each of them the
    line that came, or, for a data line whose JSON
    [StripUsageMetadataFromJSON] changes, that line with the JSON as changed;
    a line that is no data line is output as it came, at its place. *)
Theorem filter_works_line_by_line (mem : gset string) (payload : string) :
  (exists line, line ∈ Split payload /\ is_Some (dataJSON line)) ->
  exists outs,
    (FilterSSEUsageMetadata mem payload).2 = Join outs /\
    Forall2 filtered (Split payload) outs /\
    (forall k line, Split payload !! k = Some line -> dataJSON line = None ->
                    outs !! k = Some line).
Proof.
  intros (line & Hin & Hd).
  pose proof (filterLines_found mem _ _ Hin Hd) as Hfd.
  exists (filterLines mem (Split payload)).1.1.2.
  rewrite (FilterSSE_found _ _ Hfd). split; [done|].
  split; [apply filterLines_filtered|].
  intros k l Hk Hn. by apply filterLines_not_data.
Qed.


Lemma filterLine_no_data (mem : gset string) (line : string) :
  dataJSON line = None ->
  filterLine mem line
  = {| memory := mem; output := line; modified := false; foundData := false |}.
Proof.
  intros Hd. unfold filterLine.
  destruct (is_empty (TrimSpace line) || negb (HasPrefix (TrimSpace line) "data:"))
    eqn:Hb; [done|].
  apply orb_false_iff in Hb as [He Hp]. apply negb_false_iff in Hp.
  destruct (proj2 (dataJSON_data_line line) (conj He Hp)) as [x Hx]. congruence.
Qed.

Lemma filterLines_no_data (mem : gset string) (lines : list string) :
  Forall (fun line => dataJSON line = None) lines ->
  filterLines mem lines = (mem, lines, false, false).
Proof.
  induction 1 as [|l lines Hl _ IH]; simpl; [done|].
  rewrite (filterLine_no_data _ _ Hl). simpl. by rewrite IH.
Qed.

(** X26.  A payload with no data line is taken as one JSON document:
    the memory is left alone, and the payload is returned as it came unless
    [StripUsageMetadataFromJSON] changes it, trimmed; then what is returned
    is the changed document, which is valid JSON.  The empty payload is
    returned as it is. *)
Theorem payload_without_data_lines_is_stripped_whole (mem : gset string)
    (payload : string) :
  Forall (fun line => dataJSON line = None) (Split payload) ->
  let stripped := StripUsageMetadataFromJSON (TrimSpace payload) in
  FilterSSEUsageMetadata mem payload
  = (mem, if stripped.2 then stripped.1 else payload) /\
  (stripped.2 = true -> ValidBytes stripped.1 = true) /\
  FilterSSEUsageMetadata mem EmptyString = (mem, EmptyString).
Proof.
  intros Hall stripped. split; [|split; [|done]].
  - unfold FilterSSEUsageMetadata. destruct (is_empty payload) eqn:He.
    + apply is_empty_true in He. subst payload. done.
    + rewrite (filterLines_no_data _ _ Hall). simpl. fold stripped.
      by destruct stripped as [cleaned []].
  - intros Hc. destruct stripped as [cleaned changed] eqn:Hs. simpl in *. subst.
    destruct (Strip_changed_valid _ _ Hs) as (doc & _ & _ & Hv).
    apply ValidBytes_true. by rewrite Hv.
Qed.

End Lines.

Lemma usage_after_stop_witness :
  (@FilterSSEUsageMetadata examples.exampleFloat ∅ examples.twoLinePayload)
  = (∅, examples.twoLinePayload).
Proof.
  pose proof (@usage_after_stop_passes_and_is_forgotten examples.exampleFloat
                ∅ examples.twoLinePayload [examples.stopLine] examples.usageLine
                [] 0%nat
                (q "{'usageMetadata':{'totalTokenCount':7},'traceId':'abc'}")
                ltac:(vm_compute; reflexivity) ltac:(vm_compute; reflexivity)
                ltac:(vm_compute; reflexivity)
                ltac:(vm_compute; discriminate)) as H.
  cbv zeta in H.
  assert (Hin : @traceIDOf examples.exampleFloat
                  (q "{'usageMetadata':{'totalTokenCount':7},'traceId':'abc'}")
                ∈ (@filterLines examples.exampleFloat ∅ [examples.stopLine]).1.1.1).
  { apply (@bool_decide_unpack _ (gset_elem_of_dec _ _)). vm_compute. exact I. }
  rewrite (proj2 (H Hin)). vm_compute. reflexivity.
Defined.

Lemma filter_line_by_line_witness :
  exists outs,
    (@FilterSSEUsageMetadata examples.exampleFloat ∅ examples.terminalPayload).2
    = Join outs /\
    outs !! 0%nat = Some "event: message".
Proof.
  destruct (@filter_works_line_by_line examples.exampleFloat ∅
              examples.terminalPayload) as (outs & Hout & _ & Hkeep).
  - exists examples.terminalLine. split.
    + apply list_elem_of_further, list_elem_of_here.
    + vm_compute. eauto.
  - exists outs. split; [exact Hout|].
    apply Hkeep; vm_compute; reflexivity.
Defined.

Lemma payload_without_data_lines_witness :
  @FilterSSEUsageMetadata examples.exampleFloat ∅ examples.rawPayload
  = (∅, q "{'cpaUsageMetadata':{'totalTokenCount':7}}").
Proof.
  assert (Hall : Forall (fun line => dataJSON line = None)
                   (Split examples.rawPayload)) by repeat constructor.
  rewrite (proj1 (@payload_without_data_lines_is_stripped_whole
                    examples.exampleFloat ∅ examples.rawPayload Hall)).
  vm_compute. reflexivity.
Defined.

End lines_props.

(** ** Numbers as [pretty] prints them *)

Module numbers_props.

Import Bytes BytesFacts gjson parser_props Int64Facts.

Lemma pretty_N_char_digit (x : N) :
  (x < 10)%N ->
  is_digit (pretty_N_char x) = true /\
  Z.of_N (code (pretty_N_char x) - 48) = Z.of_N x /\
  (Ascii.eqb (pretty_N_char x) "0" = true -> x = 0%N).
Proof.
  intros Hx.
  assert (x = 0 \/ x = 1 \/ x = 2 \/ x = 3 \/ x = 4 \/ x = 5 \/ x = 6 \/ x = 7
          \/ x = 8 \/ x = 9)%N as Hc by lia.
  repeat (destruct Hc as [->|Hc]; [by vm_compute|]). subst. by vm_compute.
Qed.

(** The digits [pretty] prints are read back. *)
Lemma digits_value_pretty_go (x : N) (s : string) :
  exists k : Z, 0 <= k /\ forall acc,
    digits_value acc (pretty_N_go x s) = digits_value (acc * 10 ^ k + Z.of_N x) s.
Proof.
  revert s. induction (N.lt_wf_0 x) as [x _ IH]. intros s.
  destruct (decide (x = 0)%N) as [->|Hne].
  - exists 0. split; [lia|]. intros acc. rewrite pretty_N_go_0. f_equal. lia.
  - rewrite pretty_N_go_step by lia.
    destruct (IH (x `div` 10)%N ltac:(apply N.div_lt; lia)
                 (String (pretty_N_char (x `mod` 10)) s)) as (k & Hk & H).
    exists (k + 1). split; [lia|]. intros acc. rewrite H. simpl.
    destruct (pretty_N_char_digit (x `mod` 10)%N ltac:(apply N.mod_lt; lia))
      as (Hd & Hv & _).
    rewrite Hd, Hv. f_equal.
    rewrite Z.pow_add_r, Z.pow_1_r by lia.
    pose proof (N.div_mod x 10 ltac:(lia)) as Hdm.
    assert (Hx : Z.of_N x = 10 * Z.of_N (x `div` 10) + Z.of_N (x `mod` 10)) by lia.
    rewrite Hx. ring.
Qed.

Lemma span_digits_pretty_go (x : N) (s : string) :
  span_digits s = (s, EmptyString) ->
  span_digits (pretty_N_go x s) = (pretty_N_go x s, EmptyString).
Proof.
  revert s. induction (N.lt_wf_0 x) as [x _ IH]. intros s Hs.
  destruct (decide (x = 0)%N) as [->|Hne]; [by rewrite pretty_N_go_0|].
  rewrite pretty_N_go_step by lia. apply IH; [apply N.div_lt; lia|].
  simpl.
  destruct (pretty_N_char_digit (x `mod` 10)%N ltac:(apply N.mod_lt; lia))
    as (Hd & _ & _).
  by rewrite Hd, Hs.
Qed.

Lemma pretty_go_head (x : N) (s : string) :
  (0 < x)%N ->
  exists c r, pretty_N_go x s = String c r /\ is_digit c = true /\
              Ascii.eqb c "0" = false.
Proof.
  revert s. induction (N.lt_wf_0 x) as [x _ IH]. intros s Hx.
  rewrite pretty_N_go_step by lia.
  destruct (decide (x `div` 10 = 0)%N) as [Hz|Hnz].
  - rewrite Hz, pretty_N_go_0.
    destruct (pretty_N_char_digit (x `mod` 10)%N ltac:(apply N.mod_lt; lia))
      as (Hd & _ & H0).
    eexists _, _. split; [done|]. split; [done|].
    destruct (Ascii.eqb (pretty_N_char (x `mod` 10)) "0") eqn:E; [|done].
    specialize (H0 eq_refl).
    pose proof (N.div_mod x 10 ltac:(lia)). lia.
  - apply IH; [apply N.div_lt; lia|by apply N.neq_0_lt_0].
Qed.

Lemma parseInt_pretty (z : Z) : parseInt (pretty z) = Some (Int64.wrap z).
Proof.
  destruct z as [|p|p].
  - reflexivity.
  - change (pretty (Z.pos p)) with (pretty_N_go (N.pos p) EmptyString).
    destruct (pretty_go_head (N.pos p) EmptyString ltac:(lia))
      as (c & r & Heq & Hd & _).
    unfold parseInt. rewrite Heq. rewrite (digit_not_minus _ Hd). rewrite <- Heq.
    destruct (digits_value_pretty_go (N.pos p) EmptyString) as (k & _ & H).
    rewrite H. simpl. done.
  - change (pretty (Z.neg p)) with ("-" +:+ pretty_N_go (N.pos p) EmptyString).
    destruct (pretty_go_head (N.pos p) EmptyString ltac:(lia))
      as (c & r & Heq & Hd & _).
    unfold parseInt. push_append. simpl. rewrite Heq, <- Heq.
    destruct (digits_value_pretty_go (N.pos p) EmptyString) as (k & _ & H).
    rewrite H. simpl. done.
Qed.

Lemma scan_number_pretty (z : Z) :
  scan_number (pretty z) = Some (pretty z, EmptyString).
Proof.
  assert (Hpos : forall p,
            scan_int (pretty_N_go (N.pos p) EmptyString)
            = Some (pretty_N_go (N.pos p) EmptyString, EmptyString)).
  { intros p.
    destruct (pretty_go_head (N.pos p) EmptyString ltac:(lia))
      as (c & r & Heq & Hd & H0).
    unfold scan_int. rewrite Heq, H0, Hd, <- Heq.
    by rewrite span_digits_pretty_go. }
  destruct z as [|p|p].
  - reflexivity.
  - change (pretty (Z.pos p)) with (pretty_N_go (N.pos p) EmptyString).
    destruct (pretty_go_head (N.pos p) EmptyString ltac:(lia))
      as (c & r & Heq & Hd & H0).
    unfold scan_number. rewrite Heq, (digit_not_minus _ Hd), <- Heq.
    rewrite Hpos. simpl. by rewrite !append_empty_r.
  - change (pretty (Z.neg p)) with ("-" +:+ pretty_N_go (N.pos p) EmptyString).
    unfold scan_number. push_append. simpl. rewrite Hpos. simpl.
    by rewrite !append_empty_r.
Qed.

Lemma well_formed_number (z : Z) : well_formed (JNumber (pretty z)).
Proof.
  destruct (scan_number_text _ _ _ (scan_number_pretty z)) as [Hn Hh].
  by constructor.
Qed.

Section Ints.
Context `{F : Float64}.

Lemma Int_pretty (z : Z) :
  Int64.in_range z -> Int (Some (JNumber (pretty z))) = z.
Proof. intros Hz. simpl. rewrite parseInt_pretty. by apply wrap_small. Qed.

End Ints.

End numbers_props.

(** ** The parsers on the wire shapes *)

Module wire_props.

Import Bytes BytesFacts gjson coreusage executor.
Import parser_props Int64Facts strip_props filter_props numbers_props.

Ltac wf_doc :=
  repeat first
    [ apply well_formed_number
    | apply wf_string; intros rest; reflexivity
    | apply wf_array; constructor
    | apply wf_object
    | apply Forall_nil_2
    | apply Forall_cons_2; [split; [intros rest; reflexivity|]|] ].

Lemma well_formed_docs (d : Detail) :
  Forall well_formed
    [chatDoc d; responsesDoc d; codexDoc d; geminiDoc d; geminiCLIDoc d; claudeDoc d].
Proof. repeat (constructor; [unfold numberOf; wf_doc|]). constructor. Qed.

Section Reading.
Context `{F : Float64} `{T : TimeOps}.

(** What the parsers read from the documents, whatever values stand for
    the counts. *)
Lemma parseOpenAIUsage_chat (data : string) (x : json) (i o t c r : json) :
  parse data = Some (JObject [("id", x); ("usage", chatUsage i o t c r)]) ->
  parseOpenAIUsage data
  = {| InputTokens := Int (Some i); OutputTokens := Int (Some o);
       ReasoningTokens := Int (Some r); CachedTokens := Int (Some c);
       TotalTokens := Int (Some t) |}.
Proof. intros H. unfold parseOpenAIUsage, ParseBytes. rewrite H. reflexivity. Qed.

Lemma parseOpenAIUsage_responses (data : string) (x : json) (i o t c r : json) :
  parse data = Some (JObject [("id", x); ("usage", responsesUsage i o t c r)]) ->
  parseOpenAIUsage data
  = {| InputTokens := Int (Some i); OutputTokens := Int (Some o);
       ReasoningTokens := Int (Some r); CachedTokens := Int (Some c);
       TotalTokens := Int (Some t) |}.
Proof. intros H. unfold parseOpenAIUsage, ParseBytes. rewrite H. reflexivity. Qed.

Lemma parseCodexUsage_completed (data : string) (x : json) (i o t c r : json) :
  parse data
  = Some (JObject [("type", x);
                   ("response", JObject [("usage", responsesUsage i o t c r)])]) ->
  parseCodexUsage data
  = ({| InputTokens := Int (Some i); OutputTokens := Int (Some o);
        ReasoningTokens := Int (Some r); CachedTokens := Int (Some c);
        TotalTokens := Int (Some t) |}, true).
Proof. intros H. unfold parseCodexUsage, ParseBytes. rewrite H. reflexivity. Qed.

Lemma parseOpenAIStreamUsage_chat (line data : string) (x : json)
    (i o t c r : json) :
  jsonPayload line = data ->
  parse data = Some (JObject [("id", x); ("usage", chatUsage i o t c r)]) ->
  parseOpenAIStreamUsage line
  = ({| InputTokens := Int (Some i); OutputTokens := Int (Some o);
        ReasoningTokens := Int (Some r); CachedTokens := Int (Some c);
        TotalTokens := Int (Some t) |}, true).
Proof.
  intros Hl H. unfold parseOpenAIStreamUsage. cbv zeta. rewrite !Hl.
  unfold GetBytes, ParseBytes, ValidBytes. rewrite !H.
  destruct data; [done|]. reflexivity.
Qed.

End Reading.

(** A data line that carries an object: its payload is the object. *)
Lemma TrimSpace_data_braces (x : string) :
  TrimSpace ("data: {" +:+ x +:+ "}") = "data: {" +:+ x +:+ "}".
Proof.
  unfold TrimSpace.
  replace (trimLeft ("data: {" +:+ x +:+ "}")) with ("data: {" +:+ x +:+ "}")
    by reflexivity.
  unfold trimRight.
  change ("data: {" +:+ x +:+ "}") with (("data: {" +:+ x) +:+ "}") at 1.
  rewrite rev_append. change (String.rev "}") with "}".
  rewrite append_cons, append_nil_l, trimLeftRev_close.
  change (String "}" (String.rev ("data: {" +:+ x)))
    with (String.rev "}" +:+ String.rev ("data: {" +:+ x)).
  rewrite <- rev_append, rev_involutive. done.
Qed.

Lemma jsonPayload_data_object (ms : list (string * json)) :
  jsonPayload ("data: " +:+ render (JObject ms)) = render (JObject ms).
Proof.
  rewrite render_object.
  change ("data: " +:+ "{" +:+ render_members ms +:+ "}")
    with ("data: {" +:+ render_members ms +:+ "}").
  unfold jsonPayload. rewrite TrimSpace_data_braces.
  change (drop 5 ("data: {" +:+ render_members ms +:+ "}"))
    with (" " +:+ "{" +:+ render_members ms +:+ "}").
  replace (TrimSpace (" " +:+ "{" +:+ render_members ms +:+ "}"))
    with (TrimSpace ("{" +:+ render_members ms +:+ "}")) by reflexivity.
  rewrite TrimSpace_braces. reflexivity.
Qed.

Section OpenAIShapes.
Context `{F : Float64} `{T : TimeOps}.

Ltac parsed := apply parse_render; unfold numberOf; wf_doc.

Lemma parse_chatDoc d : parse (render (chatDoc d)) = Some (chatDoc d).
Proof. parsed. Qed.
Lemma parse_responsesDoc d : parse (render (responsesDoc d)) = Some (responsesDoc d).
Proof. parsed. Qed.
Lemma parse_codexDoc d : parse (render (codexDoc d)) = Some (codexDoc d).
Proof. parsed. Qed.
Lemma parse_geminiDoc d : parse (render (geminiDoc d)) = Some (geminiDoc d).
Proof. parsed. Qed.
Lemma parse_geminiCLIDoc d : parse (render (geminiCLIDoc d)) = Some (geminiCLIDoc d).
Proof. parsed. Qed.
Lemma parse_claudeDoc d : parse (render (claudeDoc d)) = Some (claudeDoc d).
Proof. parsed. Qed.

(** X27.  The OpenAI parsers read back what a document says, for all
    int64 counts: from an answer of Chat Completions and from one of the
    Responses API, [parseOpenAIUsage] returns the five counts the document
    carries; so does [parseCodexUsage] from a [response.completed] event, and
    [parseOpenAIStreamUsage] from a data line with the Chat Completions
    answer. *)
Theorem openai_parsers_read_back_their_documents (d : Detail) :
  InRange d ->
  parseOpenAIUsage (render (chatDoc d)) = d /\
  parseOpenAIUsage (render (responsesDoc d)) = d /\
  parseCodexUsage (render (codexDoc d)) = (d, true) /\
  parseOpenAIStreamUsage ("data: " +:+ render (chatDoc d)) = (d, true).
Proof.
  intros (Hi & Ho & Hr & Hc & Ht). destruct d as [i o r c t].
  cbn [InputTokens OutputTokens ReasoningTokens CachedTokens TotalTokens]
    in Hi, Ho, Hr, Hc, Ht.
  assert (Hread : {| InputTokens := Int (Some (numberOf i));
                     OutputTokens := Int (Some (numberOf o));
                     ReasoningTokens := Int (Some (numberOf r));
                     CachedTokens := Int (Some (numberOf c));
                     TotalTokens := Int (Some (numberOf t)) |}
                  = {| InputTokens := i; OutputTokens := o; ReasoningTokens := r;
                       CachedTokens := c; TotalTokens := t |}).
  { unfold numberOf. by rewrite !Int_pretty. }
  set (d := {| InputTokens := i; OutputTokens := o; ReasoningTokens := r;
               CachedTokens := c; TotalTokens := t |}) in *.
  split; [|split; [|split]].
  - rewrite <- Hread at 2.
    apply (parseOpenAIUsage_chat _ (JString "chatcmpl-1")
             (numberOf i) (numberOf o) (numberOf t) (numberOf c) (numberOf r)).
    exact (parse_chatDoc d).
  - rewrite <- Hread at 2.
    apply (parseOpenAIUsage_responses _ (JString "resp_1")
             (numberOf i) (numberOf o) (numberOf t) (numberOf c) (numberOf r)).
    exact (parse_responsesDoc d).
  - rewrite <- Hread at 2.
    apply (parseCodexUsage_completed _ (JString "response.completed")
             (numberOf i) (numberOf o) (numberOf t) (numberOf c) (numberOf r)).
    exact (parse_codexDoc d).
  - rewrite <- Hread at 2.
    apply (parseOpenAIStreamUsage_chat _ (render (chatDoc d))
             (JString "chatcmpl-1") (numberOf i) (numberOf o) (numberOf t) (numberOf c) (numberOf r)).
    + apply jsonPayload_data_object.
    + exact (parse_chatDoc d).
Qed.

End OpenAIShapes.

Section OtherShapes.
Context `{F : Float64} `{T : TimeOps}.

Lemma geminiFamily_read (i o t c r : json) :
  parseGeminiFamilyUsageDetail (Some (geminiUsage i o t c r))
  = let detail :=
      {| InputTokens := Int (Some i); OutputTokens := Int (Some o);
         ReasoningTokens := Int (Some r); CachedTokens := Int (Some c);
         TotalTokens := Int (Some t) |} in
    if TotalTokens detail =? 0 then
      set_TotalTokens detail
        (Int64.add (Int64.add (InputTokens detail) (OutputTokens detail))
                   (ReasoningTokens detail))
    else detail.
Proof. reflexivity. Qed.

Lemma claude_read (i o c : json) :
  claudeDetail (Some (claudeUsage i o c))
  = {| InputTokens := Int (Some i); OutputTokens := Int (Some o);
       ReasoningTokens := 0;
       CachedTokens := if Int (Some c) =? 0 then 0 else Int (Some c);
       TotalTokens := Int64.add (Int (Some i)) (Int (Some o)) |}.
Proof. reflexivity. Qed.


Lemma gemini_doc_read (data : string) (x : json) (u : json) :
  parse data = Some (JObject [("candidates", x); ("usageMetadata", u)]) ->
  parseGeminiUsage data = parseGeminiFamilyUsageDetail (Some u) /\
  parseAntigravityUsage data = parseGeminiFamilyUsageDetail (Some u) /\
  parseGeminiCLIUsage data = zero.
Proof.
  intros H. unfold parseGeminiUsage, parseAntigravityUsage, parseGeminiCLIUsage,
    ParseBytes. rewrite H. repeat split; reflexivity.
Qed.

Lemma geminiCLI_doc_read (data : string) (u : json) :
  parse data = Some (JObject [("response", JObject [("usageMetadata", u)])]) ->
  parseGeminiCLIUsage data = parseGeminiFamilyUsageDetail (Some u) /\
  parseAntigravityUsage data = parseGeminiFamilyUsageDetail (Some u) /\
  parseGeminiUsage data = zero.
Proof.
  intros H. unfold parseGeminiUsage, parseAntigravityUsage, parseGeminiCLIUsage,
    ParseBytes. rewrite H. repeat split; reflexivity.
Qed.

Lemma gemini_line_read (line data : string) (x : json) (u : json) :
  jsonPayload line = data ->
  parse data = Some (JObject [("candidates", x); ("usageMetadata", u)]) ->
  parseGeminiStreamUsage line = (parseGeminiFamilyUsageDetail (Some u), true) /\
  parseAntigravityStreamUsage line
  = (parseGeminiFamilyUsageDetail (Some u), true).
Proof.
  intros Hl H. unfold parseGeminiStreamUsage, parseAntigravityStreamUsage.
  cbv zeta. rewrite !Hl. unfold GetBytes, ParseBytes, ValidBytes. rewrite !H.
  destruct data; [done|]. split; reflexivity.
Qed.

Lemma geminiCLI_line_read (line data : string) (u : json) :
  jsonPayload line = data ->
  parse data = Some (JObject [("response", JObject [("usageMetadata", u)])]) ->
  parseGeminiCLIStreamUsage line = (parseGeminiFamilyUsageDetail (Some u), true) /\
  parseAntigravityStreamUsage line
  = (parseGeminiFamilyUsageDetail (Some u), true).
Proof.
  intros Hl H. unfold parseGeminiCLIStreamUsage, parseAntigravityStreamUsage.
  cbv zeta. rewrite !Hl. unfold GetBytes, ParseBytes, ValidBytes. rewrite !H.
  destruct data; [done|]. split; reflexivity.
Qed.

Lemma claude_doc_read (line data : string) (x : json) (u : json) :
  jsonPayload line = data ->
  parse data = Some (JObject [("type", x); ("usage", u)]) ->
  parseClaudeUsage data = claudeDetail (Some u) /\
  parseClaudeStreamUsage line = (claudeDetail (Some u), true).
Proof.
  intros Hl H. unfold parseClaudeUsage, parseClaudeStreamUsage.
  cbv zeta. rewrite !Hl. unfold GetBytes, ParseBytes, ValidBytes. rewrite !H.
  destruct data; [done|]. split; reflexivity.
Qed.

(** X28.  The Gemini-family and Claude parsers read back what a document
    says, for all int64 counts.  From [usageMetadata], at the top level or
    under [response], they return the counts it carries, the total derived as
    Input+Output+Reasoning when it is declared zero; [parseGeminiUsage] reads
    nothing under [response], nor [parseGeminiCLIUsage] at the top level.
    The Claude parsers return input, output and cached tokens as declared,
    no reasoning tokens, and Input+Output as the total. *)
Theorem gemini_and_claude_parsers_read_back_their_documents (d : Detail) :
  InRange d ->
  let derived :=
    if TotalTokens d =? 0 then
      set_TotalTokens d
        (Int64.add (Int64.add (InputTokens d) (OutputTokens d))
                   (ReasoningTokens d))
    else d in
  let claude :=
    {| InputTokens := InputTokens d; OutputTokens := OutputTokens d;
       ReasoningTokens := 0; CachedTokens := CachedTokens d;
       TotalTokens := Int64.add (InputTokens d) (OutputTokens d) |} in
  Forall (fun got => got = derived)
    [parseGeminiUsage (render (geminiDoc d));
     parseAntigravityUsage (render (geminiDoc d));
     parseGeminiCLIUsage (render (geminiCLIDoc d));
     parseAntigravityUsage (render (geminiCLIDoc d))] /\
  Forall (fun got => got = (derived, true))
    [parseGeminiStreamUsage ("data: " +:+ render (geminiDoc d));
     parseAntigravityStreamUsage ("data: " +:+ render (geminiDoc d));
     parseGeminiCLIStreamUsage ("data: " +:+ render (geminiCLIDoc d));
     parseAntigravityStreamUsage ("data: " +:+ render (geminiCLIDoc d))] /\
  parseGeminiCLIUsage (render (geminiDoc d)) = zero /\
  parseGeminiUsage (render (geminiCLIDoc d)) = zero /\
  parseClaudeUsage (render (claudeDoc d)) = claude /\
  parseClaudeStreamUsage ("data: " +:+ render (claudeDoc d)) = (claude, true).
Proof.
  intros (Hi & Ho & Hr & Hc & Ht) derived claude. destruct d as [i o r c t].
  cbn [InputTokens OutputTokens ReasoningTokens CachedTokens TotalTokens] in *.
  assert (Hfam : parseGeminiFamilyUsageDetail
                   (Some (geminiUsage (numberOf i) (numberOf o) (numberOf t) (numberOf c) (numberOf r)))
                 = derived).
  { rewrite geminiFamily_read. unfold numberOf. cbv zeta.
    cbn [InputTokens OutputTokens ReasoningTokens CachedTokens TotalTokens].
    by rewrite !Int_pretty. }
  assert (Hcl : claudeDetail (Some (claudeUsage (numberOf i) (numberOf o) (numberOf c))) = claude).
  { rewrite claude_read. unfold numberOf, claude. rewrite !Int_pretty by done.
    by destruct (Z.eqb_spec c 0) as [->|?]. }
  set (d := {| InputTokens := i; OutputTokens := o; ReasoningTokens := r;
               CachedTokens := c; TotalTokens := t |}) in *.
  destruct (gemini_doc_read _ (JArray []) _ (parse_geminiDoc d)) as (G1 & G2 & G3).
  destruct (geminiCLI_doc_read _ _ (parse_geminiCLIDoc d)) as (C1 & C2 & C3).
  destruct (gemini_line_read ("data: " +:+ render (geminiDoc d)) _ (JArray []) _
              (jsonPayload_data_object _) (parse_geminiDoc d)) as (L1 & L2).
  destruct (geminiCLI_line_read ("data: " +:+ render (geminiCLIDoc d)) _ _
              (jsonPayload_data_object _) (parse_geminiCLIDoc d)) as (L3 & L4).
  destruct (claude_doc_read ("data: " +:+ render (claudeDoc d)) _
              (JString "message") _
              (jsonPayload_data_object _) (parse_claudeDoc d)) as (K1 & K2).
  change (usageOf geminiUsage d)
    with (geminiUsage (numberOf i) (numberOf o) (numberOf t) (numberOf c) (numberOf r)) in *.
  change (claudeUsage (numberOf (InputTokens d)) (numberOf (OutputTokens d))
                      (numberOf (CachedTokens d)))
    with (claudeUsage (numberOf i) (numberOf o) (numberOf c)) in *.
  rewrite Hfam in G1, G2, C1, C2, L1, L2, L3, L4. rewrite Hcl in K1, K2.
  split; [repeat (apply Forall_cons_2; [done|]); apply Forall_nil_2|].
  split; [repeat (apply Forall_cons_2; [done|]); apply Forall_nil_2|].
  done.
Qed.

End OtherShapes.

(** X27 and X28 on a detail with a value for every count. *)
Lemma openai_read_back_witness :
  @parseOpenAIUsage examples.exampleFloat (render (chatDoc examples.fullDetail))
  = examples.fullDetail.
Proof.
  assert (Hr : InRange examples.fullDetail).
  { unfold InRange, Int64.in_range, Int64.min_int, Int64.max_int. simpl. lia. }
  exact (proj1 (@openai_parsers_read_back_their_documents examples.exampleFloat
                  examples.fullDetail Hr)).
Defined.

Lemma claude_read_back_witness :
  @parseClaudeUsage examples.exampleFloat (render (claudeDoc examples.fullDetail))
  = {| InputTokens := 10; OutputTokens := 20; ReasoningTokens := 0;
       CachedTokens := 7; TotalTokens := 30 |}.
Proof.
  assert (Hr : InRange examples.fullDetail).
  { unfold InRange, Int64.in_range, Int64.min_int, Int64.max_int. simpl. lia. }
  pose proof (@gemini_and_claude_parsers_read_back_their_documents
                examples.exampleFloat examples.fullDetail Hr) as H.
  cbv zeta in H. exact (proj1 (proj2 (proj2 (proj2 (proj2 H))))).
Defined.

End wire_props.

(** ** The import handler *)

Module handler_props.

Import Bytes statistics management store_props import_props.

Section Handler.
Context `{T : TimeOps}.
Variable snapshotFromDB : list RequestLog -> StatisticsSnapshot.
Variable utcNow : nat -> Time.
Variable now : nat -> Time.
Variable createInBatches : list RequestLog -> option string.

(** X29.  [ImportUsageStatistics] on a store and a payload that decodes.
    Without a database it merges the snapshot into the store and answers
    with the result of the merge and the totals of the store as merged.  With
    a database that takes the batch, the store is left as it was, one row per
    detail is appended, and the answer is their number as added and 0 as
    skipped, whatever the database held.  The version of the payload is not
    looked at. *)
Theorem import_handler_with_and_without_database (usageStats : RequestStatistics)
    (payload : usageImportPayload) (rows : list RequestLog) :
  let run := ImportUsageStatistics utcNow createInBatches snapshotFromDB now
               (Some (Some usageStats)) (Some payload) in
  let logs := importedLogs utcNow (Usage payload) in
  let merged := MergeSnapshot now usageStats (Usage payload) in
  run None
  = (Some (Some merged.1), None,
     StatusOK (Added merged.2) (Skipped merged.2)
              (totalRequests merged.1) (failureCount merged.1)) /\
  (createInBatches logs = None ->
   run (Some rows)
   = (Some (Some usageStats), Some (rows ++ logs),
      StatusOK (Z.of_nat (length (allDetails (Usage payload)))) 0
               (snTotalRequests (snapshotFromDB (rows ++ logs)))
               (snFailureCount (snapshotFromDB (rows ++ logs))))) /\
  (forall version,
     ImportUsageStatistics utcNow createInBatches snapshotFromDB now
       (Some (Some usageStats))
       (Some {| Version := version; Usage := Usage payload |})
     = run).
Proof.
  intros run logs merged. split; [|split].
  - unfold run, ImportUsageStatistics. fold merged.
    by destruct merged as [s' res].
  - intros Hok. unfold run, ImportUsageStatistics.
    by rewrite (import_written utcNow createInBatches rows (Usage payload) Hok).
  - intros version. done.
Qed.

End Handler.

End handler_props.

(** ** The dedup key *)

Module dedup_props.

Import Bytes BytesFacts statistics Int64Facts totals_props numbers_props.

Lemma split_at_bar (a a' b b' : string) :
  barFree a = true -> barFree a' = true ->
  a +:+ "|" +:+ b = a' +:+ "|" +:+ b' -> a = a' /\ b = b'.
Proof.
  revert a'. induction a as [|c a IH]; intros [|c' a'] Ha Ha' Heq;
    push_append_in Heq; simpl in Ha, Ha'.
  - by injection Heq as ->.
  - injection Heq as <- _. by rewrite Ascii.eqb_refl in Ha'.
  - injection Heq as -> _. by rewrite Ascii.eqb_refl in Ha.
  - injection Heq as -> Heq.
    apply andb_true_iff in Ha as [_ Ha]. apply andb_true_iff in Ha' as [_ Ha'].
    destruct (IH a' Ha Ha' Heq) as [-> ->]. done.
Qed.

Lemma barFree_pretty_go (x : N) (s : string) :
  barFree s = true -> barFree (pretty_N_go x s) = true.
Proof.
  revert s. induction (N.lt_wf_0 x) as [x _ IH]. intros s Hs.
  destruct (decide (x = 0)%N) as [->|Hne]; [by rewrite pretty_N_go_0|].
  rewrite pretty_N_go_step by lia. apply IH; [apply N.div_lt; lia|].
  simpl. rewrite Hs, andb_true_r.
  destruct (pretty_N_char_digit (x `mod` 10)%N ltac:(apply N.mod_lt; lia))
    as (Hd & _ & _).
  destruct (Ascii.eqb (pretty_N_char (x `mod` 10)) "|") eqn:E; [|done].
  apply Ascii.eqb_eq in E. rewrite E in Hd. done.
Qed.

Lemma barFree_pretty (z : Z) : barFree (pretty z) = true.
Proof.
  destruct z as [|p|p]; [done| |].
  - by apply barFree_pretty_go.
  - change (pretty (Z.neg p)) with ("-" +:+ pretty_N_go (N.pos p) EmptyString).
    push_append. simpl. by apply barFree_pretty_go.
Qed.

Lemma barFree_bool (b : bool) : barFree (fmt_bool b) = true.
Proof. by destruct b. Qed.

Section Keys.
Context `{T : TimeOps}.

(** X30.  The dedup key tells details apart: when the names, the source,
    the auth index and the time as printed have no bar in them, two details
    with the same key are filed under the same API and model and agree on the
    time as printed, the source, the auth index, the failure flag and the
    normalised tokens. *)
Theorem dedupKey_tells_details_apart (apiName modelName : string)
    (d : RequestDetail) (apiName' modelName' : string) (d' : RequestDetail) :
  plain apiName modelName d -> plain apiName' modelName' d' ->
  dedupKey apiName modelName d = dedupKey apiName' modelName' d' ->
  apiName = apiName' /\ modelName = modelName' /\
  formatUTC (Timestamp d) = formatUTC (Timestamp d') /\
  Source d = Source d' /\ AuthIndex d = AuthIndex d' /\ Failed d = Failed d' /\
  normaliseTokenStats (Tokens d) = normaliseTokenStats (Tokens d').
Proof.
  intros (Ha & Hm & Ht & Hs & Hx) (Ha' & Hm' & Ht' & Hs' & Hx') Heq.
  unfold dedupKey in Heq. cbv zeta in Heq.
  apply split_at_bar in Heq as [-> Heq]; [|done|done].
  apply split_at_bar in Heq as [-> Heq]; [|done|done].
  apply split_at_bar in Heq as [Htime Heq]; [|done|done].
  apply split_at_bar in Heq as [Hsrc Heq]; [|done|done].
  apply split_at_bar in Heq as [Hauth Heq]; [|done|done].
  apply split_at_bar in Heq as [Hfail Heq]; [|apply barFree_bool|apply barFree_bool].
  apply split_at_bar in Heq as [Hi Heq]; [|apply barFree_pretty|apply barFree_pretty].
  apply split_at_bar in Heq as [Ho Heq]; [|apply barFree_pretty|apply barFree_pretty].
  apply split_at_bar in Heq as [Hr Heq]; [|apply barFree_pretty|apply barFree_pretty].
  apply split_at_bar in Heq as [Hc Htot]; [|apply barFree_pretty|apply barFree_pretty].
  unfold fmt_int in *.
  apply (inj pretty) in Hi, Ho, Hr, Hc, Htot.
  repeat split; try done.
  - by destruct (Failed d), (Failed d').
  - by apply TokenStats_eq.
Qed.

End Keys.

(** Without that, keys can coincide: a bar in a name shifts the fields. *)
Lemma dedupKey_bars_collide :
  @dedupKey examples.exampleTime "a|b" "c" examples.detailA
  = @dedupKey examples.exampleTime "a" "b|c" examples.detailA.
Proof. vm_compute. reflexivity. Qed.

(** X30 on a detail and the same detail with its total declared. *)
Lemma dedupKey_witness :
  normaliseTokenStats (@Tokens examples.exampleTime examples.detailA)
  = normaliseTokenStats (@Tokens examples.exampleTime examples.detailA').
Proof.
  assert (Hp : forall d, d = examples.detailA \/ d = examples.detailA' ->
                         @plain examples.exampleTime "k1" "gemini" d).
  { intros d [-> | ->]; repeat split; vm_compute; reflexivity. }
  exact (proj2 (proj2 (proj2 (proj2 (proj2 (proj2
           (@dedupKey_tells_details_apart examples.exampleTime
              "k1" "gemini" examples.detailA "k1" "gemini" examples.detailA'
              (Hp _ (or_introl eq_refl)) (Hp _ (or_intror eq_refl))
              ltac:(vm_compute; reflexivity)))))))).
Defined.

End dedup_props.
